(** * The YAML dump file backend of python-icat

    A shallow embedding of [icat/dumpfile_yaml.py]: the entity encoder
    [entity2dict], the record decoder [dict2entity], the chunk reader
    [YAMLDumpFileReader.getobjs] and the chunk writer [YAMLDumpFileWriter],
    together with the part of the Python runtime and of the ICAT client
    they rely on. *)

From Stdlib Require Import ZArith NArith String Ascii List Lia Sorted Permutation.
From stdpp Require Import base option list sorting strings gmap.
From Equations Require Import Equations.
Import ListNotations.

#[local] Set Warnings "-register-all".

(** ** Python values *)

(** [datetime.tzinfo]: only what the encoder asks of it, namely the
    result of [utcoffset(v)] for the timestamp [v] that carries it, in
    minutes east of UTC ([None] when the zone does not know it).  The
    offset is a whole number of minutes, of any size: a zone is a class
    of the caller, and nothing checks what its [utcoffset] returns
    until [isoformat] asks for it. *)
Record tzinfo := Tzinfo { tz_utcoffset : option Z }.

(** [datetime.datetime].  The calendar fields are in the ranges Python
    enforces (year below 10000, month and day below 100, and so on). *)
Record datetime := Datetime {
  dt_year : N;
  dt_month : N;
  dt_day : N;
  dt_hour : N;
  dt_minute : N;
  dt_second : N;
  dt_microsecond : N;
  dt_tzinfo : option tzinfo
}.

(** The values that occur as attributes of an entity and in a YAML
    document.  Python 2 has two integer types and two string types; a
    float is a dyadic rational [m * 2^e]; a unicode string is a list of
    code points; a dict has byte strings as keys and is given by its
    items in iteration order. *)
Inductive pyval :=
| VNone
| VBool (b : bool)
| VInt (z : Z)
| VLong (z : Z)
| VFloat (m e : Z)
| VDatetime (t : datetime)
| VStr (s : string)
| VUnicode (u : list N)
| VList (l : list pyval)
| VDict (d : list (string * pyval)).

(** [v is None] *)
Definition is_None (v : pyval) : bool :=
  match v with
  | VNone => true
  | _ => false
  end.

(** A Python dict with string keys, as the list of its items.  The keys
    of a dict are pairwise distinct ([dict_wf]). *)
Definition dict (A : Type) : Type := list (string * A).

Definition record : Type := dict pyval.

Definition dict_wf {A} (d : dict A) : Prop := NoDup (d.*1).

(** [d.get(k)] *)
Fixpoint dict_get {A} (d : dict A) (k : string) : option A :=
  match d with
  | [] => None
  | (k', v) :: d' => if decide (k = k') then Some v else dict_get d' k
  end.

(** [d[k] = v] *)
Fixpoint dict_set {A} (d : dict A) (k : string) (v : A) : dict A :=
  match d with
  | [] => [(k, v)]
  | (k', v') :: d' =>
      if decide (k = k') then (k, v) :: d' else (k', v') :: dict_set d' k v
  end.

(** [k in d] *)
Definition dict_has {A} (d : dict A) (k : string) : bool :=
  bool_decide (is_Some (dict_get d k)).

(** A unicode string has only ASCII characters *)
Definition is_ascii (u : list N) : bool := forallb (fun c => (c <? 128)%N) u.

(** [u.encode('ascii')], for such a string *)
Definition encode_ascii (u : list N) : string :=
  string_of_list_ascii (map ascii_of_N u).

(** ** Exceptions *)

(** The messages of the exceptions the code raises itself, each a format
    string with its arguments. *)
Inductive message :=
| InvalidAttribute (attr : pyval) (objtype : string)
    (* ["invalid attribute '%s' in '%s'" % (attr, objtype)] *)
| UnknownEntityType (tag : string)
    (* ["Unknown entity type '%s'" % tag] *)
| UtcOffsetRange (off : Z)
    (* ["tzinfo.utcoffset() returned %d; must be in -1439 .. 1439" % off] *).

(** The exceptions: [ValueError] with its message, the [TypeError] and
    [KeyError] of the interpreter, and the errors of the client. *)
Inductive exn :=
| ValueError (msg : message)
| TypeError
| KeyError (key : string)
| UnresolvedReferenceError (key : pyval)
| ClientError (msg : string).

Inductive result (A : Type) :=
| Ok (a : A)
| Raise (e : exn).
Arguments Ok {A} a.
Arguments Raise {A} e.

(** Sequencing: an exception raised by [r] ends the computation. *)
#[global] Instance result_bind : MBind result := λ A B f r,
  match r with
  | Ok a => f a
  | Raise e => Raise e
  end.

#[global] Instance result_ret : MRet result := λ A a, Ok a.

(** [[f(x) for x in l]], stopping at the first exception *)
Fixpoint mapM {A B} (f : A -> result B) (l : list A) : result (list B) :=
  match l with
  | [] => Ok []
  | x :: l' => y ← f x; ys ← mapM f l'; Ok (y :: ys)
  end.

(** A loop [for x in l: acc = body(acc, x)], stopping at the first
    exception *)
Fixpoint foldM {A S} (body : S -> A -> result S) (acc : S) (l : list A) : result S :=
  match l with
  | [] => Ok acc
  | x :: l' => acc' ← body acc x; foldM body acc' l'
  end.

(** ** Rendering of timestamps: [datetime.isoformat()] *)

Definition digit (n : N) : ascii := ascii_of_N (48 + n mod 10).

(** ["%0wd" % n], for [n < 10^w] *)
Fixpoint zero_padded (w : nat) (n : N) : string :=
  match w with
  | O => ""
  | S w' => zero_padded w' (n / 10) +:+ String (digit n) ""
  end.

(** The offset suffix [+HH:MM] or [-HH:MM] of an offset in minutes.
    [isoformat] accepts the offset that the zone returns only when it
    is strictly between -24 and 24 hours, and raises [ValueError]
    otherwise. *)
Definition format_offset (off : Z) : result string :=
  if ((-1440 <? off) && (off <? 1440))%Z then
    Ok ((if (off <? 0)%Z then "-" else "+")
        +:+ zero_padded 2 (Z.to_N (Z.abs off / 60))
        +:+ ":" +:+ zero_padded 2 (Z.to_N (Z.abs off mod 60)))
  else Raise (ValueError (UtcOffsetRange off)).

(** [v.tzinfo.utcoffset(v)], when [v.tzinfo] is not [None] *)
Definition utcoffset (t : datetime) : option Z :=
  match dt_tzinfo t with
  | None => None
  | Some tz => tz_utcoffset tz
  end.

(** The date and time without any zone suffix:
    [YYYY-MM-DDTHH:MM:SS] and [.ffffff] when the microseconds are not 0 *)
Definition isoformat_naive (t : datetime) : string :=
  zero_padded 4 (dt_year t) +:+ "-" +:+ zero_padded 2 (dt_month t) +:+ "-"
  +:+ zero_padded 2 (dt_day t) +:+ "T" +:+ zero_padded 2 (dt_hour t) +:+ ":"
  +:+ zero_padded 2 (dt_minute t) +:+ ":" +:+ zero_padded 2 (dt_second t)
  +:+ (if (dt_microsecond t =? 0)%N then ""
      else "." +:+ zero_padded 6 (dt_microsecond t)).

(** [v.isoformat()]: the date and time, followed by the offset suffix
    when the zone of [v] knows its offset; it raises what the rendering
    of the offset raises. *)
Definition isoformat (t : datetime) : result string :=
  match utcoffset t with
  | Some off => suffix ← format_offset off; Ok (isoformat_naive t +:+ suffix)
  | None => Ok (isoformat_naive t)
  end.

(** ** Entities *)

(** The class variables of an entity class of [icat/entities.py]; a
    frozenset is given by its elements in iteration order. *)
Record schema := Schema {
  BeanName : string;
  InstAttr : list string;
  InstRel : list string;
  InstMRel : list string
}.

(** Modelled from the spec: the objects of the class [Entity] of
    [icat/entity.py], which is not among the sources.  An entity has its
    class, the values of its attributes, the entities that its many to
    one relations refer to, and the collections of children of its one
    to many relations.  Attribute access on an entity goes to one of the
    three according to the set of its class that has the name; the sets
    of the classes of [icat/entities.py] are disjoint ([schema_wf]
    below). *)
Inductive entity := Entity {
  e_class : schema;
  e_attrs : dict pyval;
  e_rels : dict entity;
  e_mrels : dict (list entity)
}.

(** [getattr(obj, attr, None)] for an attribute *)
Definition getattr (obj : entity) (attr : string) : pyval :=
  default VNone (dict_get (e_attrs obj) attr).

(** [getattr(obj, attr, None)] for a many to one relation *)
Definition getrel (obj : entity) (attr : string) : option entity :=
  dict_get (e_rels obj) attr.

(** [getattr(obj, attr)] for a one to many relation *)
Definition getmrel (obj : entity) (attr : string) : list entity :=
  default [] (dict_get (e_mrels obj) attr).

(** [setattr(obj, attr, v)] for an attribute *)
Definition setattr (obj : entity) (attr : string) (v : pyval) : entity :=
  Entity (e_class obj) (dict_set (e_attrs obj) attr v) (e_rels obj) (e_mrels obj).

(** [setattr(obj, attr, robj)] for a many to one relation *)
Definition setrel (obj : entity) (attr : string) (robj : entity) : entity :=
  Entity (e_class obj) (e_attrs obj) (dict_set (e_rels obj) attr robj) (e_mrels obj).

(** [getattr(obj, attr).append(robj)] for a one to many relation *)
Definition appendmrel (obj : entity) (attr : string) (robj : entity) : entity :=
  Entity (e_class obj) (e_attrs obj) (e_rels obj)
         (dict_set (e_mrels obj) attr (getmrel obj attr ++ [robj])).

Fixpoint entity_size (obj : entity) : nat :=
  match obj with
  | Entity _ _ rs ms =>
      S ((fix rels (l : dict entity) : nat :=
            match l with
            | [] => 0
            | (_, o) :: l' => entity_size o + rels l'
            end) rs
         + (fix mrels (l : dict (list entity)) : nat :=
              match l with
              | [] => 0
              | (_, os) :: l' =>
                  (fix objs (c : list entity) : nat :=
                     match c with
                     | [] => 0
                     | o :: c' => entity_size o + objs c'
                     end) os + mrels l'
              end) ms)
  end.

Definition objs_size (c : list entity) : nat :=
  foldr (fun o n => entity_size o + n) 0 c.

Definition mrels_size (l : dict (list entity)) : nat :=
  foldr (fun p n => objs_size p.2 + n) 0 l.

Definition rels_size (l : dict entity) : nat :=
  foldr (fun p n => entity_size p.2 + n) 0 l.

Lemma entity_size_eq obj :
  entity_size obj = S (rels_size (e_rels obj) + mrels_size (e_mrels obj)).
Proof.
  destruct obj as [c a rs ms]; simpl. f_equal. f_equal.
  - induction rs as [|[k o] rs IH]; simpl; congruence.
  - induction ms as [|[k os] ms IH]; simpl; [reflexivity|].
    rewrite IH. reflexivity.
Qed.

Lemma objs_size_elem o c : o ∈ c -> entity_size o <= objs_size c.
Proof.
  induction 1 as [o c|o o' c _ IH]; simpl; lia.
Qed.

Lemma mrels_size_get l attr c :
  dict_get l attr = Some c -> objs_size c <= mrels_size l.
Proof.
  induction l as [|[k os] l IH]; simpl; [done|].
  case_decide; intros Hg.
  - injection Hg as ->. lia.
  - specialize (IH Hg). lia.
Qed.

Lemma getmrel_size obj attr o :
  o ∈ getmrel obj attr -> entity_size o < entity_size obj.
Proof.
  unfold getmrel. intros Ho. rewrite (entity_size_eq obj).
  destruct (dict_get (e_mrels obj) attr) as [c|] eqn:Hc; simpl in Ho.
  - apply objs_size_elem in Ho. apply mrels_size_get in Hc. lia.
  - by apply elem_of_nil in Ho.
Qed.

(** ** Sorting: [sorted(l, key=key)]

    Python's sort is stable and compares the keys with [<] only: an
    element moves in front of another one exactly when its key is
    smaller. *)
Section Sorting.
Context {A K : Type} (key : A -> K) (key_lt : K -> K -> bool).

Fixpoint insert_sorted (x : A) (l : list A) : list A :=
  match l with
  | [] => [x]
  | y :: l' =>
      if key_lt (key y) (key x) then y :: insert_sorted x l' else x :: y :: l'
  end.

Definition sorted (l : list A) : list A := foldr insert_sorted [] l.

(** The key of [y] is not smaller than the key of [x] *)
Definition key_le (x y : A) : Prop := key_lt (key y) (key x) = false.

(** The sort does not tell [x] and [y] apart: neither key is smaller
    than the other *)
Definition tied (x y : A) : Prop := key_le x y /\ key_le y x.

#[global] Instance key_le_dec x y : Decision (key_le x y).
Proof. unfold key_le. apply _. Defined.

#[global] Instance tied_dec x y : Decision (tied x y).
Proof. unfold tied. apply _. Defined.

Lemma insert_sorted_perm x l : insert_sorted x l ≡ₚ x :: l.
Proof.
  induction l as [|y l IH]; simpl; [done|].
  destruct (key_lt (key y) (key x)); [|done].
  rewrite IH. apply Permutation_swap.
Qed.

Lemma sorted_perm l : sorted l ≡ₚ l.
Proof.
  induction l as [|x l IH]; simpl; [done|].
  rewrite insert_sorted_perm. by rewrite IH.
Qed.

Lemma sorted_In o l : In o (sorted l) -> o ∈ l.
Proof.
  intros H. apply list_elem_of_In in H. by rewrite sorted_perm in H.
Qed.
End Sorting.

(** [mapM] where the function is told that its argument is in the list *)
Fixpoint mapM_in {A B} (l : list A) : (forall x, In x l -> result B) -> result (list B) :=
  match l with
  | [] => fun _ => Ok []
  | x :: l' => fun f =>
      y ← f x (or_introl eq_refl);
      ys ← mapM_in l' (fun z H => f z (or_intror H));
      Ok (y :: ys)
  end.

Lemma mapM_in_mapM {A B} (f : A -> result B) (l : list A) :
  mapM_in l (fun x _ => f x) = mapM f l.
Proof.
  induction l as [|x l IH]; simpl; [done|]. by rewrite IH.
Qed.

Lemma foldM_ext {A S} (f g : S -> A -> result S) acc l :
  (forall s a, f s a = g s a) -> foldM f acc l = foldM g acc l.
Proof.
  intros Hfg. revert acc. induction l as [|x l IH]; intros acc; simpl; [done|].
  rewrite Hfg. destruct (g acc x); simpl; [apply IH|done].
Qed.

(** ** The encoder: [entity2dict] *)

Section Encoder.
(** [sys.maxint] *)
Variable maxint : Z.
(** [str(v)] for the values whose rendering Python computes and this
    development does not: floats and containers *)
Variable builtin_str : pyval -> string.
(** [icat.entity.Entity.getUniqueKey(autoget=False, keyindex=keyindex)]
    and the type of the key index it consults *)
Variable keyindex : Type.
Variable getUniqueKey : entity -> keyindex -> result string.
(** [icat.entity.Entity.__sortkey__] and the order [<] of its values *)
Variable sortkey_t : Type.
Variable sortkey : entity -> sortkey_t.
Variable sortkey_lt : sortkey_t -> sortkey_t -> bool.

(** [int(v)] for an integer [v]: a long that fits becomes an int *)
Definition py_int (v : pyval) : pyval :=
  match v with
  | VLong z => if ((- maxint - 1 <=? z) && (z <=? maxint))%Z then VInt z else VLong z
  | _ => v
  end.

(** [try: v = str(v) except UnicodeError: v = unicode(v)] *)
Definition py_str (v : pyval) : pyval :=
  match v with
  | VStr s => VStr s
  | VUnicode u => if is_ascii u then VStr (encode_ascii u) else VUnicode u
  | _ => VStr (builtin_str v)
  end.

(** [v.tzinfo is not None and v.tzinfo.utcoffset(v) is not None] *)
Definition has_timezone (t : datetime) : bool :=
  match dt_tzinfo t with
  | None => false
  | Some tz => bool_decide (is_Some (tz_utcoffset tz))
  end.

Definition render_datetime (t : datetime) : result string :=
  if has_timezone t then isoformat t else s ← isoformat t; Ok (s +:+ "Z").

(** The chain [elif isinstance(v, bool): ... else: ...] that converts
    an attribute value [v] that is not [None]; it raises what
    [v.isoformat()] raises for a timestamp. *)
Definition encode_value (v : pyval) : result pyval :=
  match v with
  | VBool _ => Ok v
  | VInt _ | VLong _ => Ok (py_int v)
  | VDatetime t => s ← render_datetime t; Ok (VStr s)
  | _ => Ok (py_str v)
  end.

(** The body of the loop over [obj.InstAttr] *)
Definition encode_attr (obj : entity) (d : record) (attr : string) : result record :=
  if decide (attr = "id") then Ok d
  else
    let v := getattr obj attr in
    if is_None v then Ok d else v' ← encode_value v; Ok (dict_set d attr v').

(** The body of the loop over [obj.InstRel] *)
Definition encode_rel (ki : keyindex) (obj : entity) (d : record) (attr : string)
  : result record :=
  match getrel obj attr with
  | None => Ok d
  | Some o => k ← getUniqueKey o ki; Ok (dict_set d attr (VStr k))
  end.

(** The body of the loop over [obj.InstMRel], given the encoding of
    the children *)
Definition encode_mrel (obj : entity)
    (encode_children : list entity -> result (list record))
    (d : record) (attr : string) : result record :=
  if bool_decide (0 < length (getmrel obj attr)) then
    l ← encode_children (sorted sortkey sortkey_lt (getmrel obj attr));
    Ok (dict_set d attr (VList (VDict <$> l)))
  else Ok d.

(** [entity2dict(obj, keyindex)]: the three loops, over the attributes,
    over the many to one relations and over the one to many relations,
    whose children are sorted and encoded in turn.  The recursion is on
    the children of the entity, which are smaller than it is. *)
Equations? entity2dict (obj : entity) (ki : keyindex) : result record
  by wf (entity_size obj) lt :=
entity2dict obj ki :=
  d ← foldM (encode_attr obj) [] (InstAttr (e_class obj));
  d ← foldM (encode_rel ki obj) d (InstRel (e_class obj));
  foldM (fun d attr =>
           if bool_decide (0 < length (getmrel obj attr)) then
             l ← mapM_in (sorted sortkey sortkey_lt (getmrel obj attr))
                         (fun o _ => entity2dict o ki);
             Ok (dict_set d attr (VList (VDict <$> l)))
           else Ok d)
        d (InstMRel (e_class obj)).
Proof.
  eapply getmrel_size, sorted_In. eassumption.
Qed.

(** The defining equation, with the loop over the children as [mapM] *)
Lemma entity2dict_eq obj ki :
  entity2dict obj ki =
    (d ← foldM (encode_attr obj) [] (InstAttr (e_class obj));
     d ← foldM (encode_rel ki obj) d (InstRel (e_class obj));
     foldM (encode_mrel obj (mapM (fun o => entity2dict o ki)))
           d (InstMRel (e_class obj))).
Proof.
  rewrite entity2dict_equation_1. unfold encode_mrel.
  destruct (foldM (encode_attr obj) _ _) as [d0|e]; simpl; [|done].
  destruct (foldM (encode_rel ki obj) _ _) as [d|e]; simpl; [|done].
  apply foldM_ext. intros d' attr. case_bool_decide; [|done].
  by rewrite mapM_in_mapM.
Qed.
End Encoder.

(** ** The decoder: [dict2entity] *)

(** An entry of [client.getEntityInfo(beanname).fields] *)
Record field_info := FieldInfo {
  f_name : string;
  f_type : string;
  f_relType : string
}.

(** What the decoder can reach through [client] and [objindex]: the key
    index of the session, from keys to entities, and the entities that
    exist at the ICAT service, by their unique key. *)
Record world := World {
  objindex : gmap string entity;
  service : gmap string entity
}.

(** The byte string that a value is equal to as a member of a set of byte
    strings or as a key of a dict, if there is one *)
Definition str_key (v : pyval) : option string :=
  match v with
  | VStr s => Some s
  | VUnicode u => if is_ascii u then Some (encode_ascii u) else None
  | _ => None
  end.

(** [hash(v)] is defined *)
Definition hashable (v : pyval) : bool :=
  match v with
  | VList _ | VDict _ => false
  | _ => true
  end.

(** [attr in names], for a frozenset of byte strings *)
Definition py_in (attr : pyval) (names : list string) : bool :=
  match str_key attr with
  | Some s => bool_decide (s ∈ names)
  | None => false
  end.

(** The characters of a byte string, each as a string *)
Definition chars (s : string) : list pyval :=
  (fun c => VStr (String c EmptyString)) <$> list_ascii_of_string s.

Definition uchars (u : list N) : list pyval := (fun c => VUnicode [c]) <$> u.

(** [iter(v)] when [v] is not a list: the keys of a dict, the characters
    of a string *)
Definition py_iter (v : pyval) : result (list pyval) :=
  match v with
  | VDict d => Ok (VStr <$> d.*1)
  | VStr s => Ok (chars s)
  | VUnicode u => Ok (uchars u)
  | VList l => Ok l
  | _ => Raise TypeError
  end.

Section Decoder.
(** [client.typemap], from type names to entity classes *)
Variable typemap : dict schema.
(** [client.getEntityInfo(beanname).fields] *)
Variable getEntityInfo : string -> result (list field_info).

(** Modelled from the spec: [client.new] of [icat/client.py], which is
    not among the sources.  A new entity of the class registered for
    the type name, with no attribute and no relation set; a type name
    that the registry does not have is an error of the client. *)
Definition client_new (objtype : string) : result entity :=
  match dict_get typemap objtype with
  | Some c => Ok (Entity c [] [] [])
  | None => Raise (ClientError "unknown entity type")
  end.

(** Modelled from the spec: [client.searchUniqueKey] of
    [icat/client.py], which is not among the sources.  The key is
    resolved against the key index, falling back to a lookup by key at
    the service, whose result the index then remembers; it fails when
    neither succeeds.  Nothing is created at the service. *)
Definition searchUniqueKey (key : pyval) (st : world) : result entity * world :=
  match str_key key with
  | None => (Raise (UnresolvedReferenceError key), st)
  | Some k =>
      match objindex st !! k with
      | Some o => (Ok o, st)
      | None =>
          match service st !! k with
          | Some o => (Ok o, World (<[k := o]> (objindex st)) (service st))
          | None => (Raise (UnresolvedReferenceError key), st)
          end
      end
  end.

(** [{ c.BeanName:t for t,c in self.client.typemap.iteritems() }] *)
Definition insttypemap : dict string :=
  foldl (fun m tc => dict_set m (BeanName tc.2) tc.1) [] typemap.

(** [{ f.name:insttypemap[f.type] for f in info.fields
       if f.relType == "MANY" }] *)
Definition mreltypes_of (obj : entity) : result (dict string) :=
  info ← getEntityInfo (BeanName (e_class obj));
  foldM (fun m f =>
           if decide (f_relType f = "MANY") then
             match dict_get insttypemap (f_type f) with
             | Some t => Ok (dict_set m (f_name f) t)
             | None => Raise (KeyError (f_type f))
             end
           else Ok m)
        [] info.

(** The body of the loop [for attr in d] when [d] is not a dict, so
    that [d[attr]] raises [TypeError] wherever [attr] is declared. *)
Definition decode_field_nondict (obj : entity) (objtype : string) (attr : pyval)
  : result entity :=
  if negb (hashable attr) then Raise TypeError
  else if py_in attr (InstAttr (e_class obj)) then Raise TypeError
  else if py_in attr (InstRel (e_class obj)) then Raise TypeError
  else if py_in attr (InstMRel (e_class obj)) then
    _ ← mreltypes_of obj; Raise TypeError
  else Raise (ValueError (InvalidAttribute attr objtype)).

(** [dict2entity] on a value [d] that is not a dict *)
Definition dict2entity_nondict (d : pyval) (objtype : string) : result entity :=
  obj ← client_new objtype;
  attrs ← py_iter d;
  foldM (fun obj attr => decode_field_nondict obj objtype attr) obj attrs.

(** The loop [for rd in v: ...append(dict2entity(..., rd,
    mreltypes[attr], objindex))] when [v] is not a list: the elements
    are strings. *)
Definition decode_children_nonlist (mreltypes : dict string) (attr : string)
    (obj : entity) (v : pyval) : result entity :=
  rds ← py_iter v;
  foldM (fun obj rd =>
           match dict_get mreltypes attr with
           | None => Raise (KeyError attr)
           | Some t =>
               robj ← dict2entity_nondict rd t;
               Ok (appendmrel obj attr robj)
           end) obj rds.

Section Loops.
(** The recursive call [dict2entity(client, insttypemap, rd, t,
    objindex)] *)
Variable decode : pyval -> string -> world -> result entity * world.

(** The loop [for rd in d[attr]] over a list *)
Fixpoint decode_children (mreltypes : dict string) (attr : string)
    (l : list pyval) (obj : entity) (st : world) {struct l}
  : result entity * world :=
  match l with
  | [] => (Ok obj, st)
  | rd :: l' =>
      match dict_get mreltypes attr with
      | None => (Raise (KeyError attr), st)
      | Some t =>
          match decode rd t st with
          | (Ok robj, st') =>
              decode_children mreltypes attr l' (appendmrel obj attr robj) st'
          | (Raise e, st') => (Raise e, st')
          end
      end
  end.

(** The loop [for attr in d] over the items of a dict, where
    [mreltypes] is [None] until the first one to many relation *)
Fixpoint decode_fields (objtype : string) (d : list (string * pyval))
    (obj : entity) (mreltypes : option (dict string)) (st : world) {struct d}
  : result entity * world :=
  match d with
  | [] => (Ok obj, st)
  | (attr, v) :: d' =>
      if bool_decide (attr ∈ InstAttr (e_class obj)) then
        decode_fields objtype d' (setattr obj attr v) mreltypes st
      else if bool_decide (attr ∈ InstRel (e_class obj)) then
        match searchUniqueKey v st with
        | (Ok robj, st') =>
            decode_fields objtype d' (setrel obj attr robj) mreltypes st'
        | (Raise e, st') => (Raise e, st')
        end
      else if bool_decide (attr ∈ InstMRel (e_class obj)) then
        match from_option Ok (mreltypes_of obj) mreltypes with
        | Raise e => (Raise e, st)
        | Ok m =>
            match
              match v with
              | VList l => decode_children m attr l obj st
              | _ => (decode_children_nonlist m attr obj v, st)
              end
            with
            | (Ok obj', st') => decode_fields objtype d' obj' (Some m) st'
            | (Raise e, st') => (Raise e, st')
            end
        end
      else (Raise (ValueError (InvalidAttribute (VStr attr) objtype)), st)
  end.
End Loops.

(** [dict2entity(client, insttypemap, d, objtype, objindex)], in the
    state [st] of the key index and of the service: the result or the
    exception, and the state afterwards *)
Fixpoint dict2entity (d : pyval) (objtype : string) (st : world) {struct d}
  : result entity * world :=
  match d with
  | VDict items =>
      match client_new objtype with
      | Ok obj => decode_fields dict2entity objtype items obj None st
      | Raise e => (Raise e, st)
      end
  | _ => (dict2entity_nondict d objtype, st)
  end.
End Decoder.

(** ** The reader: [YAMLDumpFileReader] *)

(** List of entity types.  This defines in particular the order in which
    the types must be restored. *)
Definition entitytypes : list string :=
  [ "user"; "grouping"; "rule"; "publicStep"; "facility"; "instrument";
    "parameterType"; "investigationType"; "sampleType"; "datasetType";
    "datafileFormat"; "facilityCycle"; "application"; "investigation";
    "study"; "sample"; "dataset"; "datafile"; "relatedDatafile";
    "dataCollection"; "job" ].

(** A data chunk (a YAML document): for each type tag, the records of
    that type by key. *)
Definition chunk : Type := dict (dict pyval).

(** A record of a chunk that [getobjs] is going to decode, with its type
    tag and its key *)
Record item := Item {
  i_name : string;
  i_key : string;
  i_dict : pyval
}.

(** The records that the two loops of [getobjs] visit, in order:
    [for name in entitytypes: if name in data:
       for key, d in data[name].iteritems()] *)
Definition getobjs_items (data : chunk) : list item :=
  name ← entitytypes;
  match dict_get data name with
  | Some recs => (fun kd => Item name kd.1 kd.2) <$> recs
  | None => []
  end.

(** What one step of a generator gives: a value, an exception, or the
    end of the iteration *)
Inductive yielded (A : Type) :=
| Yield (a : A)
| Raised (e : exn)
| StopIteration.
Arguments Yield {A} a.
Arguments Raised {A} e.
Arguments StopIteration {A}.

Section Reader.
Variable typemap : dict schema.
Variable getEntityInfo : string -> result (list field_info).

(** The generator [getobjs(data, objindex)], as the records it still
    has to visit; [next] resumes it in the current state of the key
    index and of the service.  A generator that has raised is
    exhausted. *)
Definition getobjs (data : chunk) : list item := getobjs_items data.

Definition next (g : list item) (st : world)
  : yielded (string * entity) * list item * world :=
  match g with
  | [] => (StopIteration, [], st)
  | it :: g' =>
      match dict2entity typemap getEntityInfo (i_dict it) (i_name it) st with
      | (Ok obj, st') => (Yield (i_key it, obj), g', st')
      | (Raise e, st') => (Raised e, [], st')
      end
  end.

(** The loop [for key, obj in getobjs(data, objindex): body] of a
    caller whose body acts on the key index and on the service: the
    pairs yielded, how the loop ended, and the final state. *)
Variable body : string -> entity -> world -> world.

Fixpoint for_getobjs (g : list item) (st : world)
  : list (string * entity) * result unit * world :=
  match g with
  | [] => ([], Ok (), st)
  | it :: g' =>
      match dict2entity typemap getEntityInfo (i_dict it) (i_name it) st with
      | (Ok obj, st') =>
          let '(ys, r, st'') := for_getobjs g' (body (i_key it) obj st') in
          ((i_key it, obj) :: ys, r, st'')
      | (Raise e, st') => ([], Raise e, st')
      end
  end.
End Reader.

(** ** The writer: [YAMLDumpFileWriter] *)

(** What has been written to the output file: the header, and YAML
    documents, one for each chunk *)
Inductive output :=
| Header (text : string)
| Document (data : chunk).

Record writer := Writer {
  outfile : list output;
  data : chunk
}.

Definition newline : string := String (ascii_of_nat 10) EmptyString.

Section Writer.
Variable maxint : Z.
Variable builtin_str : pyval -> string.
Variable keyindex : Type.
Variable getUniqueKey : entity -> keyindex -> result string.
Variable sortkey_t : Type.
Variable sortkey : entity -> sortkey_t.
Variable sortkey_lt : sortkey_t -> sortkey_t -> bool.
(** [icat.__version__] *)
Variable version : string.

(** [__init__] *)
Definition writer_init : writer := Writer [] [].

(** [head], where [date] is the formatted current time *)
Definition head (date service apiversion : string) (w : writer) : writer :=
  Writer (outfile w ++
          [Header ("%YAML 1.1" +:+ newline
                   +:+ "# Date: " +:+ date +:+ newline
                   +:+ "# Service: " +:+ service +:+ newline
                   +:+ "# ICAT-API: " +:+ apiversion +:+ newline
                   +:+ "# Generator: icatdump (python-icat " +:+ version +:+ ")"
                   +:+ newline)])
         (data w).

(** [startdata]: a dict is true when it is not empty *)
Definition startdata (w : writer) : writer :=
  match data w with
  | [] => Writer (outfile w) []
  | _ :: _ => Writer (outfile w ++ [Document (data w)]) []
  end.

(** [add] *)
Definition add (tag key : string) (obj : entity) (ki : keyindex) (w : writer)
  : result unit * writer :=
  if bool_decide (tag ∈ entitytypes) then
    let data1 :=
      if dict_has (data w) tag then data w else dict_set (data w) tag [] in
    match entity2dict maxint builtin_str keyindex getUniqueKey
                      sortkey_t sortkey sortkey_lt obj ki with
    | Ok d =>
        (Ok (),
         Writer (outfile w)
                (dict_set data1 tag
                   (dict_set (default [] (dict_get data1 tag)) key (VDict d))))
    | Raise e => (Raise e, Writer (outfile w) data1)
    end
  else (Raise (ValueError (UnknownEntityType tag)), w).

(** [finalize] *)
Definition finalize (w : writer) : writer := startdata w.
End Writer.

(** ** The entity classes of [icat/entities.py] *)

(** A class statement: the name of the class, the name of its base
    class, and the class variables that it sets itself. *)
Record classdef := ClassDef {
  c_name : string;
  c_base : string;
  c_BeanName : option string;
  c_InstAttr : option (list string);
  c_InstRel : option (list string);
  c_InstMRel : option (list string)
}.

(** A class with the values of its class variables, its own or
    inherited; [BeanName] is [None] for an abstract class. *)
Record pyclass := PyClass {
  k_BeanName : option string;
  k_InstAttr : list string;
  k_InstRel : list string;
  k_InstMRel : list string
}.

(** Modelled from the spec: the base class [Entity] of [icat/entity.py],
    which is not among the sources.  An entity has the identity
    attribute [id], and no relation unless its class declares one. *)
Definition Entity_base : pyclass := PyClass None ["id"] [] [].

Definition derive (base : pyclass) (c : classdef) : pyclass :=
  PyClass (from_option Some (k_BeanName base) (c_BeanName c))
          (default (k_InstAttr base) (c_InstAttr c))
          (default (k_InstRel base) (c_InstRel c))
          (default (k_InstMRel base) (c_InstMRel c)).

(** The classes that a sequence of class statements defines *)
Definition define_classes (defs : list classdef) : dict pyclass :=
  foldl (fun env c =>
           match (if decide (c_base c = "Entity") then Some Entity_base
                  else dict_get env (c_base c)) with
           | Some base => dict_set env (c_name c) (derive base c)
           | None => env
           end) [] defs.

Definition schema_of (k : pyclass) : option schema :=
  b ← k_BeanName k; Some (Schema b (k_InstAttr k) (k_InstRel k) (k_InstMRel k)).

Definition entities_py : list classdef :=
  [
    ClassDef "Parameter" "Entity" None
      (Some ["id"; "numericValue"; "dateTimeValue"; "stringValue";
      "rangeBottom"; "rangeTop"; "error"])
      (Some ["type"])
      None;
    ClassDef "Application" "Entity" (Some "Application")
      (Some ["id"; "name"; "version"])
      None
      (Some ["jobs"]);
    ClassDef "Application43" "Application" None
      None
      (Some ["facility"])
      None;
    ClassDef "DataCollection" "Entity" (Some "DataCollection")
      None
      None
      (Some ["dataCollectionDatafiles"; "dataCollectionDatasets";
      "dataCollectionParameters"; "jobsAsInput"; "jobsAsOutput"]);
    ClassDef "DataCollectionDatafile" "Entity" (Some "DataCollectionDatafile")
      None
      (Some ["dataCollection"; "datafile"])
      None;
    ClassDef "DataCollectionDataset" "Entity" (Some "DataCollectionDataset")
      None
      (Some ["dataCollection"; "dataset"])
      None;
    ClassDef "DataCollectionParameter" "Parameter" (Some "DataCollectionParameter")
      None
      (Some ["dataCollection"; "type"])
      None;
    ClassDef "Datafile" "Entity" (Some "Datafile")
      (Some ["id"; "name"; "description"; "location"; "fileSize";
      "checksum"; "datafileCreateTime"; "datafileModTime"; "doi"])
      (Some ["datafileFormat"; "dataset"])
      (Some ["parameters"; "inputDatafiles"; "outputDatafiles";
      "sourceDatafiles"; "destDatafiles"]);
    ClassDef "Datafile43" "Datafile" None
      None
      None
      (Some ["parameters"; "dataCollectionDatafiles"; "sourceDatafiles";
      "destDatafiles"]);
    ClassDef "DatafileFormat" "Entity" (Some "DatafileFormat")
      (Some ["id"; "name"; "description"; "version"; "type"])
      (Some ["facility"])
      (Some ["datafiles"]);
    ClassDef "DatafileParameter" "Parameter" (Some "DatafileParameter")
      None
      (Some ["datafile"; "type"])
      None;
    ClassDef "Dataset" "Entity" (Some "Dataset")
      (Some ["id"; "name"; "description"; "location"; "startDate";
      "endDate"; "complete"; "doi"])
      (Some ["type"; "sample"; "investigation"])
      (Some ["parameters"; "datafiles"; "inputDatasets"; "outputDatasets"]);
    ClassDef "Dataset43" "Dataset" None
      None
      None
      (Some ["parameters"; "datafiles"; "dataCollectionDatasets"]);
    ClassDef "DatasetParameter" "Parameter" (Some "DatasetParameter")
      None
      (Some ["dataset"; "type"])
      None;
    ClassDef "DatasetType" "Entity" (Some "DatasetType")
      (Some ["id"; "name"; "description"])
      (Some ["facility"])
      (Some ["datasets"]);
    ClassDef "Facility" "Entity" (Some "Facility")
      (Some ["id"; "name"; "fullName"; "description"; "url";
      "daysUntilRelease"])
      None
      (Some ["instruments"; "facilityCycles"; "investigations";
      "parameterTypes"; "datafileFormats"; "datasetTypes"; "sampleTypes";
      "investigationTypes"]);
    ClassDef "Facility43" "Facility" None
      None
      None
      (Some ["instruments"; "facilityCycles"; "investigations";
      "parameterTypes"; "datafileFormats"; "datasetTypes"; "sampleTypes";
      "investigationTypes"; "applications"]);
    ClassDef "FacilityCycle" "Entity" (Some "FacilityCycle")
      (Some ["id"; "name"; "description"; "startDate"; "endDate"])
      (Some ["facility"])
      (Some ["investigations"]);
    ClassDef "FacilityCycle43" "FacilityCycle" None
      None
      None
      (Some []);
    ClassDef "Group" "Entity" (Some "Group")
      (Some ["id"; "name"])
      None
      (Some ["userGroups"; "rules"]);
    ClassDef "Group43" "Group" (Some "Grouping")
      None
      None
      None;
    ClassDef "InputDatafile" "Entity" (Some "InputDatafile")
      None
      (Some ["job"; "datafile"])
      None;
    ClassDef "InputDataset" "Entity" (Some "InputDataset")
      None
      (Some ["job"; "dataset"])
      None;
    ClassDef "Instrument" "Entity" (Some "Instrument")
      (Some ["id"; "name"; "fullName"; "description"; "type"])
      (Some ["facility"])
      (Some ["instrumentScientists"; "investigations"]);
    ClassDef "Instrument43" "Instrument" None
      (Some ["id"; "name"; "fullName"; "description"; "type"; "url"])
      None
      (Some ["instrumentScientists"; "investigationInstruments"]);
    ClassDef "InstrumentScientist" "Entity" (Some "InstrumentScientist")
      None
      (Some ["user"; "instrument"])
      None;
    ClassDef "Investigation" "Entity" (Some "Investigation")
      (Some ["id"; "name"; "title"; "summary"; "doi"; "visitId";
      "startDate"; "endDate"; "releaseDate"])
      (Some ["type"; "facility"; "instrument"; "facilityCycle"])
      (Some ["parameters"; "investigationUsers"; "keywords"; "publications";
      "samples"; "datasets"; "shifts"; "studyInvestigations"]);
    ClassDef "Investigation43" "Investigation" None
      None
      (Some ["type"; "facility"])
      (Some ["parameters"; "investigationInstruments"; "investigationUsers";
      "keywords"; "publications"; "samples"; "datasets"; "shifts";
      "studyInvestigations"]);
    ClassDef "InvestigationInstrument" "Entity" (Some "InvestigationInstrument")
      None
      (Some ["investigation"; "instrument"])
      None;
    ClassDef "InvestigationParameter" "Parameter" (Some "InvestigationParameter")
      None
      (Some ["investigation"; "type"])
      None;
    ClassDef "InvestigationType" "Entity" (Some "InvestigationType")
      (Some ["id"; "name"; "description"])
      (Some ["facility"])
      (Some ["investigations"]);
    ClassDef "InvestigationUser" "Entity" (Some "InvestigationUser")
      (Some ["id"; "role"])
      (Some ["user"; "investigation"])
      None;
    ClassDef "Job" "Entity" (Some "Job")
      None
      (Some ["application"])
      (Some ["inputDatafiles"; "inputDatasets"; "outputDatafiles";
      "outputDatasets"]);
    ClassDef "Job43" "Job" None
      (Some ["id"; "arguments"])
      (Some ["application"; "inputDataCollection"; "outputDataCollection"])
      (Some []);
    ClassDef "Keyword" "Entity" (Some "Keyword")
      (Some ["id"; "name"])
      (Some ["investigation"])
      None;
    ClassDef "NotificationRequest" "Entity" (Some "NotificationRequest")
      (Some ["id"; "name"; "what"; "crudFlags"; "datatypes"; "destType";
      "jmsOptions"])
      None
      None;
    ClassDef "Log" "Entity" (Some "Log")
      (Some ["id"; "query"; "operation"; "entityId"; "entityName";
      "duration"])
      None
      None;
    ClassDef "OutputDatafile" "Entity" (Some "OutputDatafile")
      None
      (Some ["job"; "datafile"])
      None;
    ClassDef "OutputDataset" "Entity" (Some "OutputDataset")
      None
      (Some ["job"; "dataset"])
      None;
    ClassDef "ParameterType" "Entity" (Some "ParameterType")
      (Some ["id"; "name"; "description"; "valueType"; "units";
      "unitsFullName"; "minimumNumericValue"; "maximumNumericValue";
      "enforced"; "verified"; "applicableToDatafile"; "applicableToDataset";
      "applicableToSample"; "applicableToInvestigation"])
      (Some ["facility"])
      (Some ["datafileParameters"; "datasetParameters"; "sampleParameters";
      "investigationParameters"; "permissibleStringValues"]);
    ClassDef "ParameterType43" "ParameterType" None
      (Some ["id"; "name"; "description"; "valueType"; "units";
      "unitsFullName"; "minimumNumericValue"; "maximumNumericValue";
      "enforced"; "verified"; "applicableToDatafile"; "applicableToDataset";
      "applicableToSample"; "applicableToInvestigation";
      "applicableToDataCollection"])
      None
      (Some ["datafileParameters"; "datasetParameters"; "sampleParameters";
      "investigationParameters"; "dataCollectionParameters";
      "permissibleStringValues"]);
    ClassDef "PermissibleStringValue" "Entity" (Some "PermissibleStringValue")
      (Some ["id"; "value"])
      (Some ["type"])
      None;
    ClassDef "PublicStep" "Entity" (Some "PublicStep")
      (Some ["id"; "origin"; "field"])
      None
      None;
    ClassDef "Publication" "Entity" (Some "Publication")
      (Some ["id"; "fullReference"; "url"; "doi"; "repository";
      "repositoryId"])
      (Some ["investigation"])
      None;
    ClassDef "RelatedDatafile" "Entity" (Some "RelatedDatafile")
      (Some ["id"; "relation"])
      (Some ["sourceDatafile"; "destDatafile"])
      None;
    ClassDef "Rule" "Entity" (Some "Rule")
      (Some ["id"; "what"; "crudFlags"])
      (Some ["group"])
      None;
    ClassDef "Rule43" "Rule" None
      None
      (Some ["grouping"])
      None;
    ClassDef "Sample" "Entity" (Some "Sample")
      (Some ["id"; "name"])
      (Some ["type"; "investigation"])
      (Some ["parameters"; "datasets"]);
    ClassDef "SampleParameter" "Parameter" (Some "SampleParameter")
      None
      (Some ["sample"; "type"])
      None;
    ClassDef "SampleType" "Entity" (Some "SampleType")
      (Some ["id"; "name"; "molecularFormula"; "safetyInformation"])
      (Some ["facility"])
      (Some ["samples"]);
    ClassDef "Shift" "Entity" (Some "Shift")
      (Some ["id"; "comment"; "startDate"; "endDate"])
      (Some ["investigation"])
      None;
    ClassDef "Study" "Entity" (Some "Study")
      (Some ["id"; "name"; "description"; "status"; "startDate"])
      (Some ["user"])
      (Some ["studyInvestigations"]);
    ClassDef "StudyInvestigation" "Entity" (Some "StudyInvestigation")
      None
      (Some ["study"; "investigation"])
      None;
    ClassDef "User" "Entity" (Some "User")
      (Some ["id"; "name"; "fullName"])
      None
      (Some ["investigationUsers"; "instrumentScientists"; "userGroups";
      "studies"]);
    ClassDef "UserGroup" "Entity" (Some "UserGroup")
      None
      (Some ["user"; "group"])
      None;
    ClassDef "UserGroup43" "UserGroup" None
      None
      (Some ["user"; "grouping"])
      None
  ].

(** The class of that name, when it is not abstract *)
Definition entity_class (name : string) : option schema :=
  dict_get (define_classes entities_py) name ≫= schema_of.

(** All the classes of the module that are not abstract *)
Definition entity_classes : list schema :=
  omap (fun p => schema_of p.2) (define_classes entities_py).

(** The three sets of names of a class are disjoint, and [id] is not a
    relation. *)
Definition schema_wf (c : schema) : Prop :=
  NoDup (InstAttr c ++ InstRel c ++ InstMRel c)
  /\ ("id" ∉ InstRel c ++ InstMRel c).

#[global] Instance schema_wf_dec c : Decision (schema_wf c).
Proof. unfold schema_wf. apply _. Defined.

(** ** The shape of a record *)

(** A value that a field of a record may hold: a boolean, an integer, a
    string, or a list of records whose fields hold such values. *)
Fixpoint record_value (v : pyval) : bool :=
  match v with
  | VBool _ | VInt _ | VLong _ | VStr _ | VUnicode _ => true
  | VList l =>
      forallb (fun x =>
                 match x with
                 | VDict r => forallb (fun kv => record_value kv.2) r
                 | _ => false
                 end) l
  | _ => false
  end.

Definition record_shape (d : record) : bool :=
  forallb (fun kv => record_value kv.2) d.

(** ** Reading a zone suffix back *)

Definition digit_value (c : ascii) : option Z :=
  let n := Z.of_N (N_of_ascii c) in
  if ((48 <=? n) && (n <=? 57))%Z then Some (n - 48)%Z else None.

(** The offset in minutes that a suffix [+HH:MM] or [-HH:MM] denotes *)
Definition read_offset (s : string) : option Z :=
  match s with
  | String sg (String h1 (String h0 (String c (String m1 (String m0 EmptyString))))) =>
      h1 ← digit_value h1; h0 ← digit_value h0;
      m1 ← digit_value m1; m0 ← digit_value m0;
      let minutes := ((h1 * 10 + h0) * 60 + m1 * 10 + m0)%Z in
      if decide (c = ":"%char) then
        if decide (sg = "+"%char) then Some minutes
        else if decide (sg = "-"%char) then Some (- minutes)%Z
        else None
      else None
  | _ => None
  end.

(** ** Fields that the class of an entity does not declare *)

(** [del d[k]], where [k] may be missing *)
Fixpoint dict_del {A} (d : dict A) (k : string) : dict A :=
  match d with
  | [] => []
  | (k', v) :: d' => if decide (k = k') then dict_del d' k else (k', v) :: dict_del d' k
  end.

Definition declared (c : schema) (a : string) : Prop :=
  a ∈ InstAttr c \/ a ∈ InstRel c \/ a ∈ InstMRel c.

(** The entity has a value for a name that its class does not declare. *)
Definition exposes_undeclared (obj : entity) (a : string) : Prop :=
  ~ declared (e_class obj) a
  /\ a ∈ (e_attrs obj).*1 ++ (e_rels obj).*1 ++ (e_mrels obj).*1.

#[global] Instance declared_dec c a : Decision (declared c a).
Proof. unfold declared. apply _. Defined.

#[global] Instance exposes_undeclared_dec obj a : Decision (exposes_undeclared obj a).
Proof. unfold exposes_undeclared. apply _. Defined.

Definition without_field (obj : entity) (a : string) : entity :=
  Entity (e_class obj) (dict_del (e_attrs obj) a) (dict_del (e_rels obj) a)
         (dict_del (e_mrels obj) a).

(** ** The order of the entity types *)

(** The position of a name in a list (its length for a name that is not
    in it) *)
Fixpoint list_rank (x : string) (l : list string) : nat :=
  match l with
  | [] => 0
  | y :: l' => if decide (x = y) then 0 else S (list_rank x l')
  end.

(** The position of a type tag in [entitytypes] *)
Definition type_rank (name : string) : nat := list_rank name entitytypes.

(** ** The states of a writer *)

(** The number of records staged in a chunk *)
Definition staged_records (c : chunk) : nat :=
  foldr (fun p n => length p.2 + n) 0 c.

(** Every type tag of the chunk has a record. *)
Definition staging_wf (c : chunk) : Prop := Forall (fun p => p.2 <> []) c.

Section WriterStates.
Context (maxint : Z) (builtin_str : pyval -> string) (keyindex : Type)
        (getUniqueKey : entity -> keyindex -> result string)
        (sortkey_t : Type) (sortkey : entity -> sortkey_t)
        (sortkey_lt : sortkey_t -> sortkey_t -> bool) (version : string).

(** The states that a writer goes through from its creation, as long
    as no call raises. *)
Inductive writer_reachable : writer -> Prop :=
| reach_init : writer_reachable writer_init
| reach_head date service apiversion w :
    writer_reachable w ->
    writer_reachable (head version date service apiversion w)
| reach_startdata w :
    writer_reachable w -> writer_reachable (startdata w)
| reach_add tag key obj ki w w' :
    writer_reachable w ->
    add maxint builtin_str keyindex getUniqueKey sortkey_t sortkey sortkey_lt
        tag key obj ki w = (Ok (), w') ->
    writer_reachable w'
| reach_finalize w :
    writer_reachable w -> writer_reachable (finalize w).
End WriterStates.

(** ** The fields of an encoded record, and the entity restored from it *)

(** How a key is resolved in a state: by the key index, or else by the
    service *)
Definition resolve (st : world) (k : string) : option entity :=
  match objindex st !! k with
  | Some o => Some o
  | None => service st !! k
  end.

(** The property holds of the entity, of the children in its
    collections, of their children, and so on. *)
Inductive entity_Forall (P : entity -> Prop) (obj : entity) : Prop :=
| entity_Forall_intro :
    P obj ->
    (forall a o, o ∈ getmrel obj a -> entity_Forall P o) ->
    entity_Forall P obj.

(** The two entities are the same entity graph: they have the same
    class, the same attributes and the same targets of their many to
    one relations, and each collection of the second holds, in some
    order, the children of that collection of the first, each again up
    to the order of the children in its collections. *)
Inductive same_graph : entity -> entity -> Prop :=
| same_graph_intro obj obj' :
    e_class obj' = e_class obj ->
    e_attrs obj' = e_attrs obj ->
    e_rels obj' = e_rels obj ->
    (forall b, exists cs,
        getmrel obj' b ≡ₚ cs /\ Forall2 same_graph (getmrel obj b) cs) ->
    same_graph obj obj'.

Section Fields.
Context (maxint : Z) (builtin_str : pyval -> string) (keyindex : Type)
        (getUniqueKey : entity -> keyindex -> result string)
        (sortkey_t : Type) (sortkey : entity -> sortkey_t)
        (sortkey_lt : sortkey_t -> sortkey_t -> bool).

Local Abbreviation encode :=
  (entity2dict maxint builtin_str keyindex getUniqueKey sortkey_t sortkey sortkey_lt).
Local Abbreviation value := (encode_value maxint builtin_str).
Local Abbreviation children obj attr := (sorted sortkey sortkey_lt (getmrel obj attr)).

(** What the three loops store under a name, the later loops
    overwriting the earlier ones *)
Definition attr_field (obj : entity) (a : string) : option pyval :=
  if bool_decide (a ∈ InstAttr (e_class obj)) && negb (bool_decide (a = "id"))
     && negb (is_None (getattr obj a))
  then
    match value (getattr obj a) with
    | Ok v => Some v
    | Raise _ => None
    end
  else None.

Definition rel_field (ki : keyindex) (obj : entity) (a : string)
    (before : option pyval) : option pyval :=
  match (if bool_decide (a ∈ InstRel (e_class obj)) then getrel obj a else None) with
  | Some o =>
      match getUniqueKey o ki with
      | Ok k => Some (VStr k)
      | Raise _ => None
      end
  | None => before
  end.

Definition mrel_field (ki : keyindex) (obj : entity) (a : string)
    (before : option pyval) : option pyval :=
  if bool_decide (a ∈ InstMRel (e_class obj))
     && bool_decide (0 < length (getmrel obj a))
  then
    match mapM (fun o => encode o ki) (children obj a) with
    | Ok l => Some (VList (VDict <$> l))
    | Raise _ => None
    end
  else before.

Definition encoded_field (ki : keyindex) (obj : entity) (a : string) : option pyval :=
  mrel_field ki obj a (rel_field ki obj a (attr_field obj a)).

(** [obj'] is what decoding the record of [obj] gives: an entity of the
    same class, with the attributes of [obj] as the encoder converts
    them and without those that it leaves out, with the targets of the
    many to one relations of [obj], and with the children of [obj]
    restored in the same way, in the order of the sort. *)
Inductive restored : entity -> entity -> Prop :=
| restored_intro obj obj' :
    e_class obj' = e_class obj ->
    (forall a, getattr obj' a = default VNone (attr_field obj a)) ->
    (forall a, getrel obj' a =
               if bool_decide (a ∈ InstRel (e_class obj)) then getrel obj a else None) ->
    (forall a, Forall2 restored
                 (if bool_decide (a ∈ InstMRel (e_class obj))
                  then children obj a else [])
                 (getmrel obj' a)) ->
    restored obj obj'.

Section Restorable.
Context (typemap : dict schema)
        (getEntityInfo : string -> result (list field_info))
        (ki : keyindex) (rho : string -> option entity).

(** The keys of the targets of the many to one relations of the entity
    are resolved to these targets. *)
Definition keys_resolve (obj : entity) : Prop :=
  forall a o k,
    a ∈ InstRel (e_class obj) -> getrel obj a = Some o ->
    getUniqueKey o ki = Ok k -> rho k = Some o.

(** The service and the type map know the type of the children of each
    collection of the entity that is not empty. *)
Definition children_typed (obj : entity) : Prop :=
  forall a,
    a ∈ InstMRel (e_class obj) -> getmrel obj a <> [] ->
    exists mt t,
      mreltypes_of typemap getEntityInfo obj = Ok mt
      /\ dict_get mt a = Some t
      /\ forall o, o ∈ getmrel obj a -> dict_get typemap t = Some (e_class o).

Definition restorable (obj : entity) : Prop :=
  schema_wf (e_class obj) /\ keys_resolve obj /\ children_typed obj.
(** The round trip of an entity, in a state that resolves the keys as
    [rho] does *)
Definition round_trip (obj : entity) : Prop :=
  forall objtype st d,
    entity_Forall restorable obj ->
    dict_get typemap objtype = Some (e_class obj) ->
    (forall k, resolve st k = rho k) ->
    encode obj ki = Ok d ->
    exists obj' st',
      dict2entity typemap getEntityInfo (VDict d) objtype st = (Ok obj', st')
      /\ restored obj obj'
      /\ service st' = service st
      /\ forall k, resolve st' k = rho k.
End Restorable.
End Fields.

(** ** An example session

    The classes of ICAT 4.2 that the examples use, taken from
    [entities_py]; a type map, a service and the collaborators that the
    sources leave open, chosen for the examples; and some entities. *)

Definition the_class (name : string) : schema :=
  default (Schema "" [] [] []) (entity_class name).

Definition Facility : schema := Eval vm_compute in the_class "Facility".
Definition ParameterType : schema := Eval vm_compute in the_class "ParameterType".
Definition DatafileFormat : schema := Eval vm_compute in the_class "DatafileFormat".
Definition Dataset : schema := Eval vm_compute in the_class "Dataset".
Definition Datafile : schema := Eval vm_compute in the_class "Datafile".
Definition DatafileParameter : schema :=
  Eval vm_compute in the_class "DatafileParameter".

Definition ex_typemap : dict schema :=
  [ ("facility", Facility); ("parameterType", ParameterType);
    ("datafileFormat", DatafileFormat); ("dataset", Dataset);
    ("datafile", Datafile); ("datafileParameter", DatafileParameter) ].

(** The one to many relations that the service reports for the classes
    of the examples *)
Definition ex_getEntityInfo (beanname : string) : result (list field_info) :=
  if decide (beanname = "Datafile") then
    Ok [ FieldInfo "name" "String" "ATTRIBUTE";
         FieldInfo "dataset" "Dataset" "ONE";
         FieldInfo "parameters" "DatafileParameter" "MANY" ]
  else if decide (beanname = "Dataset") then
    Ok [ FieldInfo "datafiles" "Datafile" "MANY" ]
  else Ok [].

(** [sys.maxint] of a 64 bit platform *)
Definition ex_maxint : Z := 9223372036854775807.

(** [str(1.5)] is ["1.5"] *)
Definition ex_str (v : pyval) : string :=
  match v with
  | VFloat 3 (-1) => "1.5"
  | _ => ""
  end.

(** A key made of the bean name and of the name of the entity *)
Definition ex_getUniqueKey (o : entity) (ki : unit) : result string :=
  match getattr o "name" with
  | VStr s => Ok (BeanName (e_class o) +:+ "_name-" +:+ s)
  | _ => Raise (ClientError "no key")
  end.

(** A sort key: the identity of the entity *)
Definition ex_sortkey (o : entity) : Z :=
  match getattr o "id" with
  | VInt z | VLong z => z
  | _ => 0%Z
  end.

Definition ex_entity2dict : entity -> unit -> result record :=
  entity2dict ex_maxint ex_str unit ex_getUniqueKey Z ex_sortkey Z.ltb.

Definition ex_dict2entity : pyval -> string -> world -> result entity * world :=
  dict2entity ex_typemap ex_getEntityInfo.

Definition ex_add := add ex_maxint ex_str unit ex_getUniqueKey Z ex_sortkey Z.ltb.

Definition hzb : entity :=
  Entity Facility [("id", VLong 1); ("name", VStr "HZB")] [] [].

Definition temperature : entity :=
  Entity ParameterType
         [("id", VLong 3); ("name", VStr "temperature"); ("units", VStr "K");
          ("valueType", VStr "NUMERIC")]
         [("facility", hzb)] [].

Definition e4 : entity :=
  Entity Dataset [("id", VLong 4); ("name", VStr "e4"); ("complete", VBool false)] [] [].

Definition created : datetime := Datetime 2014 1 2 3 4 5 0 None.

Definition modified : datetime :=
  Datetime 2014 1 2 3 4 5 678 (Some (Tzinfo (Some (-90)%Z))).

Definition par_a : entity :=
  Entity DatafileParameter [("id", VLong 11); ("stringValue", VStr "a")] [] [].

Definition par_b : entity :=
  Entity DatafileParameter [("id", VLong 12); ("numericValue", VFloat 3 (-1))] [] [].

(** A datafile with two parameters, the later one first in the
    collection *)
Definition raw_dat : entity :=
  Entity Datafile
         [("id", VLong 7); ("name", VStr "raw.dat"); ("fileSize", VLong 12);
          ("datafileCreateTime", VDatetime created);
          ("datafileModTime", VDatetime modified); ("doi", VNone)]
         [("dataset", e4)]
         [("parameters", [par_b; par_a])].

(** The record of the datafile [raw_dat] *)
Definition raw_dat_record : record :=
  [ ("name", VStr "raw.dat"); ("fileSize", VInt 12);
    ("datafileCreateTime", VStr "2014-01-02T03:04:05Z");
    ("datafileModTime", VStr "2014-01-02T03:04:05.000678-01:30");
    ("dataset", VStr "Dataset_name-e4");
    ("parameters",
     VList [ VDict [("stringValue", VStr "a")];
             VDict [("numericValue", VStr "1.5")] ]) ].

(** The same datafile with the parameters in the other order *)
Definition raw_dat' : entity :=
  Entity Datafile (e_attrs raw_dat) (e_rels raw_dat) [("parameters", [par_a; par_b])].

(** A datafile that has a value for [bogus], which its class does not
    declare *)
Definition odd_dat : entity :=
  Entity Datafile [("name", VStr "odd.dat"); ("bogus", VInt 1)] [] [].

(** A datafile with its identity, a name and a creation time only *)
Definition plain_dat : entity :=
  Entity Datafile
         [("id", VLong 8); ("name", VStr "plain.dat");
          ("datafileCreateTime", VDatetime created)] [] [].

(** A service that knows the data set [e4], and an empty key index *)
Definition ex_world : world := World ∅ {[ "Dataset_name-e4" := e4 ]}.

(** A writer that has staged the datafile [raw_dat] *)
Definition ex_writer : writer :=
  (ex_add "datafile" "Datafile_name-raw.dat" raw_dat tt writer_init).2.

(** A caller of [getobjs] that registers each entity in the key index
    and at the service *)
Definition ex_body (key : string) (obj : entity) (st : world) : world :=
  World (<[key := obj]> (objindex st)) (<[key := obj]> (service st)).

(** ** Sessions of a writer and of a reader *)

(** [self.data[tag][key]], where both exist *)
Definition staged (c : chunk) (tag key : string) : option pyval :=
  recs ← dict_get c tag; dict_get recs key.

(** The records of a chunk, each with its type tag and its key, in the
    order of the chunk *)
Definition chunk_items (c : chunk) : list item :=
  p ← c; (fun kd => Item p.1 kd.1 kd.2) <$> p.2.

(** The type tags of a chunk are pairwise distinct and among
    [entitytypes], and so are the keys of the records of each tag. *)
Definition chunk_wf (c : chunk) : Prop :=
  dict_wf c /\ Forall (fun p => p.1 ∈ entitytypes /\ dict_wf p.2) c.

Definition output_wf (o : output) : Prop :=
  match o with
  | Header _ => True
  | Document c => c <> [] /\ chunk_wf c
  end.

Section WriterCalls.
Context (maxint : Z) (builtin_str : pyval -> string) (keyindex : Type)
        (getUniqueKey : entity -> keyindex -> result string)
        (sortkey_t : Type) (sortkey : entity -> sortkey_t)
        (sortkey_lt : sortkey_t -> sortkey_t -> bool) (version : string).

(** A call of a method of the writer *)
Inductive writer_call :=
| CallHead (date service apiversion : string)
| CallStartdata
| CallAdd (tag key : string) (obj : entity) (ki : keyindex)
| CallFinalize.

Definition call (c : writer_call) (w : writer) : result unit * writer :=
  match c with
  | CallHead date service apiversion => (Ok (), head version date service apiversion w)
  | CallStartdata => (Ok (), startdata w)
  | CallAdd tag key obj ki =>
      add maxint builtin_str keyindex getUniqueKey sortkey_t sortkey sortkey_lt
          tag key obj ki w
  | CallFinalize => (Ok (), finalize w)
  end.

(** The writer after a sequence of calls, whose caller goes on after an
    exception *)
Definition calls (cs : list writer_call) (w : writer) : writer :=
  foldl (fun w c => (call c w).2) w cs.
End WriterCalls.

(** ** What a value stands for *)

(** The integer that an [int] or a [long] holds *)
Definition int_value (v : pyval) : option Z :=
  match v with
  | VInt z | VLong z => Some z
  | _ => None
  end.

(** The characters of a string, byte string or unicode, as code points *)
Definition text (v : pyval) : option (list N) :=
  match v with
  | VStr s => Some (N_of_ascii <$> list_ascii_of_string s)
  | VUnicode u => Some u
  | _ => None
  end.

(** ** HTTP with chunked transfer encoding: [icat/chunkedhttp.py] *)

(** *** Byte strings *)

(** [s[:n]] *)
Fixpoint str_take (n : nat) (s : string) : string :=
  match n, s with
  | S n', String c s' => String c (str_take n' s')
  | _, _ => EmptyString
  end.

(** [s[n:]] *)
Fixpoint str_drop (n : nat) (s : string) : string :=
  match n, s with
  | S n', String c s' => str_drop n' s'
  | _, _ => s
  end.

(** [''.join(l)] *)
Definition str_join (l : list string) : string := foldr String.append EmptyString l.

Definition ascii_lower (c : ascii) : ascii :=
  let n := N_of_ascii c in
  if ((65 <=? n) && (n <=? 90))%N then ascii_of_N (n + 32) else c.

Definition ascii_upper (c : ascii) : ascii :=
  let n := N_of_ascii c in
  if ((97 <=? n) && (n <=? 122))%N then ascii_of_N (n - 32) else c.

(** [s.lower()] *)
Fixpoint lower (s : string) : string :=
  match s with
  | EmptyString => EmptyString
  | String c s' => String (ascii_lower c) (lower s')
  end.

(** [s.upper()] *)
Fixpoint upper (s : string) : string :=
  match s with
  | EmptyString => EmptyString
  | String c s' => String (ascii_upper c) (upper s')
  end.

(** [s.capitalize()] *)
Definition capitalize (s : string) : string :=
  match s with
  | EmptyString => EmptyString
  | String c s' => String (ascii_upper c) (lower s')
  end.

Definition crlf : string := String (ascii_of_nat 13) (String (ascii_of_nat 10) EmptyString).

Definition hex_digit (n : N) : ascii :=
  if (n <? 10)%N then ascii_of_N (48 + n) else ascii_of_N (87 + n).

Lemma N_div_lt_nat (n b : N) : (1 < b)%N -> ~ (n < b)%N -> N.to_nat (n / b) < N.to_nat n.
Proof.
  intros Hb Hn. apply N.nlt_ge in Hn.
  assert (n / b < n)%N by (apply N.div_lt; lia). lia.
Qed.

(** [hex(n)[2:]], for an [int] [n] that is not negative *)
Equations? hex_digits (n : N) : string by wf (N.to_nat n) lt :=
hex_digits n with decide (n < 16)%N := {
  | left _ => String (hex_digit n) EmptyString;
  | right Hge => hex_digits (n / 16) +:+ String (hex_digit (n mod 16)) EmptyString }.
Proof. by apply N_div_lt_nat. Qed.

(** ['%d' % n], for [n] that is not negative *)
Equations? decimal (n : N) : string by wf (N.to_nat n) lt :=
decimal n with decide (n < 10)%N := {
  | left _ => String (digit n) EmptyString;
  | right Hge => decimal (n / 10) +:+ String (digit n) EmptyString }.
Proof. by apply N_div_lt_nat. Qed.

(** *** Exceptions *)

(** The exceptions of this module: those of the interpreter that the
    dump file backend knows too, the [NameError] for a name that the
    module uses and does not import, the error of encoding a unicode
    string, and the [URLError] of [urllib2]. *)
Inductive http_exn :=
| Builtin (e : exn)
| NameError (name : string)
| UnicodeEncodeError
| URLError (reason : string).

Inductive outcome (A : Type) :=
| Returns (a : A)
| Raises (e : http_exn).
Arguments Returns {A} a.
Arguments Raises {A} e.

(** *** The iterators *)

(** [stringiterator(buffer)], as the list of the chunks that it yields *)
Definition stringiterator (buffer : string) : list string :=
  if bool_decide (0 < String.length buffer) then [buffer] else [].

(** A file open for reading, given by the bytes that are still to be
    read.  [f.read(size)] returns the next [size] bytes, or what is
    left of them, or all that is left when [size] is negative, and
    moves on by as much. *)
Definition file : Type := string.

Definition file_read (f : file) (size : Z) : string * file :=
  if (size <? 0)%Z then (f, EmptyString)
  else (str_take (Z.to_nat size) f, str_drop (Z.to_nat size) f).

Lemma str_take_drop_length n s :
  String.length (str_take n s) + String.length (str_drop n s) = String.length s.
Proof.
  revert s. induction n as [|n IH]; intros [|c s]; simpl; try done.
  by rewrite IH.
Qed.

Lemma file_read_length f size :
  String.length (file_read f size).1 + String.length (file_read f size).2
  = String.length f.
Proof.
  unfold file_read. destruct (size <? 0)%Z; simpl.
  - lia.
  - apply str_take_drop_length.
Qed.

(** [fileiterator(f, chunksize)], as the list of the chunks that it
    yields: the loop reads until a read returns nothing. *)
Equations? fileiterator (f : file) (chunksize : Z) : list string
  by wf (String.length f) lt :=
fileiterator f chunksize with Logic.inspect (file_read f chunksize) := {
  | exist _ (EmptyString, _) _ => [];
  | exist _ (String c chunk, f') Heq => String c chunk :: fileiterator f' chunksize }.
Proof.
  pose proof (file_read_length f chunksize) as H. rewrite Heq in H. simpl in H. lia.
Qed.

(** *** The connection: [ChunkedHTTPConnectionMixin] *)

(** The body of a request: a byte string, a unicode string, an object
    with a [read] method, another iterable, whose elements are byte
    strings, or any other object. *)
Inductive body :=
| BodyStr (s : string)
| BodyUnicode (u : list N)
| BodyFile (f : file)
| BodyIter (chunks : list string)
| BodyOther.

(** What the connection is asked to do through the methods of
    [httplib.HTTPConnection]: [putrequest], [putheader], [endheaders]
    and [send]. *)
Inductive http_event :=
| PutRequest (method url : string) (skip_host skip_accept_encoding : bool)
| PutHeader (hdr value : string)
| EndHeaders
| Send (data : string).

(** The iterator [bodyiter] that [send_body] makes of the body *)
Definition bodyiter (b : body) : outcome (list string) :=
  match b with
  | BodyStr s => Returns (stringiterator s)
  | BodyUnicode u =>
      if is_ascii u then Returns (stringiterator (encode_ascii u))
      else Raises UnicodeEncodeError
  | BodyFile f => Returns (fileiterator f 8192)
  | BodyIter chunks => Returns chunks
  | BodyOther => Raises (Builtin TypeError)
  end.

(** What is sent for a chunk under the chunked transfer encoding:
    [hex(len(chunk))[2:] + "\r\n" + chunk + "\r\n"] *)
Definition chunk_frame (chunk : string) : string :=
  hex_digits (N.of_nat (String.length chunk)) +:+ crlf +:+ chunk +:+ crlf.

(** The frame that ends the body: ["0\r\n\r\n"] *)
Definition last_chunk : string := "0" +:+ crlf +:+ crlf.

(** [send_body(body, chunked)], on a connection that has been asked to
    do [conn] so far *)
Definition send_body (body : option body) (chunked : bool) (conn : list http_event)
  : outcome unit * list http_event :=
  match body with
  | None => (Returns (), conn)
  | Some b =>
      match bodyiter b with
      | Raises e => (Raises e, conn)
      | Returns chunks =>
          if chunked then
            (Returns (), conn ++ (Send ∘ chunk_frame <$> chunks) ++ [Send last_chunk])
          else (Returns (), conn ++ (Send <$> chunks))
      end
  end.

(** The headers that a connection has been asked to put with
    [putheader], in the order of the calls *)
Definition put_headers (conn : list http_event) : list (string * string) :=
  omap (fun ev => match ev with
                  | PutHeader hdr value => Some (hdr, value)
                  | _ => None
                  end) conn.

(** [{k.lower(): k for k in headers.keys()}] *)
Definition header_names (headers : dict string) : dict string :=
  foldl (fun m k => dict_set m (lower k) k) [] headers.*1.

(** [_send_request(method, url, body, headers)].  The name
    [HTTPException] is not among the names that the module imports from
    [httplib], so that the [raise] statement that refers to it raises
    [NameError]. *)
Definition _send_request (method url : string) (body : option body)
    (headers : dict string) (conn : list http_event)
  : outcome unit * list http_event :=
  let names := header_names headers in
  let conn :=
    conn ++ [PutRequest method url (dict_has names "host")
                        (dict_has names "accept-encoding")] in
  match
    match dict_get names "transfer-encoding" with
    | Some k =>
        match dict_get headers k with
        | Some v =>
            if decide (v = "chunked") then Returns true
            else Raises (NameError "HTTPException")
        | None => Raises (Builtin (KeyError k))
        end
    | None => Returns false
    end
  with
  | Raises e => (Raises e, conn)
  | Returns chunked =>
      send_body body chunked
                (conn ++ ((fun kv => PutHeader kv.1 kv.2) <$> headers) ++ [EndHeaders])
  end.

(** *** The handler: [ChunkedHTTPHandlerMixin] *)

Definition _METHODS_EXPECTING_BODY : list string := ["PATCH"; "POST"; "PUT"].

(** A [urllib2.Request]: what [get_host()], [get_method()] and
    [has_proxy()] return, its data, and its two dicts of headers. *)
Record request := Request {
  r_host : option string;
  r_data : option body;
  r_method : string;
  r_has_proxy : bool;
  r_headers : dict string;
  r_unredirected_hdrs : dict string
}.

(** [request.has_header(header_name)] *)
Definition has_header (r : request) (header_name : string) : bool :=
  dict_has (r_headers r) header_name || dict_has (r_unredirected_hdrs r) header_name.

(** [request.add_unredirected_header(key, val)] *)
Definition add_unredirected_header (r : request) (key val : string) : request :=
  Request (r_host r) (r_data r) (r_method r) (r_has_proxy r) (r_headers r)
          (dict_set (r_unredirected_hdrs r) (capitalize key) val).

(** [len(request.data)] when the data is a string *)
Definition string_length (b : body) : option nat :=
  match b with
  | BodyStr s => Some (String.length s)
  | BodyUnicode u => Some (length u)
  | _ => None
  end.

(** The loop over [self.parent.addheaders] *)
Definition add_default_headers (addheaders : list (string * string)) (r : request)
  : request :=
  foldl (fun r nv =>
           let name := capitalize nv.1 in
           if has_header r name then r else add_unredirected_header r name nv.2)
        r addheaders.

(** [do_request_(request)], where [addheaders] is
    [self.parent.addheaders]: how the call ends, and the request as
    the call leaves it.  The names [splittype] and [splithost] are not
    among the names that the module imports, so that a request through
    a proxy raises [NameError]. *)
Definition do_request_ (addheaders : list (string * string)) (r : request)
  : outcome unit * request :=
  match r_host r with
  | None | Some EmptyString => (Raises (URLError "no host given"), r)
  | Some host =>
      match
        match r_data r with
        | Some data =>
            if negb (has_header r "Content-type") then
              Raises (URLError "no Content-type header given")
            else if negb (has_header r "Content-length") then
              match string_length data with
              | Some n =>
                  Returns (add_unredirected_header r "Content-length"
                             (decimal (N.of_nat n)))
              | None =>
                  Returns (add_unredirected_header r "Transfer-Encoding" "chunked")
              end
            else Returns r
        | None =>
            if bool_decide (upper (r_method r) ∈ _METHODS_EXPECTING_BODY) then
              Returns (add_unredirected_header r "Content-length" "0")
            else Returns r
        end
      with
      | Raises e => (Raises e, r)
      | Returns r1 =>
          if r_has_proxy r1 then (Raises (NameError "splittype"), r1)
          else
            let r2 :=
              if has_header r1 "Host" then r1
              else add_unredirected_header r1 "Host" host in
            (Returns (), add_default_headers addheaders r2)
      end
  end.

(** *** Reading a chunked body *)

(** The chunked transfer coding as its receiver reads it (RFC 7230,
    section 4.1, without chunk extensions and trailers): a chunk is its
    size in hexadecimal digits, CRLF, as many bytes of data, and CRLF;
    a chunk of size 0 followed by CRLF ends the body. *)
Definition hex_value (c : ascii) : option N :=
  let n := N_of_ascii c in
  if ((48 <=? n) && (n <=? 57))%N then Some (n - 48)%N
  else if ((97 <=? n) && (n <=? 102))%N then Some (n - 87)%N
  else if ((65 <=? n) && (n <=? 70))%N then Some (n - 55)%N
  else None.

(** The number that the leading hexadecimal digits of [s] continue
    [acc] to, and the rest of [s] *)
Fixpoint read_hex_from (acc : N) (s : string) : N * string :=
  match s with
  | EmptyString => (acc, s)
  | String c s' =>
      match hex_value c with
      | Some d => read_hex_from (16 * acc + d) s'
      | None => (acc, s)
      end
  end.

(** A chunk size: one hexadecimal digit at least *)
Definition read_chunk_size (s : string) : option (N * string) :=
  match s with
  | EmptyString => None
  | String c _ =>
      match hex_value c with
      | Some _ => Some (read_hex_from 0 s)
      | None => None
      end
  end.

Definition read_crlf (s : string) : option string :=
  match s with
  | String c1 (String c2 s') =>
      if decide (c1 = ascii_of_nat 13 /\ c2 = ascii_of_nat 10) then Some s' else None
  | _ => None
  end.

(** The body that a stream of bytes carries, and what follows it in the
    stream; [fuel] bounds the number of chunks. *)
Fixpoint dechunk (fuel : nat) (s : string) : option (string * string) :=
  match fuel with
  | O => None
  | S fuel' =>
      ns ← read_chunk_size s;
      s1 ← read_crlf ns.2;
      if decide (ns.1 = 0%N) then
        s2 ← read_crlf s1; Some (EmptyString, s2)
      else if decide (N.to_nat ns.1 <= String.length s1) then
        s2 ← read_crlf (str_drop (N.to_nat ns.1) s1);
        br ← dechunk fuel' s2;
        Some (str_take (N.to_nat ns.1) s1 +:+ br.1, br.2)
      else None
  end.

(** The bytes that a connection has been asked to send *)
Definition sent_data (conn : list http_event) : string :=
  str_join (omap (fun ev => match ev with Send data => Some data | _ => None end) conn).

(** The content of a body that is a string or a file *)
Definition body_content (b : body) : option string :=
  match b with
  | BodyStr s => Some s
  | BodyUnicode u => if is_ascii u then Some (encode_ascii u) else None
  | BodyFile f => Some f
  | _ => None
  end.

(** ** More examples *)

(** A datafile in a data set that has no name, so that the data set has
    no key *)
Definition orphan_dat : entity :=
  Entity Datafile [("name", VStr "orphan.dat")] [("dataset", Entity Dataset [] [] [])] [].

(** A datafile whose modification time is in a zone that is 24 hours
    east of UTC *)
Definition late : datetime :=
  Datetime 2014 1 2 3 4 5 0 (Some (Tzinfo (Some 1440%Z))).

Definition late_dat : entity :=
  Entity Datafile [("name", VStr "late.dat"); ("datafileModTime", VDatetime late)]
         [] [].

(** Two parameters without identity, which the sort key [ex_sortkey]
    does not tell apart, and two datafiles that hold them, in the one
    and in the other order *)
Definition par_x : entity :=
  Entity DatafileParameter [("stringValue", VStr "x")] [] [].

Definition par_y : entity :=
  Entity DatafileParameter [("stringValue", VStr "y")] [] [].

Definition tie1 : entity :=
  Entity Datafile [("name", VStr "tie.dat")] [] [("parameters", [par_x; par_y])].

Definition tie2 : entity :=
  Entity Datafile [("name", VStr "tie.dat")] [] [("parameters", [par_y; par_x])].

(** A data set with two datafiles, and the same data set with the
    datafiles, and with the parameters of the datafile [raw_dat], in
    the other order *)
Definition nested : entity :=
  Entity Dataset [("name", VStr "nested")] [] [("datafiles", [plain_dat; raw_dat])].

Definition nested' : entity :=
  Entity Dataset [("name", VStr "nested")] [] [("datafiles", [raw_dat'; plain_dat])].

(** A writer whose only call of [add] has raised, for the datafile
    [orphan_dat] *)
Definition failed_writer : writer :=
  (ex_add "datafile" "Datafile_name-orphan.dat" orphan_dat tt writer_init).2.

(** A record with an attribute and the key of a data set *)
Definition short_record : record :=
  [("name", VStr "raw.dat"); ("dataset", VStr "Dataset_name-e4")].

(** The headers of a request with a chunked body *)
Definition ex_headers : dict string :=
  [("Content-Type", "text/plain"); ("Transfer-Encoding", "chunked")].

(** A request that posts an iterable to a host *)
Definition ex_request : request :=
  Request (Some "icat.example.org") (Some (BodyIter ["ab"; "cd"])) "POST" false
          [("Content-type", "text/plain")] [].

(** * Properties *)

(** ** Dicts *)

Section DictFacts.
Context {A : Type}.
Implicit Types (d : dict A) (k : string) (v : A).

Lemma dict_get_set d k k' v :
  dict_get (dict_set d k v) k' = if decide (k' = k) then Some v else dict_get d k'.
Proof.
  induction d as [|[k0 v0] d IH]; csimpl.
  - destruct (decide (k' = k)); done.
  - destruct (decide (k = k0)) as [->|Hne]; csimpl.
    + destruct (decide (k' = k0)); done.
    + rewrite IH. destruct (decide (k' = k0)), (decide (k' = k)); congruence.
Qed.

Lemma dict_get_set_eq d k v : dict_get (dict_set d k v) k = Some v.
Proof. by rewrite dict_get_set, decide_True. Qed.

Lemma dict_get_set_ne d k k' v :
  k' ≠ k -> dict_get (dict_set d k v) k' = dict_get d k'.
Proof. intros. by rewrite dict_get_set, decide_False. Qed.

Lemma dict_get_None d k : dict_get d k = None <-> k ∉ d.*1.
Proof.
  induction d as [|[k0 v0] d IH]; csimpl.
  - split; [intros _; apply not_elem_of_nil|done].
  - rewrite not_elem_of_cons. case_decide; subst.
    + split; [done|]. by intros [? _].
    + rewrite IH. split; [done|]. by intros [_ ?].
Qed.

Lemma dict_get_Some_elem d k v : dict_get d k = Some v -> (k, v) ∈ d.
Proof.
  induction d as [|[k0 v0] d IH]; csimpl; [done|].
  case_decide; subst.
  - intros [= ->]. apply elem_of_cons. by left.
  - intros Hg. apply elem_of_cons. right. by apply IH.
Qed.

Lemma dict_get_elem d k v : dict_wf d -> (k, v) ∈ d -> dict_get d k = Some v.
Proof.
  unfold dict_wf. induction d as [|[k0 v0] d IH]; csimpl.
  - intros _ Hin. by apply elem_of_nil in Hin.
  - rewrite NoDup_cons. intros [Hk0 Hnd] Hin.
    apply elem_of_cons in Hin as [[= -> ->]|Hin].
    + by rewrite decide_True.
    + case_decide; subst.
      * exfalso. apply Hk0. apply list_elem_of_fmap. by exists (k0, v).
      * by apply IH.
Qed.

Lemma dict_set_keys d k v :
  (dict_set d k v).*1 = if bool_decide (k ∈ d.*1) then d.*1 else d.*1 ++ [k].
Proof.
  induction d as [|[k0 v0] d IH]; csimpl; [done|].
  destruct (decide (k = k0)) as [->|Hne]; csimpl.
  - rewrite bool_decide_true; [done|]. apply elem_of_cons. by left.
  - rewrite IH.
    rewrite (bool_decide_ext (k ∈ k0 :: d.*1) (k ∈ d.*1)).
    + by case_bool_decide.
    + rewrite elem_of_cons. split; [by intros [?|?]|by right].
Qed.

Lemma dict_set_wf d k v : dict_wf d -> dict_wf (dict_set d k v).
Proof.
  unfold dict_wf. rewrite dict_set_keys. case_bool_decide; [done|].
  intros Hnd. apply NoDup_app. split_and!; [done| |apply NoDup_singleton].
  intros x Hx Hx'. apply list_elem_of_singleton in Hx'. by subst.
Qed.
End DictFacts.

(** ** The fields of an encoded record *)

Lemma foldM_Ok_inv {A S} (f : S -> A -> result S) acc x l r :
  foldM f acc (x :: l) = Ok r -> exists acc', f acc x = Ok acc' /\ foldM f acc' l = Ok r.
Proof. simpl. destruct (f acc x) as [acc'|e]; simpl; [eauto|done]. Qed.

Lemma mapM_Ok_Forall2 {A B} (f : A -> result B) l r :
  mapM f l = Ok r <-> Forall2 (fun x y => f x = Ok y) l r.
Proof.
  revert r. induction l as [|x l IH]; simpl; intros r.
  - split; [intros [= <-]; constructor|]. by intros ->%Forall2_nil_inv_l.
  - split.
    + destruct (f x) as [y|] eqn:Hx; simpl; [|done].
      destruct (mapM f l) as [ys|]; simpl; [|done].
      intros [= <-]. constructor; [done|]. by apply IH.
    + intros (y & ys & Hy & Hys & ->)%Forall2_cons_inv_l.
      rewrite Hy. simpl. apply IH in Hys. rewrite Hys. done.
Qed.

Lemma foldM_Ok_elem {A S} (f : S -> A -> result S) acc l r x :
  foldM f acc l = Ok r -> x ∈ l -> exists s s', f s x = Ok s'.
Proof.
  revert acc. induction l as [|y l IH]; intros acc Hr Hx.
  - by apply elem_of_nil in Hx.
  - apply foldM_Ok_inv in Hr as (acc' & Hy & Hr).
    apply elem_of_cons in Hx as [->|Hx]; [by eauto|]. by eapply IH.
Qed.

Lemma foldM_Raise_inv {A S} (f : S -> A -> result S) acc l e :
  foldM f acc l = Raise e -> exists s x, x ∈ l /\ f s x = Raise e.
Proof.
  revert acc. induction l as [|y l IH]; intros acc; simpl; [done|].
  destruct (f acc y) as [acc'|e'] eqn:Hy; simpl.
  - intros (s & x & Hx & Hs)%IH. exists s, x. split; [by apply elem_of_cons; right|done].
  - intros [= ->]. exists acc, y. split; [by apply elem_of_cons; left|done].
Qed.

Lemma mapM_Raise_inv {A B} (f : A -> result B) l e :
  mapM f l = Raise e -> exists x, x ∈ l /\ f x = Raise e.
Proof.
  induction l as [|y l IH]; simpl; [done|].
  destruct (f y) as [b|e'] eqn:Hy; simpl.
  - destruct (mapM f l) as [bs|e'']; simpl; [done|].
    intros [= ->]. destruct IH as (x & Hx & Hfx); [done|].
    exists x. split; [by apply elem_of_cons; right|done].
  - intros [= ->]. exists y. split; [by apply elem_of_cons; left|done].
Qed.

Lemma foldM_ext_elem {A S} (f g : S -> A -> result S) acc l :
  (forall s a, a ∈ l -> f s a = g s a) -> foldM f acc l = foldM g acc l.
Proof.
  revert acc. induction l as [|x l IH]; intros acc Hfg; simpl; [done|].
  rewrite Hfg by (apply elem_of_cons; by left).
  destruct (g acc x) as [acc'|]; simpl; [|done].
  apply IH. intros s y Hy. apply Hfg, elem_of_cons. by right.
Qed.

Lemma dict_get_del {A} (d : dict A) k k' :
  dict_get (dict_del d k) k' = if decide (k' = k) then None else dict_get d k'.
Proof.
  induction d as [|[k0 v0] d IH]; simpl.
  - by destruct (decide (k' = k)).
  - destruct (decide (k = k0)) as [->|Hne]; simpl.
    + rewrite IH. destruct (decide (k' = k0)); done.
    + rewrite IH. destruct (decide (k' = k0)), (decide (k' = k)); congruence.
Qed.

Section EncoderFacts.
Context (maxint : Z) (builtin_str : pyval -> string) (keyindex : Type)
        (getUniqueKey : entity -> keyindex -> result string)
        (sortkey_t : Type) (sortkey : entity -> sortkey_t)
        (sortkey_lt : sortkey_t -> sortkey_t -> bool).

Local Abbreviation encode :=
  (entity2dict maxint builtin_str keyindex getUniqueKey sortkey_t sortkey sortkey_lt).
Local Abbreviation value := (encode_value maxint builtin_str).
Local Abbreviation children obj attr := (sorted sortkey sortkey_lt (getmrel obj attr)).

Lemma encode_attr_Ok obj d x d' :
  encode_attr maxint builtin_str obj d x = Ok d' ->
  d' = (if decide (x = "id") then d
        else if is_None (getattr obj x) then d
        else match value (getattr obj x) with
             | Ok v => dict_set d x v
             | Raise _ => d
             end)
  /\ (x <> "id" -> is_None (getattr obj x) = false ->
      exists v, value (getattr obj x) = Ok v).
Proof.
  unfold encode_attr. destruct (decide (x = "id")) as [->|Hid].
  - intros [= <-]. by split.
  - destruct (is_None (getattr obj x)).
    + intros [= <-]. by split.
    + destruct (value (getattr obj x)) as [v|e]; simpl; [|done].
      intros [= <-]. split; [done|]. by eauto.
Qed.

Lemma encode_attrs_get obj names d d' a :
  foldM (encode_attr maxint builtin_str obj) d names = Ok d' ->
  dict_get d' a =
    if bool_decide (a ∈ names) && negb (bool_decide (a = "id"))
       && negb (is_None (getattr obj a))
    then
      match value (getattr obj a) with
      | Ok v => Some v
      | Raise _ => None
      end
    else dict_get d a.
Proof.
  revert d. induction names as [|x names IH]; intros d.
  - cbn [foldM]. intros [= <-]. rewrite bool_decide_false; [done|]. apply not_elem_of_nil.
  - intros (d1 & Hx & Hrest)%foldM_Ok_inv. rewrite (IH _ Hrest).
    apply encode_attr_Ok in Hx as [-> Hv].
    destruct (decide (a ∈ names)) as [Hin|Hnin].
    + rewrite (bool_decide_true (a ∈ names)) by done.
      rewrite (bool_decide_true (a ∈ x :: names)) by (apply elem_of_cons; by right).
      simpl. destruct (negb _ && _) eqn:Hc; [done|].
      destruct (decide (x = "id")); [done|].
      destruct (is_None (getattr obj x)) eqn:Hx; [done|].
      destruct (value (getattr obj x)); [|done].
      rewrite dict_get_set. destruct (decide (a = x)) as [->|]; [|done].
      rewrite Hx, bool_decide_false in Hc; done.
    + rewrite (bool_decide_false (a ∈ names)) by done. simpl.
      destruct (decide (a = x)) as [->|Hne].
      * rewrite (bool_decide_true (x ∈ x :: names)) by (apply elem_of_cons; by left). simpl.
        destruct (decide (x = "id")) as [->|Hid].
        -- by rewrite bool_decide_true.
        -- rewrite (bool_decide_false (x = "id")); [|done]. simpl.
           destruct (is_None (getattr obj x)); simpl; [done|].
           destruct (Hv Hid eq_refl) as [v ->].
           by rewrite dict_get_set_eq.
      * rewrite (bool_decide_false (a ∈ x :: names))
          by (rewrite elem_of_cons; by intros [?|?]).
        simpl. destruct (decide (x = "id")); [done|].
        destruct (is_None (getattr obj x)); [done|].
        destruct (value (getattr obj x)); [|done].
        by rewrite dict_get_set_ne.
Qed.

(** Where the loop over the attributes ends, every value that it
    stores has been converted. *)
Lemma encode_attrs_value obj names d d' a :
  foldM (encode_attr maxint builtin_str obj) d names = Ok d' ->
  a ∈ names -> a <> "id" -> is_None (getattr obj a) = false ->
  exists v, value (getattr obj a) = Ok v.
Proof.
  intros Hd Ha Hid Hv.
  destruct (foldM_Ok_elem _ _ _ _ _ Hd Ha) as (s & s' & Hs).
  apply encode_attr_Ok in Hs as [_ Hs]. by apply Hs.
Qed.

Lemma encode_rels_get ki obj names d d' a :
  foldM (encode_rel keyindex getUniqueKey ki obj) d names = Ok d' ->
  dict_get d' a =
    match (if bool_decide (a ∈ names) then getrel obj a else None) with
    | Some o =>
        match getUniqueKey o ki with
        | Ok k => Some (VStr k)
        | Raise _ => None
        end
    | None => dict_get d a
    end.
Proof.
  revert d. induction names as [|x names IH]; intros d.
  - cbn [foldM]. intros [= <-]. rewrite bool_decide_false; [done|]. apply not_elem_of_nil.
  - intros (d1 & Hx & Hrest)%foldM_Ok_inv. rewrite (IH _ Hrest).
    unfold encode_rel in Hx.
    destruct (decide (a ∈ names)) as [Hin|Hnin].
    + rewrite (bool_decide_true (a ∈ names)) by done.
      rewrite (bool_decide_true (a ∈ x :: names)) by (apply elem_of_cons; by right).
      destruct (getrel obj a) as [o|] eqn:Ha; [done|].
      destruct (getrel obj x) as [o|] eqn:Hxo.
      * destruct (getUniqueKey o ki); simpl in Hx; [|done].
        injection Hx as <-. rewrite dict_get_set_ne; [done|]. congruence.
      * by injection Hx as <-.
    + rewrite (bool_decide_false (a ∈ names)) by done.
      destruct (decide (a = x)) as [->|Hne].
      * rewrite (bool_decide_true (x ∈ x :: names)) by (apply elem_of_cons; by left).
        destruct (getrel obj x) as [o|].
        -- destruct (getUniqueKey o ki); simpl in Hx; [|done].
           injection Hx as <-. by rewrite dict_get_set_eq.
        -- by injection Hx as <-.
      * rewrite (bool_decide_false (a ∈ x :: names))
          by (rewrite elem_of_cons; by intros [?|?]).
        destruct (getrel obj x) as [o|].
        -- destruct (getUniqueKey o ki); simpl in Hx; [|done].
           injection Hx as <-. by rewrite dict_get_set_ne.
        -- by injection Hx as <-.
Qed.

Lemma encode_mrels_get obj enc names d d' a :
  foldM (encode_mrel sortkey_t sortkey sortkey_lt obj enc) d names = Ok d' ->
  dict_get d' a =
    if bool_decide (a ∈ names) && bool_decide (0 < length (getmrel obj a))
    then
      match enc (children obj a) with
      | Ok l => Some (VList (VDict <$> l))
      | Raise _ => None
      end
    else dict_get d a.
Proof.
  revert d. induction names as [|x names IH]; intros d.
  - cbn [foldM]. intros [= <-]. rewrite bool_decide_false; [done|]. apply not_elem_of_nil.
  - intros (d1 & Hx & Hrest)%foldM_Ok_inv. rewrite (IH _ Hrest).
    unfold encode_mrel in Hx.
    destruct (decide (a ∈ names)) as [Hin|Hnin].
    + rewrite (bool_decide_true (a ∈ names)) by done.
      rewrite (bool_decide_true (a ∈ x :: names)) by (apply elem_of_cons; by right).
      simpl. destruct (bool_decide (0 < length (getmrel obj a))) eqn:Hlen; [done|].
      destruct (bool_decide (0 < length (getmrel obj x))) eqn:Hxl.
      * destruct (enc (children obj x)); simpl in Hx; [|done].
        injection Hx as <-. rewrite dict_get_set_ne; [done|].
        intros ->. congruence.
      * by injection Hx as <-.
    + rewrite (bool_decide_false (a ∈ names)) by done. simpl.
      destruct (decide (a = x)) as [->|Hne].
      * rewrite (bool_decide_true (x ∈ x :: names)) by (apply elem_of_cons; by left). simpl.
        destruct (bool_decide (0 < length (getmrel obj x))).
        -- destruct (enc (children obj x)); simpl in Hx; [|done].
           injection Hx as <-. by rewrite dict_get_set_eq.
        -- by injection Hx as <-.
      * rewrite (bool_decide_false (a ∈ x :: names))
          by (rewrite elem_of_cons; by intros [?|?]).
        simpl. destruct (bool_decide (0 < length (getmrel obj x))).
        -- destruct (enc (children obj x)); simpl in Hx; [|done].
           injection Hx as <-. by rewrite dict_get_set_ne.
        -- by injection Hx as <-.
Qed.

(** The fields of the record that [entity2dict] returns *)
Lemma entity2dict_get obj ki d a :
  encode obj ki = Ok d ->
  dict_get d a
  = encoded_field maxint builtin_str keyindex getUniqueKey sortkey_t sortkey sortkey_lt
                  ki obj a.
Proof.
  rewrite entity2dict_eq.
  destruct (foldM (encode_attr _ _ _) _ _) as [d0|] eqn:Hattr; simpl; [|done].
  destruct (foldM (encode_rel _ _ _ _) _ _) as [d1|] eqn:Hrel; simpl; [|done].
  intros Hmrel. rewrite (encode_mrels_get _ _ _ _ _ _ Hmrel).
  rewrite (encode_rels_get _ _ _ _ _ _ Hrel), (encode_attrs_get _ _ _ _ _ Hattr).
  reflexivity.
Qed.

(** Where [entity2dict] returns, the value of every attribute that it
    stores has been converted. *)
Lemma entity2dict_value obj ki d a :
  encode obj ki = Ok d ->
  a ∈ InstAttr (e_class obj) -> a <> "id" -> is_None (getattr obj a) = false ->
  exists v, value (getattr obj a) = Ok v.
Proof.
  rewrite entity2dict_eq.
  destruct (foldM (encode_attr _ _ _) _ _) as [d0|] eqn:Hattr; simpl; [|done].
  intros _. by apply (encode_attrs_value _ _ _ _ _ Hattr).
Qed.
End EncoderFacts.

(** ** The classes of [icat/entities.py] are well formed *)

Lemma entity_classes_wf : Forall schema_wf entity_classes.
Proof. apply (bool_decide_unpack _). vm_compute. reflexivity. Qed.

(** ** The sort is a sort *)

Section SortingFacts.
Context {A K : Type} (key : A -> K) (key_lt : K -> K -> bool).
Hypothesis lt_asym : forall a b, key_lt a b = true -> key_lt b a = false.
Hypothesis le_trans :
  forall a b c, key_lt b a = false -> key_lt c b = false -> key_lt c a = false.

Local Abbreviation le := (key_le key key_lt).

Lemma insert_sorted_StronglySorted x l :
  StronglySorted le l -> StronglySorted le (insert_sorted key key_lt x l).
Proof.
  induction 1 as [|y l Hl IH Hy]; simpl.
  - repeat constructor.
  - destruct (key_lt (key y) (key x)) eqn:Hyx.
    + constructor; [done|]. rewrite insert_sorted_perm.
      constructor; [|done]. by apply lt_asym.
    + constructor; [by constructor|]. constructor; [done|].
      eapply Forall_impl; [exact Hy|]. intros z Hz.
      unfold key_le in *. by eapply le_trans.
Qed.

Lemma sorted_StronglySorted l : StronglySorted le (sorted key key_lt l).
Proof.
  induction l as [|x l IH]; simpl; [constructor|].
  by apply insert_sorted_StronglySorted.
Qed.

Lemma tied_not_lt c x y :
  tied key key_lt c x -> tied key key_lt c y -> key_lt (key y) (key x) = false.
Proof.
  intros [_ Hxc] [Hcy _]. unfold key_le in *.
  eapply le_trans; [exact Hxc|exact Hcy].
Qed.

Lemma insert_sorted_filter c x l :
  filter (tied key key_lt c) (insert_sorted key key_lt x l)
  = filter (tied key key_lt c) (x :: l).
Proof.
  induction l as [|y l IH]; cbn [insert_sorted]; [done|].
  destruct (key_lt (key y) (key x)) eqn:Hyx; [|done].
  rewrite filter_cons, IH, !filter_cons.
  destruct (decide (tied key key_lt c y)) as [Hy|Hy],
           (decide (tied key key_lt c x)) as [Hx|Hx]; try done.
  by rewrite (tied_not_lt c x y) in Hyx.
Qed.

(** The sort is stable: the elements that the sort does not tell apart
    keep their order. *)
Lemma sorted_stable c l :
  filter (tied key key_lt c) (sorted key key_lt l) = filter (tied key key_lt c) l.
Proof.
  induction l as [|x l IH]; [done|].
  change (sorted key key_lt (x :: l))
    with (insert_sorted key key_lt x (sorted key key_lt l)).
  by rewrite insert_sorted_filter, !filter_cons, IH.
Qed.

(** With keys that tell the elements apart, the result does not
    depend on the order of the input. *)
Lemma sorted_unique l l' :
  l ≡ₚ l' ->
  (forall x y, x ∈ l -> y ∈ l -> le x y -> le y x -> x = y) ->
  sorted key key_lt l = sorted key key_lt l'.
Proof.
  intros Hp Hdistinct. apply (StronglySorted_unique_strong le).
  - intros x y Hx Hy. rewrite sorted_perm in Hx. rewrite sorted_perm, <-Hp in Hy.
    by apply Hdistinct.
  - apply sorted_StronglySorted.
  - apply sorted_StronglySorted.
  - by rewrite !sorted_perm.
Qed.
End SortingFacts.

(** The sort of the images of a list under a function that keeps the
    keys *)
Lemma sorted_fmap {A B K} (f : A -> B) (keyA : A -> K) (keyB : B -> K)
    (key_lt : K -> K -> bool) l :
  (forall x, keyB (f x) = keyA x) ->
  f <$> sorted keyA key_lt l = sorted keyB key_lt (f <$> l).
Proof.
  intros Hk. induction l as [|x l IH]; [done|].
  change (sorted keyA key_lt (x :: l))
    with (insert_sorted keyA key_lt x (sorted keyA key_lt l)).
  rewrite fmap_cons.
  change (sorted keyB key_lt (f x :: (f <$> l)))
    with (insert_sorted keyB key_lt (f x) (sorted keyB key_lt (f <$> l))).
  rewrite <-IH. generalize (sorted keyA key_lt l). clear IH. intros k.
  induction k as [|y k IHk]; [done|]. cbn [insert_sorted].
  rewrite fmap_cons. cbn [insert_sorted]. rewrite !Hk.
  destruct (key_lt (keyA y) (keyA x)); [|done].
  by rewrite fmap_cons, IHk.
Qed.

Lemma mapM_fmap {A B C} (g : B -> result C) (f : A -> B) l :
  mapM g (f <$> l) = mapM (fun x => g (f x)) l.
Proof. induction l as [|x l IH]; [done|]. rewrite fmap_cons. simpl. by rewrite IH. Qed.

Lemma Forall2_impl_elem {A B} (P Q : A -> B -> Prop) l k :
  Forall2 P l k -> (forall x y, x ∈ l -> P x y -> Q x y) -> Forall2 Q l k.
Proof.
  induction 1 as [|x y l k Hxy Hlk IH]; intros HPQ; constructor.
  - apply HPQ; [by apply elem_of_cons; left|done].
  - apply IH. intros x' y' Hx'. apply HPQ. by apply elem_of_cons; right.
Qed.

(** Sorting and converting does not depend on the order of the input,
    nor on the elements beyond their key and what they are converted
    to, when the keys tell the elements apart. *)
Lemma mapM_sorted_perm {A B K} (key : A -> K) (key_lt : K -> K -> bool)
    (enc : A -> result B) l l' cs :
  (forall a b, key_lt a b = true -> key_lt b a = false) ->
  (forall a b c, key_lt b a = false -> key_lt c b = false -> key_lt c a = false) ->
  l' ≡ₚ cs ->
  Forall2 (fun x x' => key x' = key x /\ enc x' = enc x) l cs ->
  (forall x y, x ∈ l -> y ∈ l -> tied key key_lt x y -> x = y) ->
  mapM enc (sorted key key_lt l') = mapM enc (sorted key key_lt l).
Proof.
  intros Hasym Htrans Hperm Hcs Hdist.
  set (f := fun o => (key o, enc o)).
  assert (forall l0, mapM enc (sorted key key_lt l0)
                     = mapM snd (sorted fst key_lt (f <$> l0))) as Hf.
  { intros l0. by rewrite <-(sorted_fmap f key fst), mapM_fmap. }
  rewrite !Hf. f_equal. symmetry. apply sorted_unique; [done|done|..].
  - rewrite Hperm. clear Hperm Hdist Hf.
    induction Hcs as [|x x' l cs [Hk He] _ IH]; [done|].
    rewrite !fmap_cons, IH. unfold f at 1 3. by rewrite Hk, He.
  - intros p q (x & -> & Hx)%list_elem_of_fmap (y & -> & Hy)%list_elem_of_fmap Hpq Hqp.
    by rewrite (Hdist x y).
Qed.

(** ** Induction on entities *)

Lemma entity_children_ind (P : entity -> Prop) :
  (forall obj, (forall a o, o ∈ getmrel obj a -> P o) -> P obj) ->
  forall obj, P obj.
Proof.
  intros step obj. remember (entity_size obj) as n eqn:Hn.
  revert obj Hn. induction n as [n IH] using lt_wf_ind. intros obj ->.
  apply step. intros a o Ho. apply (IH (entity_size o)); [|done].
  by eapply getmrel_size.
Qed.

Lemma same_graph_refl obj : same_graph obj obj.
Proof.
  induction obj as [obj IH] using entity_children_ind.
  constructor; [done..|]. intros b. exists (getmrel obj b). split; [done|].
  apply Forall_Forall2_diag, Forall_forall. intros o Ho. by eapply IH.
Qed.

(** ** What the encoder omits, and how it renders *)

Section EncoderTheorems.
Context (maxint : Z) (builtin_str : pyval -> string) (keyindex : Type)
        (getUniqueKey : entity -> keyindex -> result string)
        (sortkey_t : Type) (sortkey : entity -> sortkey_t)
        (sortkey_lt : sortkey_t -> sortkey_t -> bool).

Local Abbreviation encode :=
  (entity2dict maxint builtin_str keyindex getUniqueKey sortkey_t sortkey sortkey_lt).
Local Abbreviation field :=
  (encoded_field maxint builtin_str keyindex getUniqueKey sortkey_t sortkey sortkey_lt).

Lemma schema_wf_attr_rel c a :
  schema_wf c -> a ∈ InstAttr c -> (a ∉ InstRel c) /\ (a ∉ InstMRel c).
Proof.
  intros [Hnd _] Ha. apply NoDup_app in Hnd as (_ & Hdis & _).
  specialize (Hdis a Ha). rewrite elem_of_app in Hdis. naive_solver.
Qed.

Lemma schema_wf_rel_mrel c a :
  schema_wf c -> a ∈ InstRel c -> (a ∉ InstAttr c) /\ (a ∉ InstMRel c).
Proof.
  intros [Hnd _] Ha. apply NoDup_app in Hnd as (_ & Hdis & Hnd).
  apply NoDup_app in Hnd as (_ & Hdis' & _). split.
  - intros Ha'. apply (Hdis a Ha'). rewrite elem_of_app. by left.
  - by apply Hdis'.
Qed.

Lemma schema_wf_mrel c a :
  schema_wf c -> a ∈ InstMRel c -> (a ∉ InstAttr c) /\ (a ∉ InstRel c).
Proof.
  intros [Hnd _] Ha. apply NoDup_app in Hnd as (_ & Hdis & Hnd).
  apply NoDup_app in Hnd as (_ & Hdis' & _). split.
  - intros Ha'. apply (Hdis a Ha'). rewrite elem_of_app. by right.
  - intros Ha'. by apply (Hdis' a Ha').
Qed.

Lemma schema_wf_id c : schema_wf c -> ("id" ∉ InstRel c) /\ ("id" ∉ InstMRel c).
Proof. intros [_ Hid]. rewrite elem_of_app in Hid. naive_solver. Qed.

(** The field of an attribute, of a many to one relation and of a one
    to many relation of a well formed class *)
Lemma field_attr ki obj a :
  schema_wf (e_class obj) -> a ∈ InstAttr (e_class obj) ->
  field ki obj a =
    if negb (bool_decide (a = "id")) && negb (is_None (getattr obj a))
    then
      match encode_value maxint builtin_str (getattr obj a) with
      | Ok v => Some v
      | Raise _ => None
      end
    else None.
Proof.
  intros Hwf Ha. destruct (schema_wf_attr_rel _ _ Hwf Ha) as [Hr Hm].
  unfold encoded_field, mrel_field, rel_field, attr_field.
  by rewrite (bool_decide_false _ Hm), (bool_decide_false _ Hr), (bool_decide_true _ Ha).
Qed.

Lemma field_rel ki obj a :
  schema_wf (e_class obj) -> a ∈ InstRel (e_class obj) ->
  field ki obj a =
    match getrel obj a with
    | Some o =>
        match getUniqueKey o ki with
        | Ok k => Some (VStr k)
        | Raise _ => None
        end
    | None => None
    end.
Proof.
  intros Hwf Ha. destruct (schema_wf_rel_mrel _ _ Hwf Ha) as [Hr Hm].
  unfold encoded_field, mrel_field, rel_field, attr_field.
  by rewrite (bool_decide_false _ Hm), (bool_decide_false _ Hr), (bool_decide_true _ Ha).
Qed.

Lemma field_mrel ki obj a :
  schema_wf (e_class obj) -> a ∈ InstMRel (e_class obj) ->
  field ki obj a =
    if bool_decide (0 < length (getmrel obj a)) then
      match mapM (fun o => encode o ki)
                 (sorted sortkey sortkey_lt (getmrel obj a)) with
      | Ok l => Some (VList (VDict <$> l))
      | Raise _ => None
      end
    else None.
Proof.
  intros Hwf Ha. destruct (schema_wf_mrel _ _ Hwf Ha) as [Hr Hm].
  unfold encoded_field, mrel_field, rel_field, attr_field.
  rewrite (bool_decide_false _ Hm), (bool_decide_false _ Hr), (bool_decide_true _ Ha).
  simpl. by destruct (bool_decide (0 < _)).
Qed.

Lemma field_undeclared ki obj a :
  a ∉ InstAttr (e_class obj) -> a ∉ InstRel (e_class obj) ->
  a ∉ InstMRel (e_class obj) -> field ki obj a = None.
Proof.
  intros Ha Hr Hm. unfold encoded_field, mrel_field, rel_field, attr_field.
  by rewrite (bool_decide_false _ Hm), (bool_decide_false _ Hr), (bool_decide_false _ Ha).
Qed.

(** C5.  The record of an entity has no field [id], no field for an
    attribute or a many to one relation whose value is [None], and no
    field for a one to many relation whose collection is empty. *)
Theorem entity2dict_omits obj ki d :
  schema_wf (e_class obj) ->
  encode obj ki = Ok d ->
  dict_get d "id" = None
  /\ (forall a, a ∈ InstAttr (e_class obj) -> getattr obj a = VNone ->
                dict_get d a = None)
  /\ (forall a, a ∈ InstRel (e_class obj) -> getrel obj a = None ->
                dict_get d a = None)
  /\ (forall a, a ∈ InstMRel (e_class obj) -> getmrel obj a = [] ->
                dict_get d a = None).
Proof.
  intros Hwf Henc. split_and!.
  - rewrite (entity2dict_get _ _ _ _ _ _ _ _ _ _ _ Henc).
    destruct (schema_wf_id _ Hwf) as [Hr Hm].
    destruct (decide ("id" ∈ InstAttr (e_class obj))) as [Ha|Ha].
    + by rewrite field_attr.
    + by apply field_undeclared.
  - intros a Ha Hv. rewrite (entity2dict_get _ _ _ _ _ _ _ _ _ _ _ Henc).
    rewrite field_attr, Hv by done. simpl. by rewrite andb_false_r.
  - intros a Ha Hv. rewrite (entity2dict_get _ _ _ _ _ _ _ _ _ _ _ Henc).
    by rewrite field_rel, Hv.
  - intros a Ha Hv. rewrite (entity2dict_get _ _ _ _ _ _ _ _ _ _ _ Henc).
    by rewrite field_mrel, Hv.
Qed.

Lemma append_empty_r (s : string) : s +:+ "" = s.
Proof.
  induction s as [|c s IH]; [done|].
  change (String c (s +:+ "") = String c s). by rewrite IH.
Qed.

Lemma format_offset_range off s :
  format_offset off = Ok s -> (-1440 < off < 1440)%Z.
Proof.
  unfold format_offset. destruct (_ && _)%Z eqn:Hr; [|done]. intros _.
  apply andb_prop in Hr as [?%Z.ltb_lt ?%Z.ltb_lt]. lia.
Qed.

Lemma format_offset_Ok off :
  (-1440 < off < 1440)%Z -> exists s, format_offset off = Ok s.
Proof.
  intros [H1%Z.ltb_lt H2%Z.ltb_lt]. unfold format_offset. rewrite H1, H2. by eauto.
Qed.

Lemma format_offset_Raise off :
  ~ (-1440 < off < 1440)%Z ->
  format_offset off = Raise (ValueError (UtcOffsetRange off)).
Proof.
  intros Hoff. unfold format_offset. destruct (_ && _)%Z eqn:Hr; [|done].
  apply andb_prop in Hr as [?%Z.ltb_lt ?%Z.ltb_lt]. lia.
Qed.

Lemma read_format_offset off s :
  format_offset off = Ok s -> read_offset s = Some off.
Proof.
  intros Hs. pose proof (format_offset_range _ _ Hs) as Hoff.
  assert (Forall (fun z => match format_offset z with
                           | Ok s => read_offset s
                           | Raise _ => None
                           end = Some z)
                 (seqZ (-1439) 2879)) as Hall.
  { apply (bool_decide_unpack _). vm_compute. reflexivity. }
  rewrite Forall_forall in Hall. specialize (Hall off). rewrite Hs in Hall.
  apply Hall, elem_of_seqZ. lia.
Qed.

(** The conversion of a value raises only for a timestamp whose zone
    gives an offset of 24 hours or more. *)
Lemma encode_value_Raise v e :
  encode_value maxint builtin_str v = Raise e ->
  exists t off,
    v = VDatetime t /\ utcoffset t = Some off /\ ~ (-1440 < off < 1440)%Z
    /\ e = ValueError (UtcOffsetRange off).
Proof.
  destruct v as [|b|z|z|m x|t|s|u|l|r]; try done. simpl.
  unfold render_datetime, has_timezone, isoformat, utcoffset.
  intros He. exists t.
  destruct (dt_tzinfo t) as [[[off|]]|]; simpl in He; [|done..].
  exists off. split; [done|]. split; [done|].
  destruct (format_offset off) as [s|e'] eqn:Hoff; simpl in He; [done|].
  destruct (decide (-1440 < off < 1440)%Z) as [Hr|Hr].
  - destruct (format_offset_Ok _ Hr) as [s Hs]. congruence.
  - rewrite (format_offset_Raise _ Hr) in Hoff. split; congruence.
Qed.

Lemma encode_attrs_Raise obj names d e :
  foldM (encode_attr maxint builtin_str obj) d names = Raise e ->
  exists off, ~ (-1440 < off < 1440)%Z /\ e = ValueError (UtcOffsetRange off).
Proof.
  intros (s & x & _ & Hx)%foldM_Raise_inv. unfold encode_attr in Hx.
  destruct (decide (x = "id")); [done|].
  destruct (is_None (getattr obj x)); [done|].
  destruct (encode_value _ _ (getattr obj x)) as [v|e'] eqn:Hv; simpl in Hx; [done|].
  injection Hx as ->.
  apply encode_value_Raise in Hv as (t & off & _ & _ & Hoff & ->). by eauto.
Qed.

(** Where the conversion of an attribute raises, [entity2dict] raises
    in its first loop, before it computes any key. *)
Lemma entity2dict_value_Raise obj ki a e :
  a ∈ InstAttr (e_class obj) -> a <> "id" -> is_None (getattr obj a) = false ->
  encode_value maxint builtin_str (getattr obj a) = Raise e ->
  exists off, ~ (-1440 < off < 1440)%Z
              /\ encode obj ki = Raise (ValueError (UtcOffsetRange off)).
Proof.
  intros Ha Hid Hnone Hv. rewrite entity2dict_eq.
  destruct (foldM (encode_attr _ _ _) _ _) as [d0|e0] eqn:Hattr; simpl.
  - destruct (encode_attrs_value _ _ _ _ _ _ _ Hattr Ha Hid Hnone) as [v Hv'].
    congruence.
  - apply encode_attrs_Raise in Hattr as (off & Hoff & ->). by eauto.
Qed.

(** C6, as the code has it.  A timestamp attribute whose zone gives
    an offset strictly between -24 and 24 hours is rendered in ISO 8601
    with the suffix of that offset, from which the offset can be read
    back; a timestamp without a zone, or whose zone does not know its
    offset, is rendered in the naive format followed by [Z].  With an
    offset of 24 hours or more the encoder stores nothing: it raises
    the [ValueError] of [isoformat]. *)
Theorem entity2dict_timestamp obj ki a t :
  schema_wf (e_class obj) ->
  a ∈ InstAttr (e_class obj) -> a <> "id" ->
  getattr obj a = VDatetime t ->
  match utcoffset t with
  | Some off =>
      if bool_decide (-1440 < off < 1440)%Z then
        exists suffix,
          format_offset off = Ok suffix /\ read_offset suffix = Some off
          /\ render_datetime t = Ok (isoformat_naive t +:+ suffix)
          /\ forall d, encode obj ki = Ok d ->
                       dict_get d a = Some (VStr (isoformat_naive t +:+ suffix))
      else
        exists off', ~ (-1440 < off' < 1440)%Z
                     /\ encode obj ki = Raise (ValueError (UtcOffsetRange off'))
  | None =>
      render_datetime t = Ok (isoformat_naive t +:+ "Z")
      /\ forall d, encode obj ki = Ok d ->
                   dict_get d a = Some (VStr (isoformat_naive t +:+ "Z"))
  end.
Proof.
  intros Hwf Ha Hid Hv.
  assert (forall s d, render_datetime t = Ok s -> encode obj ki = Ok d ->
                      dict_get d a = Some (VStr s)) as Hget.
  { intros s d Hs Henc.
    rewrite (entity2dict_get _ _ _ _ _ _ _ _ _ _ _ Henc).
    rewrite field_attr, Hv, (bool_decide_false _ Hid) by done. simpl.
    by rewrite Hs. }
  unfold render_datetime, has_timezone, isoformat, utcoffset in *.
  destruct (dt_tzinfo t) as [[[off|]]|] eqn:Htz; simpl in *.
  - case_bool_decide as Hr.
    + destruct (format_offset_Ok _ Hr) as [suffix Hs]. exists suffix.
      rewrite Hs. simpl. rewrite Hs in Hget. split; [done|].
      split; [by apply read_format_offset|]. split; [done|].
      intros d. by apply Hget.
    + apply (entity2dict_value_Raise obj ki a (ValueError (UtcOffsetRange off)));
        [done|done|by rewrite Hv|].
      rewrite Hv. simpl. unfold render_datetime, has_timezone, isoformat, utcoffset.
      rewrite Htz. simpl. by rewrite (format_offset_Raise _ Hr).
  - split; [done|]. intros d. by apply Hget.
  - split; [done|]. intros d. by apply Hget.
Qed.

Lemma encode_value_shape v v' :
  is_None v = false -> encode_value maxint builtin_str v = Ok v' ->
  record_value v' = true.
Proof.
  intros Hnone Hv.
  destruct v as [|b|z|z|m e|t|s|u|l|r]; simpl in Hv; try done;
    try (destruct (render_datetime t); simpl in Hv; [|done]);
    injection Hv as <-; simpl; try done.
  - by destruct (_ && _).
  - by destruct (is_ascii u).
Qed.

Lemma dict_set_shape (d : record) k v :
  record_shape d = true -> record_value v = true ->
  record_shape (dict_set d k v) = true.
Proof.
  unfold record_shape. induction d as [|[k0 v0] d IH]; simpl.
  - intros _ ->. done.
  - intros [Hv0 Hd]%andb_true_iff Hv. destruct (decide (k = k0)); simpl.
    + by rewrite Hv, Hd.
    + by rewrite Hv0, IH.
Qed.

Lemma record_value_list (l : list record) :
  record_value (VList (VDict <$> l)) = forallb record_shape l.
Proof.
  simpl. induction l as [|r l IH]; simpl; [done|]. f_equal. apply IH.
Qed.

(** C10.  Every value in the record of an entity is a boolean, an
    integer, a string, or a list of records of the same shape: no
    field holds [None] and none holds a timestamp object. *)
Theorem entity2dict_shape obj ki d :
  encode obj ki = Ok d -> record_shape d = true.
Proof.
  revert d. induction obj as [obj IH] using entity_children_ind. intros d.
  rewrite entity2dict_eq.
  assert (forall names d0 d1, record_shape d0 = true ->
            foldM (encode_attr maxint builtin_str obj) d0 names = Ok d1 ->
            record_shape d1 = true) as Hattrs.
  { induction names as [|x names IHn]; intros d0 d1 Hd0.
    - simpl. by intros [= <-].
    - intros (d' & Hx & Hrest)%foldM_Ok_inv. apply (IHn d' d1); [|done].
      unfold encode_attr in Hx. destruct (decide (x = "id")); [by injection Hx as <-|].
      destruct (is_None (getattr obj x)) eqn:Hnone; [by injection Hx as <-|].
      destruct (encode_value _ _ (getattr obj x)) as [v|] eqn:Hv; simpl in Hx; [|done].
      injection Hx as <-. apply dict_set_shape; [done|].
      by apply (encode_value_shape _ _ Hnone Hv). }
  assert (forall names d0 d1, record_shape d0 = true ->
            foldM (encode_rel keyindex getUniqueKey ki obj) d0 names = Ok d1 ->
            record_shape d1 = true) as Hrels.
  { induction names as [|x names IHn]; intros d0 d1 Hd0.
    - simpl. by intros [= <-].
    - intros (d' & Hx & Hrest)%foldM_Ok_inv. apply (IHn d' d1); [|done].
      unfold encode_rel in Hx. destruct (getrel obj x) as [o|].
      + destruct (getUniqueKey o ki); simpl in Hx; [|done].
        injection Hx as <-. by apply dict_set_shape.
      + by injection Hx as <-. }
  assert (forall names d0 d1, record_shape d0 = true ->
            foldM (encode_mrel sortkey_t sortkey sortkey_lt obj
                     (mapM (fun o => encode o ki))) d0 names = Ok d1 ->
            record_shape d1 = true) as Hmrels.
  { induction names as [|x names IHn]; intros d0 d1 Hd0.
    - simpl. by intros [= <-].
    - intros (d' & Hx & Hrest)%foldM_Ok_inv. apply (IHn d' d1); [|done].
      unfold encode_mrel in Hx.
      destruct (bool_decide (0 < length (getmrel obj x))); [|by injection Hx as <-].
      destruct (mapM _ _) as [l|] eqn:Hl; simpl in Hx; [|done].
      injection Hx as <-. apply dict_set_shape; [done|].
      rewrite record_value_list. apply forallb_forall. intros r Hr.
      apply mapM_Ok_Forall2 in Hl.
      apply list_elem_of_In, list_elem_of_lookup in Hr as [i Hi].
      destruct (Forall2_lookup_r _ _ _ _ _ Hl Hi) as (o & Ho & Henc).
      apply (IH x o); [|done].
      apply list_elem_of_lookup_2 in Ho. by rewrite sorted_perm in Ho. }
  destruct (foldM (encode_attr _ _ _) _ _) as [d0|] eqn:Hattr; simpl; [|done].
  destruct (foldM (encode_rel _ _ _ _) _ _) as [d1|] eqn:Hrel; simpl; [|done].
  intros Hm. eapply Hmrels; [|exact Hm]. eapply Hrels; [|exact Hrel].
  by eapply Hattrs; [|exact Hattr].
Qed.

(** The result depends on the entity through its class and through
    the values of the names that the class declares only. *)
Lemma entity2dict_cong obj obj' ki :
  e_class obj' = e_class obj ->
  (forall b, b ∈ InstAttr (e_class obj) -> getattr obj' b = getattr obj b) ->
  (forall b, b ∈ InstRel (e_class obj) -> getrel obj' b = getrel obj b) ->
  (forall b, b ∈ InstMRel (e_class obj) ->
     sorted sortkey sortkey_lt (getmrel obj' b)
     = sorted sortkey sortkey_lt (getmrel obj b)) ->
  encode obj' ki = encode obj ki.
Proof.
  intros Hc Ha Hr Hm. rewrite !entity2dict_eq. rewrite Hc.
  rewrite (foldM_ext_elem (encode_attr maxint builtin_str obj')
                          (encode_attr maxint builtin_str obj)).
  2: { intros s a Hin. unfold encode_attr. by rewrite Ha. }
  destruct (foldM (encode_attr _ _ _) _ _) as [d0|]; simpl; [|done].
  rewrite (foldM_ext_elem (encode_rel keyindex getUniqueKey ki obj')
                          (encode_rel keyindex getUniqueKey ki obj)).
  2: { intros s a Hin. unfold encode_rel. by rewrite Hr. }
  destruct (foldM (encode_rel _ _ _ _) _ _) as [d1|]; simpl; [|done].
  apply foldM_ext_elem. intros s a Hin. unfold encode_mrel.
  rewrite (Hm a Hin).
  replace (length (getmrel obj' a)) with (length (getmrel obj a)); [done|].
  rewrite <-(Permutation_length (sorted_perm sortkey sortkey_lt (getmrel obj a))).
  rewrite <-(Permutation_length (sorted_perm sortkey sortkey_lt (getmrel obj' a))).
  by rewrite Hm.
Qed.

Lemma entity2dict_children_Ok obj ki d a :
  encode obj ki = Ok d ->
  a ∈ InstMRel (e_class obj) -> getmrel obj a <> [] ->
  exists recs,
    mapM (fun o => encode o ki) (sorted sortkey sortkey_lt (getmrel obj a)) = Ok recs.
Proof.
  rewrite entity2dict_eq. intros Henc Ha Hne.
  destruct (foldM (encode_attr _ _ _) _ _) as [d0|]; simpl in Henc; [|done].
  destruct (foldM (encode_rel _ _ _ _) _ _) as [d1|]; simpl in Henc; [|done].
  destruct (foldM_Ok_elem _ _ _ _ _ Henc Ha) as (s & s' & Hs).
  unfold encode_mrel in Hs. rewrite bool_decide_true in Hs.
  - destruct (mapM _ _) as [recs|]; [by eauto|done].
  - destruct (getmrel obj a); simpl; [done|lia].
Qed.

(** The record of an entity is that of any entity that is the same
    entity graph, when the sort keys tell the children of every
    collection apart. *)
Lemma entity2dict_same_graph ki :
  (forall x y, sortkey_lt x y = true -> sortkey_lt y x = false) ->
  (forall x y z, sortkey_lt y x = false -> sortkey_lt z y = false ->
                 sortkey_lt z x = false) ->
  (forall x y, e_class x = e_class y -> e_attrs x = e_attrs y ->
               e_rels x = e_rels y -> sortkey x = sortkey y) ->
  forall obj obj',
    same_graph obj obj' ->
    entity_Forall (fun o => forall b x y,
                     x ∈ getmrel o b -> y ∈ getmrel o b ->
                     tied sortkey sortkey_lt x y -> x = y) obj ->
    encode obj' ki = encode obj ki.
Proof.
  intros Hasym Htrans Hkey obj.
  induction obj as [obj IH] using entity_children_ind.
  intros obj' Hsame [Hd Hsub].
  inversion Hsame as [? ? Hc Ha Hr Hm]; subst.
  rewrite !entity2dict_eq, Hc.
  rewrite (foldM_ext_elem (encode_attr maxint builtin_str obj')
                          (encode_attr maxint builtin_str obj)).
  2: { intros s a _. unfold encode_attr, getattr. by rewrite Ha. }
  destruct (foldM (encode_attr _ _ _) _ _) as [d0|]; simpl; [|done].
  rewrite (foldM_ext_elem (encode_rel keyindex getUniqueKey ki obj')
                          (encode_rel keyindex getUniqueKey ki obj)).
  2: { intros s a _. unfold encode_rel, getrel. by rewrite Hr. }
  destruct (foldM (encode_rel _ _ _ _) _ _) as [d1|]; simpl; [|done].
  apply foldM_ext_elem. intros s a Hin. unfold encode_mrel.
  destruct (Hm a) as (cs & Hperm & Hcs).
  replace (length (getmrel obj' a)) with (length (getmrel obj a)).
  2: { rewrite (Permutation_length Hperm). by eapply Forall2_length. }
  destruct (bool_decide _); [|done].
  rewrite (mapM_sorted_perm sortkey sortkey_lt (fun o => encode o ki)
             (getmrel obj a) (getmrel obj' a) cs); [done..| |by apply Hd].
  eapply Forall2_impl_elem; [exact Hcs|]. intros x x' Hx Hxx'. split.
  - destruct Hxx' as [x x' Hxc Hxa Hxr _]. by apply Hkey.
  - apply (IH a x Hx x' Hxx'). by eapply Hsub.
Qed.

(** C7, as the code has it.  The children of a one to many relation
    are emitted as the list of their records in the order of a stable
    sort on their sort key: children that the keys do not tell apart
    keep the order of the collection.  The record of an entity is
    therefore the same for every entity that is the same entity graph,
    whatever the order in which the collections hold the children, when
    the sort keys tell the children of every collection of the graph
    apart; the sort key of an entity is taken to depend on its class,
    its attributes and its many to one relations only. *)
Theorem entity2dict_children_sorted obj ki d a :
  (forall x y, sortkey_lt x y = true -> sortkey_lt y x = false) ->
  (forall x y z, sortkey_lt y x = false -> sortkey_lt z y = false ->
                 sortkey_lt z x = false) ->
  encode obj ki = Ok d ->
  a ∈ InstMRel (e_class obj) -> getmrel obj a <> [] ->
  (exists cs recs,
      dict_get d a = Some (VList (VDict <$> recs))
      /\ cs ≡ₚ getmrel obj a
      /\ StronglySorted (key_le sortkey sortkey_lt) cs
      /\ (forall c, filter (tied sortkey sortkey_lt c) cs
                    = filter (tied sortkey sortkey_lt c) (getmrel obj a))
      /\ Forall2 (fun o r => encode o ki = Ok r) cs recs)
  /\ (forall obj',
        same_graph obj obj' ->
        (forall x y, e_class x = e_class y -> e_attrs x = e_attrs y ->
                     e_rels x = e_rels y -> sortkey x = sortkey y) ->
        entity_Forall (fun o => forall b x y,
                         x ∈ getmrel o b -> y ∈ getmrel o b ->
                         tied sortkey sortkey_lt x y -> x = y) obj ->
        encode obj' ki = Ok d).
Proof.
  intros Hasym Htrans Henc Ha Hne. split.
  - destruct (entity2dict_children_Ok _ _ _ _ Henc Ha Hne) as [recs Hrecs].
    exists (sorted sortkey sortkey_lt (getmrel obj a)), recs. split_and!.
    + rewrite (entity2dict_get _ _ _ _ _ _ _ _ _ _ _ Henc).
      unfold encoded_field, mrel_field.
      rewrite (bool_decide_true _ Ha), bool_decide_true, Hrecs; [done|].
      destruct (getmrel obj a); simpl; [done|lia].
    + apply sorted_perm.
    + by apply sorted_StronglySorted.
    + intros c. by apply sorted_stable.
    + by apply mapM_Ok_Forall2.
  - intros obj' Hsame Hkey Hdistinct. rewrite <-Henc.
    by apply entity2dict_same_graph.
Qed.

Lemma without_field_get obj a b :
  b <> a ->
  getattr (without_field obj a) b = getattr obj b
  /\ getrel (without_field obj a) b = getrel obj b
  /\ getmrel (without_field obj a) b = getmrel obj b.
Proof.
  intros Hne. unfold getattr, getrel, getmrel, without_field; simpl.
  by rewrite !dict_get_del, !decide_False.
Qed.

(** The exceptions of the encoder are those of [getUniqueKey] and the
    [ValueError] of [isoformat]. *)
Lemma entity2dict_Raise obj ki e :
  encode obj ki = Raise e ->
  (exists o, getUniqueKey o ki = Raise e)
  \/ (exists off, ~ (-1440 < off < 1440)%Z /\ e = ValueError (UtcOffsetRange off)).
Proof.
  induction obj as [obj IH] using entity_children_ind.
  rewrite entity2dict_eq.
  destruct (foldM (encode_attr _ _ _) _ _) as [d0|e0] eqn:Hattr; simpl.
  2: { intros [= ->]. right. by apply encode_attrs_Raise in Hattr. }
  destruct (foldM (encode_rel _ _ _ _) _ _) as [d1|e1] eqn:Hrel; simpl.
  - intros (s & a & Ha & Hs)%foldM_Raise_inv. unfold encode_mrel in Hs.
    destruct (bool_decide (0 < length (getmrel obj a))); [|done].
    destruct (mapM _ _) as [l|e2] eqn:Hl; simpl in Hs; [done|].
    injection Hs as ->. apply mapM_Raise_inv in Hl as (o & Ho & Henc).
    apply (IH a o); [|done]. by rewrite sorted_perm in Ho.
  - intros [= ->]. apply foldM_Raise_inv in Hrel as (s & a & Ha & Hs).
    unfold encode_rel in Hs. destruct (getrel obj a) as [o|]; [|done].
    left. exists o. destruct (getUniqueKey o ki); simpl in Hs; [done|congruence].
Qed.

(** C9, as the code has it.  A field that the class of the entity does
    not declare is ignored by the encoder: the result, a record or an
    exception, is that of the entity without the field, and a record
    that is returned has no field of that name. *)
Theorem entity2dict_ignores_undeclared obj ki a :
  exposes_undeclared obj a ->
  encode obj ki = encode (without_field obj a) ki
  /\ (forall d, encode obj ki = Ok d -> dict_get d a = None).
Proof.
  intros [Hund _]. unfold declared in Hund. split.
  - symmetry. apply entity2dict_cong; [done|..].
    + intros b Hb. apply without_field_get. intros ->. tauto.
    + intros b Hb. apply without_field_get. intros ->. tauto.
    + intros b Hb. f_equal. apply without_field_get. intros ->. tauto.
  - intros d Henc. rewrite (entity2dict_get _ _ _ _ _ _ _ _ _ _ _ Henc).
    apply field_undeclared; tauto.
Qed.
End EncoderTheorems.

(** ** The writer *)

Section WriterTheorems.
Context (maxint : Z) (builtin_str : pyval -> string) (keyindex : Type)
        (getUniqueKey : entity -> keyindex -> result string)
        (sortkey_t : Type) (sortkey : entity -> sortkey_t)
        (sortkey_lt : sortkey_t -> sortkey_t -> bool) (version : string).

Local Abbreviation add' :=
  (add maxint builtin_str keyindex getUniqueKey sortkey_t sortkey sortkey_lt).
Local Abbreviation reachable :=
  (writer_reachable maxint builtin_str keyindex getUniqueKey
                    sortkey_t sortkey sortkey_lt version).

Lemma staged_records_pos c : staging_wf c -> c <> [] -> 0 < staged_records c.
Proof.
  destruct c as [|[tag recs] c]; [done|]. intros Hwf _.
  apply Forall_cons in Hwf as [Hrecs _]. simpl in *.
  destruct recs; simpl; [done|lia].
Qed.

Lemma dict_set_staging_wf (c : chunk) tag recs :
  staging_wf c -> recs <> [] -> staging_wf (dict_set c tag recs).
Proof.
  unfold staging_wf. induction c as [|[t r] c IH]; simpl; intros Hc Hrecs.
  - by repeat constructor.
  - apply Forall_cons in Hc as [Hr Hc]. destruct (decide (tag = t)).
    + by constructor.
    + constructor; [done|]. by apply IH.
Qed.

Lemma dict_set_nonempty {A} (d : dict A) k v : dict_set d k v <> [].
Proof. destruct d as [|[k0 v0] d]; simpl; [done|]. by destruct (decide (k = k0)). Qed.

Lemma dict_set_set {A} (d : dict A) k v v' :
  dict_set (dict_set d k v) k v' = dict_set d k v'.
Proof.
  induction d as [|[k0 v0] d IH]; simpl.
  - by rewrite decide_True.
  - destruct (decide (k = k0)) as [->|Hne]; simpl.
    + by rewrite decide_True.
    + by rewrite decide_False, IH.
Qed.

(** What a call of [add] that returns has done: the record of the
    entity is staged under the tag and the key. *)
Lemma add_Ok tag key obj ki w w' :
  add' tag key obj ki w = (Ok (), w') ->
  tag ∈ entitytypes
  /\ exists d,
      entity2dict maxint builtin_str keyindex getUniqueKey
                  sortkey_t sortkey sortkey_lt obj ki = Ok d
      /\ w' = Writer (outfile w)
                 (dict_set (data w) tag
                    (dict_set (default [] (dict_get (data w) tag)) key (VDict d))).
Proof.
  unfold add. case_bool_decide as Htag; [|done].
  destruct (entity2dict _ _ _ _ _ _ _ obj ki) as [d|]; [|done].
  intros [= <-]. split; [done|]. exists d. split; [done|]. f_equal.
  destruct (dict_has (data w) tag) eqn:Hhas; [done|].
  rewrite dict_set_set, dict_get_set_eq. simpl.
  destruct (dict_get (data w) tag) as [recs|] eqn:Hget; [|done].
  unfold dict_has in Hhas. rewrite Hget in Hhas.
  by rewrite bool_decide_true in Hhas.
Qed.

(** A call of [add] that returns leaves a record for every tag. *)
Lemma add_staging_wf tag key obj ki w w' :
  staging_wf (data w) -> add' tag key obj ki w = (Ok (), w') ->
  staging_wf (data w').
Proof.
  intros Hwf (_ & d & _ & ->)%add_Ok. simpl.
  apply dict_set_staging_wf; [done|]. apply dict_set_nonempty.
Qed.

Lemma startdata_data w : data (startdata w) = [].
Proof. unfold startdata. by destruct (data w). Qed.

(** Every state of a writer whose calls have all returned has a record
    for every tag of its staging area. *)
Lemma reachable_staging_wf w : reachable w -> staging_wf (data w).
Proof.
  induction 1 as [|date service apiversion w _ IH|w _ IH
                 |tag key obj ki w w' _ IH Hadd|w _ IH].
  - constructor.
  - done.
  - rewrite startdata_data. constructor.
  - by eapply add_staging_wf.
  - unfold finalize. rewrite startdata_data. constructor.
Qed.

(** C8, as the code has it.  [startdata] writes the staged chunk to
    the output exactly when the chunk has a type tag, which is what the
    test [if self.data] asks, and leaves the staging area empty.  As
    long as every call of the writer has returned, the chunk has a type
    tag exactly when a record is staged.  [finalize] with nothing
    staged writes nothing, so that a second [finalize] adds no chunk. *)
Theorem startdata_flush w :
  (outfile (startdata w) =
     if bool_decide (0 < length (data w))
     then outfile w ++ [Document (data w)] else outfile w)
  /\ data (startdata w) = []
  /\ (reachable w -> 0 < length (data w) <-> 0 < staged_records (data w))
  /\ (data w = [] -> finalize w = w)
  /\ finalize (finalize w) = finalize w.
Proof.
  split_and!.
  - unfold startdata. by destruct (data w) as [|p c] eqn:Hd.
  - apply startdata_data.
  - intros Hw%reachable_staging_wf. destruct (data w) as [|p c] eqn:Hd.
    + simpl. lia.
    + split; intros _; [|simpl; lia]. by apply staged_records_pos.
  - unfold finalize, startdata. intros Hd. rewrite Hd. destruct w; simpl in *.
    by subst.
  - unfold finalize, startdata. by destruct (data w).
Qed.
End WriterTheorems.

(** ** The reader *)

Lemma entitytypes_NoDup : NoDup entitytypes.
Proof. apply (bool_decide_unpack _). vm_compute. reflexivity. Qed.

Lemma list_rank_cons_ne x y l : x <> y -> list_rank x (y :: l) = S (list_rank x l).
Proof. intros Hne. simpl. by rewrite decide_False. Qed.

(** The names of the records visited by the two loops of [getobjs],
    for any list of type names without repetition: a name of smaller
    rank comes first. *)
Lemma getobjs_names_sorted (data : chunk) (names : list string) :
  NoDup names ->
  StronglySorted (fun a b => list_rank a names <= list_rank b names)
    (i_name <$> (name ← names;
                 match dict_get data name with
                 | Some recs => (fun kd => Item name kd.1 kd.2) <$> recs
                 | None => []
                 end)).
Proof.
  induction names as [|n names IH]; intros Hnd; [constructor|].
  apply NoDup_cons in Hnd as [Hn Hnd]. specialize (IH Hnd).
  rewrite bind_cons, fmap_app. set (rest := names ≫= _) in *.
  apply StronglySorted_app_2.
  - intros a b Ha Hb.
    assert (a = n) as ->.
    { destruct (dict_get data n); [|by apply elem_of_nil in Ha].
      apply list_elem_of_fmap in Ha as (it & -> & Hit).
      by apply list_elem_of_fmap in Hit as (kd & -> & _). }
    simpl. rewrite decide_True by done. lia.
  - assert (forall l : dict pyval,
              StronglySorted
                (fun a b => list_rank a (n :: names) <= list_rank b (n :: names))
                (i_name <$> ((fun kd => Item n kd.1 kd.2) <$> l))) as Hsame.
    { intros l. rewrite <-list_fmap_compose.
      induction l as [|kd l IHl]; [constructor|].
      rewrite fmap_cons. constructor; [exact IHl|].
      apply Forall_fmap, Forall_forall. intros kd' _. unfold compose. simpl. lia. }
    destruct (dict_get data n); [apply Hsame|constructor].
  - assert (Forall (fun a => a ∈ names) (i_name <$> rest)) as Hin.
    { apply Forall_fmap, Forall_forall. intros it Hit.
      apply list_elem_of_bind in Hit as (m & Hit & Hm).
      destruct (dict_get data m); [|by apply elem_of_nil in Hit].
      by apply list_elem_of_fmap in Hit as (kd & -> & _). }
    revert IH Hin. generalize (i_name <$> rest). intros l.
    induction 1 as [|a l Hl IHl Ha]; intros Hin; [constructor|].
    apply Forall_cons in Hin as [Hain Hin]. constructor; [by apply IHl|].
    rewrite Forall_forall in Ha, Hin |- *. intros b Hb.
    rewrite !list_rank_cons_ne.
    + apply le_n_S. by apply Ha.
    + intros ->. by apply Hn, Hin.
    + by intros ->.
Qed.

Section ReaderTheorems.
Context (typemap : dict schema)
        (getEntityInfo : string -> result (list field_info)).

Local Abbreviation decode := (dict2entity typemap getEntityInfo).

Lemma getobjs_sorted data :
  StronglySorted (fun a b => type_rank a <= type_rank b) (i_name <$> getobjs data).
Proof. apply getobjs_names_sorted, entitytypes_NoDup. Qed.

(** The records that [getobjs] visits are those of the chunk whose
    type tag is in [entitytypes]. *)
Lemma elem_of_getobjs data it :
  it ∈ getobjs data <->
  i_name it ∈ entitytypes
  /\ exists recs, dict_get data (i_name it) = Some recs
                  /\ (i_key it, i_dict it) ∈ recs.
Proof.
  unfold getobjs, getobjs_items. rewrite list_elem_of_bind. split.
  - intros (name & Hit & Hname).
    destruct (dict_get data name) as [recs|] eqn:Hrecs; [|by apply elem_of_nil in Hit].
    apply list_elem_of_fmap in Hit as ([k d] & -> & Hkd). simpl.
    split; [done|]. by exists recs.
  - intros (Hname & recs & Hrecs & Hkd). exists (i_name it). split; [|done].
    rewrite Hrecs. apply list_elem_of_fmap. exists (i_key it, i_dict it).
    split; [by destruct it|done].
Qed.
End ReaderTheorems.

(** ** The decoder *)

(** Induction on a value, with the property at hand for the elements of
    a list and for the values of a dict *)
Lemma pyval_nested_ind (P : pyval -> Prop) :
  (forall v, match v with VList _ | VDict _ => False | _ => True end -> P v) ->
  (forall l, Forall P l -> P (VList l)) ->
  (forall d, Forall (fun kv => P kv.2) d -> P (VDict d)) ->
  forall v, P v.
Proof.
  intros Hleaf Hlist Hdict. fix IH 1. intros v.
  destruct v as [|b|z|z|m e|t|s|u|l|d]; try (by apply Hleaf).
  - apply Hlist. induction l as [|x l IHl]; constructor; [apply IH|exact IHl].
  - apply Hdict. induction d as [|[k x] d IHd]; constructor; [apply IH|exact IHd].
Qed.

Section DecoderFacts.
Context (typemap : dict schema)
        (getEntityInfo : string -> result (list field_info)).

Local Abbreviation decode := (dict2entity typemap getEntityInfo).
Local Abbreviation new := (client_new typemap).
Local Abbreviation fields := (decode_fields typemap getEntityInfo).
Local Abbreviation children := (decode_children).

Lemma dict2entity_dict items objtype st :
  decode (VDict items) objtype st =
    match new objtype with
    | Ok obj => fields decode objtype items obj None st
    | Raise e => (Raise e, st)
    end.
Proof. reflexivity. Qed.

Lemma client_new_class objtype obj :
  new objtype = Ok obj ->
  dict_get typemap objtype = Some (e_class obj) /\ obj = Entity (e_class obj) [] [] [].
Proof.
  unfold client_new. destruct (dict_get typemap objtype); [|done].
  by intros [= <-].
Qed.

(** *** The class of the entity that is returned *)

Lemma decode_field_nondict_Raise obj objtype attr :
  exists e, decode_field_nondict typemap getEntityInfo obj objtype attr = Raise e.
Proof.
  unfold decode_field_nondict.
  destruct (negb (hashable attr)); [by eauto|].
  destruct (py_in attr (InstAttr _)); [by eauto|].
  destruct (py_in attr (InstRel _)); [by eauto|].
  destruct (py_in attr (InstMRel _)); [|by eauto].
  destruct (mreltypes_of _ _ _) as [m|e]; simpl; by eauto.
Qed.

Lemma dict2entity_nondict_Ok d objtype obj :
  dict2entity_nondict typemap getEntityInfo d objtype = Ok obj ->
  new objtype = Ok obj.
Proof.
  unfold dict2entity_nondict. destruct (new objtype) as [obj0|]; simpl; [|done].
  destruct (py_iter d) as [attrs|]; simpl; [|done].
  destruct attrs as [|a attrs]; simpl; [done|].
  destruct (decode_field_nondict_Raise obj0 objtype a) as [e ->]. done.
Qed.

Lemma decode_children_class dec m attr l obj st obj' st' :
  children dec m attr l obj st = (Ok obj', st') -> e_class obj' = e_class obj.
Proof.
  revert obj st. induction l as [|rd l IH]; intros obj st; simpl.
  - by intros [= <- _].
  - destruct (dict_get m attr) as [t|]; [|done].
    destruct (dec rd t st) as [[robj|] st1]; [|done].
    intros Hl. by rewrite (IH _ _ Hl).
Qed.

Lemma decode_children_nonlist_class m attr obj v obj' :
  decode_children_nonlist typemap getEntityInfo m attr obj v = Ok obj' ->
  e_class obj' = e_class obj.
Proof.
  unfold decode_children_nonlist. destruct (py_iter v) as [rds|]; simpl; [|done].
  revert obj. induction rds as [|rd rds IH]; intros obj; simpl.
  - by intros [= <-].
  - destruct (dict_get m attr) as [t|]; simpl; [|done].
    destruct (dict2entity_nondict _ _ rd t) as [robj|]; simpl; [|done].
    intros Hl. by rewrite (IH _ Hl).
Qed.

Lemma decode_fields_class dec objtype d obj m st obj' st' :
  fields dec objtype d obj m st = (Ok obj', st') -> e_class obj' = e_class obj.
Proof.
  revert obj m st. induction d as [|[attr v] d IH]; intros obj m st; simpl.
  - by intros [= <- _].
  - case_bool_decide; [intros Hd; by rewrite (IH _ _ _ Hd)|].
    case_bool_decide.
    { destruct (searchUniqueKey v st) as [[robj|] st1]; [|done].
      intros Hd. by rewrite (IH _ _ _ Hd). }
    case_bool_decide; [|done].
    destruct (from_option Ok _ m) as [mt|]; [|done].
    destruct (match v with VList l => _ | _ => _ end) as [[obj1|] st1] eqn:Hc; [|done].
    intros Hd. rewrite (IH _ _ _ Hd).
    destruct v; try (injection Hc as Hc _; by eapply decode_children_nonlist_class).
    by eapply decode_children_class.
Qed.

(** The entity that [dict2entity] returns is of the class that the
    type name stands for. *)
Lemma dict2entity_class d objtype st obj st' :
  decode d objtype st = (Ok obj, st') ->
  dict_get typemap objtype = Some (e_class obj).
Proof.
  destruct d as [|b|z|z|m e|t|s|u|l|items];
    try (cbn [dict2entity]; intros [= Hd _];
         apply dict2entity_nondict_Ok, client_new_class in Hd; by destruct Hd).
  rewrite dict2entity_dict. destruct (new objtype) as [obj0|] eqn:Hnew; [|done].
  intros Hd%decode_fields_class. rewrite Hd.
  apply client_new_class in Hnew. by destruct Hnew.
Qed.

(** *** Nothing is created at the service *)

Lemma searchUniqueKey_service key st :
  service (searchUniqueKey key st).2 = service st.
Proof.
  unfold searchUniqueKey. destruct (str_key key) as [k|]; [|done].
  destruct (objindex st !! k); [done|]. by destruct (service st !! k).
Qed.

Local Abbreviation keeps_service dec :=
  (fun rd : pyval => forall t st, service (dec rd t st).2 = service st).

Lemma decode_children_service dec m attr l :
  Forall (keeps_service dec) l ->
  forall obj st, service (children dec m attr l obj st).2 = service st.
Proof.
  induction 1 as [|rd l Hrd _ IH]; intros obj st; simpl; [done|].
  destruct (dict_get m attr) as [t|]; [|done].
  specialize (Hrd t st). destruct (dec rd t st) as [[robj|] st1]; simpl in Hrd.
  - by rewrite IH.
  - done.
Qed.

Lemma decode_fields_service dec objtype d :
  Forall (fun kv => match kv.2 with
                    | VList l => Forall (keeps_service dec) l
                    | _ => True
                    end) d ->
  forall obj m st, service (fields dec objtype d obj m st).2 = service st.
Proof.
  induction 1 as [|[attr v] d Hv _ IH]; intros obj m st; simpl; [done|].
  case_bool_decide; [apply IH|].
  case_bool_decide.
  { pose proof (searchUniqueKey_service v st) as Hs.
    destruct (searchUniqueKey v st) as [[robj|] st1]; simpl in Hs; [|done].
    by rewrite IH. }
  case_bool_decide; [|done].
  destruct (from_option Ok _ m) as [mt|]; [|done].
  assert (service (match v with
                   | VList l => children dec mt attr l obj st
                   | _ => (decode_children_nonlist typemap getEntityInfo mt attr obj v, st)
                   end).2 = service st) as Hs.
  { destruct v; try done. simpl in Hv. by apply decode_children_service. }
  destruct (match v with VList l => _ | _ => _ end) as [[obj1|] st1];
    simpl in Hs; [|done].
  by rewrite IH.
Qed.

(** [dict2entity] creates nothing at the service. *)
Lemma dict2entity_service d objtype st :
  service (decode d objtype st).2 = service st.
Proof.
  revert objtype st.
  cut (keeps_service decode d
       /\ match d with
          | VList l => Forall (keeps_service decode) l
          | _ => True
          end); [by intros [? _]|].
  induction d as [v Hv|l IH|items IH] using pyval_nested_ind.
  - split; [|by destruct v]. intros t st. by destruct v.
  - split; [done|]. eapply Forall_impl; [exact IH|]. by intros rd [? _].
  - split; [|done]. intros t st. rewrite dict2entity_dict.
    destruct (new t) as [obj|]; [|done].
    apply decode_fields_service.
    eapply Forall_impl; [exact IH|]. intros [k v] [_ Hl]. simpl in *.
    by destruct v.
Qed.

(** *** A field that the class does not declare *)

Lemma decode_fields_undeclared dec objtype attr v post obj m st :
  ~ declared (e_class obj) attr ->
  fields dec objtype ((attr, v) :: post) obj m st
  = (Raise (ValueError (InvalidAttribute (VStr attr) objtype)), st).
Proof.
  unfold declared. intros Hund. simpl.
  rewrite !bool_decide_false; [done|tauto..].
Qed.

Lemma decode_fields_app_Ok dec objtype pre rest :
  forall obj m st obj1 st1,
    fields dec objtype pre obj m st = (Ok obj1, st1) ->
    exists m1, fields dec objtype (pre ++ rest) obj m st
               = fields dec objtype rest obj1 m1 st1.
Proof.
  induction pre as [|[a va] pre IH]; intros obj m st obj1 st1; simpl.
  - intros [= <- <-]. by exists m.
  - case_bool_decide; [apply IH|].
    case_bool_decide.
    { destruct (searchUniqueKey va st) as [[robj|] st2]; [apply IH|done]. }
    case_bool_decide; [|done].
    destruct (from_option Ok _ m) as [mt|]; [|done].
    destruct (match va with VList l => _ | _ => _ end) as [[obj2|] st2]; [apply IH|done].
Qed.

Lemma decode_fields_app_Raise dec objtype pre rest :
  forall obj m st e st1,
    fields dec objtype pre obj m st = (Raise e, st1) ->
    fields dec objtype (pre ++ rest) obj m st = (Raise e, st1).
Proof.
  induction pre as [|[a va] pre IH]; intros obj m st e st1; simpl; [done|].
  case_bool_decide; [apply IH|].
  case_bool_decide.
  { destruct (searchUniqueKey va st) as [[robj|] st2]; [apply IH|done]. }
  case_bool_decide; [|done].
  destruct (from_option Ok _ m) as [mt|]; [|done].
  destruct (match va with VList l => _ | _ => _ end) as [[obj2|] st2]; [apply IH|done].
Qed.
End DecoderFacts.

Section DecoderTheorems.
Context (typemap : dict schema)
        (getEntityInfo : string -> result (list field_info)).

Local Abbreviation decode := (dict2entity typemap getEntityInfo).

(** C2, as the code has it.  Decoding a record with a field that the
    class of the target type does not declare raises an exception and
    creates nothing at the service.  The exception is the [ValueError]
    for the invalid attribute when the fields that come before it in
    the record are decoded without an exception, and otherwise the
    exception of the first of those fields that raises one. *)
Theorem dict2entity_undeclared_field pre attr v post objtype c st :
  dict_get typemap objtype = Some c ->
  ~ declared c attr ->
  let r := decode (VDict (pre ++ (attr, v) :: post)) objtype st in
  (exists e, r.1 = Raise e)
  /\ service r.2 = service st
  /\ (forall obj st1,
        decode (VDict pre) objtype st = (Ok obj, st1) ->
        r = (Raise (ValueError (InvalidAttribute (VStr attr) objtype)), st1))
  /\ (forall e st1,
        decode (VDict pre) objtype st = (Raise e, st1) -> r = (Raise e, st1)).
Proof.
  intros Hc Hund r.
  assert (forall obj st1,
            decode (VDict pre) objtype st = (Ok obj, st1) ->
            r = (Raise (ValueError (InvalidAttribute (VStr attr) objtype)), st1))
    as HOk.
  { intros obj st1. unfold r. rewrite !dict2entity_dict. unfold client_new.
    rewrite Hc. intros Hpre.
    destruct (decode_fields_app_Ok _ _ decode objtype pre ((attr, v) :: post)
                _ _ _ _ _ Hpre) as [m1 ->].
    apply decode_fields_undeclared.
    by rewrite (decode_fields_class _ _ _ _ _ _ _ _ _ _ Hpre). }
  assert (forall e st1,
            decode (VDict pre) objtype st = (Raise e, st1) -> r = (Raise e, st1))
    as HRaise.
  { intros e st1. unfold r. rewrite !dict2entity_dict. unfold client_new.
    rewrite Hc. apply decode_fields_app_Raise. }
  split_and!; [|apply dict2entity_service|done|done].
  destruct (decode (VDict pre) objtype st) as [[obj|e] st1] eqn:Hpre.
  - rewrite (HOk _ _ eq_refl). by eauto.
  - rewrite (HRaise _ _ eq_refl). by eauto.
Qed.
End DecoderTheorems.

Section ReaderRun.
Context (typemap : dict schema)
        (getEntityInfo : string -> result (list field_info))
        (body : string -> entity -> world -> world).

Local Abbreviation run := (for_getobjs typemap getEntityInfo body).

(** The loop resumes the generator with [next] until it is exhausted or
    raises. *)
Lemma for_getobjs_next g st :
  run g st =
    match next typemap getEntityInfo g st with
    | (Yield (key, obj), g', st') =>
        let '(ys, r, st'') := run g' (body key obj st') in
        ((key, obj) :: ys, r, st'')
    | (Raised e, _, st') => ([], Raise e, st')
    | (StopIteration, _, st') => ([], Ok (), st')
    end.
Proof.
  destruct g as [|it g]; simpl; [done|].
  by destruct (dict2entity _ _ _ _ st) as [[obj|e] st1].
Qed.

(** The pairs that the loop over [getobjs] receives come from the
    records that [getobjs] visits, one after the other from the first
    one on: each has the key of its record and an entity of the class
    of the type tag of its record. *)
Lemma for_getobjs_yields g st :
  Forall2 (fun y it => y.1 = i_key it
                       /\ dict_get typemap (i_name it) = Some (e_class y.2))
          (run g st).1.1 (take (length (run g st).1.1) g).
Proof.
  revert st. induction g as [|it g IH]; intros st; simpl; [constructor|].
  destruct (dict2entity _ _ _ _ st) as [[obj|e] st1] eqn:Hdec; [|constructor].
  specialize (IH (body (i_key it) obj st1)).
  destruct (run g _) as [[ys r] st2]. simpl in *.
  constructor; [|done]. split; [done|]. by eapply dict2entity_class.
Qed.

(** The loop goes on until a record does not decode: where it ends
    without an exception, it has yielded a pair for every record, and
    where it ends with an exception, the decoding of the record after
    those that it has yielded a pair for has raised it. *)
Lemma for_getobjs_stops g st :
  match (run g st).1.2 with
  | Ok _ => length (run g st).1.1 = length g
  | Raise e =>
      exists it st1,
        g !! length (run g st).1.1 = Some it
        /\ (dict2entity typemap getEntityInfo (i_dict it) (i_name it) st1).1
           = Raise e
  end.
Proof.
  revert st. induction g as [|it g IH]; intros st; simpl; [done|].
  destruct (dict2entity _ _ _ _ st) as [[obj|e] st1] eqn:Hdec.
  - specialize (IH (body (i_key it) obj st1)).
    destruct (run g _) as [[ys r] st2]. simpl in *.
    destruct r as [[]|e]; [by rewrite IH|done].
  - simpl. exists it, st. by rewrite Hdec.
Qed.

Lemma StronglySorted_lookup_le {A} (R : relation A) (l : list A) i j a b :
  StronglySorted R l -> l !! i = Some a -> l !! j = Some b -> i < j -> R a b.
Proof.
  intros Hl Ha Hb Hij. rewrite <-(take_drop j l) in Hl.
  eapply StronglySorted_app_1_elem_of; [exact Hl| |].
  - eapply list_elem_of_lookup_2. by rewrite lookup_take_lt.
  - eapply list_elem_of_lookup_2. rewrite lookup_drop, Nat.add_0_r. exact Hb.
Qed.

(** C3.  The record iteration of the reader goes through the records
    of a chunk type by type, in the order of [entitytypes]: a record
    of a type that comes earlier in the list is visited, and its
    entity yielded, before every record of a type that comes later.
    So it is for facility, instrument, investigation, dataset and
    datafile.  The iteration yields an entity for every record of the
    chunk whose type is in the list, one after the other, unless the
    decoding of a record raises: then the entities of the records
    before that one have been yielded, and the exception is the one
    that the decoding of that record has raised. *)
Theorem getobjs_order data st :
  let items := getobjs data in
  let yields := (run items st).1.1 in
  Forall2 (fun y it => y.1 = i_key it
                       /\ dict_get typemap (i_name it) = Some (e_class y.2))
          yields (take (length yields) items)
  /\ match (run items st).1.2 with
     | Ok _ => length yields = length items
     | Raise e =>
         exists it st1,
           items !! length yields = Some it
           /\ (dict2entity typemap getEntityInfo (i_dict it) (i_name it) st1).1
              = Raise e
     end
  /\ (forall i j it1 it2,
        items !! i = Some it1 -> items !! j = Some it2 ->
        type_rank (i_name it1) < type_rank (i_name it2) -> i < j)
  /\ (forall it, it ∈ items <->
        i_name it ∈ entitytypes
        /\ exists recs, dict_get data (i_name it) = Some recs
                        /\ (i_key it, i_dict it) ∈ recs)
  /\ type_rank "facility" < type_rank "instrument"
     < type_rank "investigation"
  /\ type_rank "investigation" < type_rank "dataset" < type_rank "datafile".
Proof.
  intros items yields. split_and!.
  - apply for_getobjs_yields.
  - apply for_getobjs_stops.
  - intros i j it1 it2 Hi Hj Hrank.
    destruct (decide (i < j)) as [|Hge]; [done|]. exfalso.
    destruct (decide (i = j)) as [->|Hne].
    + rewrite Hi in Hj. injection Hj as ->. lia.
    + assert (type_rank (i_name it2) <= type_rank (i_name it1)); [|lia].
      apply (StronglySorted_lookup_le
               (fun a b => type_rank a <= type_rank b) (i_name <$> items) j i).
      * apply getobjs_sorted.
      * by rewrite list_lookup_fmap, Hj.
      * by rewrite list_lookup_fmap, Hi.
      * lia.
  - apply elem_of_getobjs.
  - vm_compute. lia.
  - vm_compute. lia.
  - vm_compute. lia.
  - vm_compute. lia.
Qed.
End ReaderRun.

(** ** Type tags outside [entitytypes] *)

Lemma getobjs_items_del data tag :
  tag ∉ entitytypes -> getobjs_items (dict_del data tag) = getobjs_items data.
Proof.
  intros Htag. unfold getobjs_items. apply Forall_bind_ext, Forall_forall.
  intros name Hname. rewrite dict_get_del, decide_False; [done|].
  by intros ->.
Qed.

Section UnknownTypeTag.
Context (maxint : Z) (builtin_str : pyval -> string) (keyindex : Type)
        (getUniqueKey : entity -> keyindex -> result string)
        (sortkey_t : Type) (sortkey : entity -> sortkey_t)
        (sortkey_lt : sortkey_t -> sortkey_t -> bool)
        (typemap : dict schema)
        (getEntityInfo : string -> result (list field_info))
        (body : string -> entity -> world -> world).

(** C4, as the code has it.  For a type tag that is not in
    [entitytypes], [add] raises the [ValueError] for the unknown entity
    type and stages nothing.  The reader raises nothing for such a tag:
    [getobjs] does not visit the records under it, so that it yields
    what it yields for the chunk without the tag, and nothing at all
    for a chunk that has no other tag. *)
Theorem unknown_entity_type tag :
  tag ∉ entitytypes ->
  (forall key obj ki w,
      add maxint builtin_str keyindex getUniqueKey sortkey_t sortkey sortkey_lt
          tag key obj ki w
      = (Raise (ValueError (UnknownEntityType tag)), w))
  /\ (forall data, getobjs data = getobjs (dict_del data tag))
  /\ (forall recs st,
        for_getobjs typemap getEntityInfo body (getobjs [(tag, recs)]) st
        = ([], Ok (), st)).
Proof.
  intros Htag. split_and!.
  - intros key obj ki w. unfold add. by rewrite bool_decide_false.
  - intros data. unfold getobjs. by rewrite getobjs_items_del.
  - intros recs st. unfold getobjs.
    rewrite <-(getobjs_items_del _ tag) by done. simpl.
    by rewrite decide_True.
Qed.
End UnknownTypeTag.

(** ** The round trip *)

Lemma getattr_setattr obj a v b :
  getattr (setattr obj a v) b = if decide (b = a) then v else getattr obj b.
Proof.
  unfold getattr, setattr; simpl. rewrite dict_get_set. by destruct (decide (b = a)).
Qed.

Lemma getrel_setrel obj a o b :
  getrel (setrel obj a o) b = if decide (b = a) then Some o else getrel obj b.
Proof. unfold getrel, setrel; simpl. by rewrite dict_get_set. Qed.

Lemma getmrel_appendmrel obj a o b :
  getmrel (appendmrel obj a o) b
  = if decide (b = a) then getmrel obj a ++ [o] else getmrel obj b.
Proof.
  unfold appendmrel. unfold getmrel at 1. simpl. rewrite dict_get_set.
  by destruct (decide (b = a)) as [->|].
Qed.

(** A key that the state resolves is found by [searchUniqueKey], which
    leaves the service as it is and resolves every key as before. *)
Lemma searchUniqueKey_resolve k st o :
  resolve st k = Some o ->
  exists st', searchUniqueKey (VStr k) st = (Ok o, st')
              /\ service st' = service st
              /\ forall k', resolve st' k' = resolve st k'.
Proof.
  unfold resolve, searchUniqueKey. simpl.
  destruct (objindex st !! k) as [o'|] eqn:Hidx.
  - intros [= ->]. by exists st.
  - intros Hsvc. rewrite Hsvc. eexists. split_and!; [done..|].
    intros k'. simpl. rewrite lookup_insert.
    destruct (decide (k = k')) as [<-|Hne]; simpl.
    + by rewrite Hidx.
    + done.
Qed.

Lemma mreltypes_of_class typemap getEntityInfo o1 o2 :
  e_class o1 = e_class o2 ->
  mreltypes_of typemap getEntityInfo o1 = mreltypes_of typemap getEntityInfo o2.
Proof. unfold mreltypes_of. by intros ->. Qed.

Section RoundTrip.
Context (maxint : Z) (builtin_str : pyval -> string) (keyindex : Type)
        (getUniqueKey : entity -> keyindex -> result string)
        (sortkey_t : Type) (sortkey : entity -> sortkey_t)
        (sortkey_lt : sortkey_t -> sortkey_t -> bool)
        (typemap : dict schema)
        (getEntityInfo : string -> result (list field_info)).

Local Abbreviation encode :=
  (entity2dict maxint builtin_str keyindex getUniqueKey sortkey_t sortkey sortkey_lt).
Local Abbreviation field :=
  (encoded_field maxint builtin_str keyindex getUniqueKey sortkey_t sortkey sortkey_lt).
Local Abbreviation decode := (dict2entity typemap getEntityInfo).
Local Abbreviation fields := (decode_fields typemap getEntityInfo decode).
Local Abbreviation image := (restored maxint builtin_str sortkey_t sortkey sortkey_lt).
Local Abbreviation ready := (restorable keyindex getUniqueKey typemap getEntityInfo).
Local Abbreviation round_trip :=
  (round_trip maxint builtin_str keyindex getUniqueKey sortkey_t sortkey sortkey_lt
              typemap getEntityInfo).

(** The keys of an encoded record are pairwise distinct. *)
Lemma entity2dict_wf obj ki d : encode obj ki = Ok d -> dict_wf d.
Proof.
  rewrite entity2dict_eq.
  assert (forall (f : record -> string -> result record),
            (forall d0 x d1, dict_wf d0 -> f d0 x = Ok d1 -> dict_wf d1) ->
            forall names d0 d1, dict_wf d0 -> foldM f d0 names = Ok d1 -> dict_wf d1)
    as Hfold.
  { intros f Hf. induction names as [|x names IHn]; intros d0 d1 Hd0.
    - simpl. by intros [= <-].
    - intros (d' & Hx & Hrest)%foldM_Ok_inv. eapply IHn; [|exact Hrest].
      by eapply Hf. }
  destruct (foldM (encode_attr _ _ _) _ _) as [da|] eqn:Hattr; simpl; [|done].
  destruct (foldM (encode_rel _ _ _ _) _ _) as [d1|] eqn:Hrel; simpl; [|done].
  apply Hfold.
  - intros d0 x d2 Hd0. unfold encode_mrel.
    destruct (bool_decide _); [|by intros [= <-]].
    destruct (mapM _ _); simpl; [|done]. intros [= <-]. by apply dict_set_wf.
  - eapply Hfold; [| |exact Hrel].
    2: { eapply Hfold; [| |exact Hattr]; [|apply NoDup_nil_2].
         intros d0 x d2 Hd0. unfold encode_attr.
         destruct (decide (x = "id")); [by intros [= <-]|].
         destruct (is_None (getattr obj x)); [by intros [= <-]|].
         destruct (encode_value _ _ _); simpl; [|done].
         intros [= <-]. by apply dict_set_wf. }
    intros d0 x d2 Hd0. unfold encode_rel.
    destruct (getrel obj x) as [o|]; [|by intros [= <-]].
    destruct (getUniqueKey o ki); simpl; [|done]. intros [= <-]. by apply dict_set_wf.
Qed.

Lemma decode_fields_cons dec objtype a v d' obj m st :
  decode_fields typemap getEntityInfo dec objtype ((a, v) :: d') obj m st =
    if bool_decide (a ∈ InstAttr (e_class obj)) then
      decode_fields typemap getEntityInfo dec objtype d' (setattr obj a v) m st
    else if bool_decide (a ∈ InstRel (e_class obj)) then
      match searchUniqueKey v st with
      | (Ok robj, st') =>
          decode_fields typemap getEntityInfo dec objtype d' (setrel obj a robj) m st'
      | (Raise e, st') => (Raise e, st')
      end
    else if bool_decide (a ∈ InstMRel (e_class obj)) then
      match from_option Ok (mreltypes_of typemap getEntityInfo obj) m with
      | Raise e => (Raise e, st)
      | Ok mt =>
          match
            match v with
            | VList l => decode_children dec mt a l obj st
            | _ => (decode_children_nonlist typemap getEntityInfo mt a obj v, st)
            end
          with
          | (Ok obj', st') =>
              decode_fields typemap getEntityInfo dec objtype d' obj' (Some mt) st'
          | (Raise e, st') => (Raise e, st')
          end
      end
    else (Raise (ValueError (InvalidAttribute (VStr a) objtype)), st).
Proof. reflexivity. Qed.

Lemma decode_children_cons dec mt a rd l obj st :
  decode_children dec mt a (rd :: l) obj st =
    match dict_get mt a with
    | None => (Raise (KeyError a), st)
    | Some t =>
        match dec rd t st with
        | (Ok robj, st') => decode_children dec mt a l (appendmrel obj a robj) st'
        | (Raise e, st') => (Raise e, st')
        end
    end.
Proof. reflexivity. Qed.

(** The three kinds of fields of the record of an entity of a well
    formed class *)
Lemma field_cases ki obj a v :
  schema_wf (e_class obj) ->
  field ki obj a = Some v ->
  (a ∈ InstAttr (e_class obj) /\ (a ∉ InstRel (e_class obj))
   /\ (a ∉ InstMRel (e_class obj))
   /\ attr_field maxint builtin_str obj a = Some v)
  \/ ((a ∉ InstAttr (e_class obj)) /\ a ∈ InstRel (e_class obj)
      /\ (a ∉ InstMRel (e_class obj))
      /\ exists o k, getrel obj a = Some o /\ getUniqueKey o ki = Ok k /\ v = VStr k)
  \/ ((a ∉ InstAttr (e_class obj)) /\ (a ∉ InstRel (e_class obj))
      /\ a ∈ InstMRel (e_class obj) /\ getmrel obj a <> []
      /\ exists recs,
          mapM (fun o => encode o ki) (sorted sortkey sortkey_lt (getmrel obj a))
          = Ok recs
          /\ v = VList (VDict <$> recs)).
Proof.
  intros Hwf Hv.
  destruct (decide (a ∈ InstAttr (e_class obj))) as [Ha|Ha].
  { left. destruct (schema_wf_attr_rel _ _ Hwf Ha) as [Hr Hm]. split_and!; [done..|].
    rewrite field_attr in Hv by done. unfold attr_field.
    by rewrite (bool_decide_true _ Ha). }
  destruct (decide (a ∈ InstRel (e_class obj))) as [Hr|Hr].
  { right; left. destruct (schema_wf_rel_mrel _ _ Hwf Hr) as [_ Hm].
    split_and!; [done..|]. rewrite field_rel in Hv by done.
    destruct (getrel obj a) as [o|]; [|done].
    destruct (getUniqueKey o ki) as [k|] eqn:Hk; [|done].
    injection Hv as <-. by exists o, k. }
  destruct (decide (a ∈ InstMRel (e_class obj))) as [Hm|Hm].
  { right; right. split_and!; [done..| |].
    - rewrite field_mrel in Hv by done. intros Hnil. by rewrite Hnil in Hv.
    - rewrite field_mrel in Hv by done. destruct (bool_decide _); [|done].
      destruct (mapM _ _) as [recs|]; [|done]. injection Hv as <-. by exists recs. }
  by rewrite field_undeclared in Hv.
Qed.

Lemma decode_children_restore ki rho mt a t cs recs :
  dict_get mt a = Some t ->
  Forall2 (fun o r => encode o ki = Ok r) cs recs ->
  Forall (fun o => round_trip ki rho o /\ entity_Forall (ready ki rho) o
                   /\ dict_get typemap t = Some (e_class o)) cs ->
  forall obj st,
    (forall k, resolve st k = rho k) ->
    exists obj' st' cs',
      decode_children decode mt a (VDict <$> recs) obj st = (Ok obj', st')
      /\ Forall2 image cs cs'
      /\ e_class obj' = e_class obj /\ e_attrs obj' = e_attrs obj
      /\ e_rels obj' = e_rels obj
      /\ (forall b, getmrel obj' b
                    = if decide (b = a) then getmrel obj a ++ cs' else getmrel obj b)
      /\ service st' = service st
      /\ forall k, resolve st' k = rho k.
Proof.
  intros Ht. induction 1 as [|o r cs recs Hor _ IH]; intros Hcs obj st Hst.
  - exists obj, st, []. split_and!; try done.
    intros b. destruct (decide (b = a)) as [->|]; [by rewrite app_nil_r|done].
  - apply Forall_cons in Hcs as [(Hrt & Hready & Hclass) Hcs].
    rewrite fmap_cons, decode_children_cons, Ht.
    destruct (Hrt t st r Hready Hclass Hst Hor) as (o' & st1 & -> & Himg & Hsvc1 & Hst1).
    destruct (IH Hcs (appendmrel obj a o') st1 Hst1)
      as (obj' & st' & cs' & -> & Hcs' & Hc & Ha & Hr & Hm & Hsvc & Hst').
    exists obj', st', (o' :: cs'). split_and!; try done.
    + by constructor.
    + intros b. rewrite Hm, !getmrel_appendmrel.
      destruct (decide (b = a)) as [->|]; [|done].
      rewrite decide_True by done. by rewrite <-app_assoc.
    + congruence.
Qed.

(** The loop over the fields of the record of [E], for any part [items]
    of that record and any entity [obj] that the loop has built so
    far *)
Lemma decode_fields_restore ki rho E objtype :
  ready ki rho E ->
  (forall a o, o ∈ getmrel E a ->
               round_trip ki rho o /\ entity_Forall (ready ki rho) o) ->
  forall items obj m st,
    NoDup items.*1 ->
    (forall a v, (a, v) ∈ items -> field ki E a = Some v) ->
    e_class obj = e_class E ->
    (forall mt, m = Some mt -> mreltypes_of typemap getEntityInfo obj = Ok mt) ->
    (forall a, a ∈ items.*1 -> getmrel obj a = []) ->
    (forall k, resolve st k = rho k) ->
    exists obj' st',
      fields objtype items obj m st = (Ok obj', st')
      /\ e_class obj' = e_class E
      /\ service st' = service st
      /\ (forall k, resolve st' k = rho k)
      /\ (forall a, getattr obj' a
                    = if bool_decide (a ∈ items.*1)
                         && bool_decide (a ∈ InstAttr (e_class E))
                      then default VNone (attr_field maxint builtin_str E a)
                      else getattr obj a)
      /\ (forall a, getrel obj' a
                    = if bool_decide (a ∈ items.*1)
                         && bool_decide (a ∈ InstRel (e_class E))
                      then getrel E a else getrel obj a)
      /\ (forall a, if bool_decide (a ∈ items.*1)
                       && bool_decide (a ∈ InstMRel (e_class E))
                    then Forall2 image (sorted sortkey sortkey_lt (getmrel E a))
                                 (getmrel obj' a)
                    else getmrel obj' a = getmrel obj a).
Proof.
  intros (Hwf & Hkeys & Htyped) HIH.
  induction items as [|[a v] items IH]; intros obj m st Hnd Hitems Hclass Hm Hempty Hst.
  { exists obj, st. split_and!; done. }
  rewrite fmap_cons in Hnd. apply NoDup_cons in Hnd as [Ha Hnd]. simpl in Ha.
  assert (forall b w, (b, w) ∈ items -> field ki E b = Some w) as Hitems'.
  { intros b w Hb. apply Hitems. by apply elem_of_cons; right. }
  assert (forall b, b ∈ items.*1 -> b <> a) as Hne by (by intros b Hb ->).
  assert (forall (b : string) (P : Prop) `{!Decision P},
            bool_decide (b ∈ ((a, v) :: items).*1) && bool_decide P
            = if decide (b = a) then bool_decide P
              else bool_decide (b ∈ items.*1) && bool_decide P) as Hmem.
  { intros b P ?. rewrite fmap_cons. simpl.
    destruct (decide (b = a)) as [->|Hba].
    - rewrite bool_decide_true; [done|]. by apply elem_of_cons; left.
    - f_equal. apply bool_decide_ext. rewrite elem_of_cons.
      split; [by intros [?|?]|by right]. }
  assert (forall b, b ∈ items.*1 -> getmrel obj b = []) as Hempty'.
  { intros b Hb. apply Hempty. rewrite fmap_cons. by apply elem_of_cons; right. }
  rewrite decode_fields_cons, Hclass.
  destruct (field_cases ki E a v Hwf (Hitems a v (list_elem_of_here _ _)))
    as [(HA & HR & HM & Hv)|[(HA & HR & HM & o & k & Ho & Hk & ->)
                            |(HA & HR & HM & Hnil & recs & Hrecs & ->)]].
  - (* an attribute *)
    rewrite (bool_decide_true _ HA).
    destruct (IH (setattr obj a v) m st Hnd Hitems' Hclass Hm Hempty' Hst)
      as (obj' & st' & -> & Hc & Hs & Hr' & Hga & Hgr & Hgm).
    exists obj', st'. split_and!; try done.
    + intros b. rewrite Hga, Hmem, getattr_setattr.
      destruct (decide (b = a)) as [->|Hba].
      * rewrite (bool_decide_false (a ∈ items.*1)) by done. simpl.
        by rewrite (bool_decide_true _ HA), Hv.
      * done.
    + intros b. rewrite Hgr, Hmem.
      destruct (decide (b = a)) as [->|Hba]; [|done].
      rewrite (bool_decide_false (a ∈ items.*1)) by done. simpl.
      by rewrite (bool_decide_false _ HR).
    + intros b. specialize (Hgm b). rewrite Hmem.
      destruct (decide (b = a)) as [->|Hba]; [|done].
      rewrite (bool_decide_false (a ∈ items.*1)) in Hgm by done. simpl in Hgm.
      by rewrite (bool_decide_false _ HM).
  - (* a many to one relation *)
    rewrite (bool_decide_false _ HA), (bool_decide_true _ HR).
    assert (resolve st k = Some o) as Hres by (rewrite Hst; by eapply Hkeys).
    destruct (searchUniqueKey_resolve _ _ _ Hres) as (st1 & -> & Hs1 & Hr1).
    assert (forall k', resolve st1 k' = rho k') as Hst1.
    { intros k'. by rewrite Hr1. }
    destruct (IH (setrel obj a o) m st1 Hnd Hitems' Hclass Hm Hempty' Hst1)
      as (obj' & st' & -> & Hc & Hs & Hr' & Hga & Hgr & Hgm).
    exists obj', st'. split_and!; try done.
    + congruence.
    + intros b. rewrite Hga, Hmem.
      destruct (decide (b = a)) as [->|Hba]; [|done].
      rewrite (bool_decide_false (a ∈ items.*1)) by done. simpl.
      by rewrite (bool_decide_false _ HA).
    + intros b. rewrite Hgr, Hmem, getrel_setrel.
      destruct (decide (b = a)) as [->|Hba]; [|done].
      rewrite (bool_decide_false (a ∈ items.*1)) by done. simpl.
      by rewrite (bool_decide_true _ HR).
    + intros b. specialize (Hgm b). rewrite Hmem.
      destruct (decide (b = a)) as [->|Hba]; [|done].
      rewrite (bool_decide_false (a ∈ items.*1)) in Hgm by done. simpl in Hgm.
      by rewrite (bool_decide_false _ HM).
  - (* a one to many relation *)
    rewrite (bool_decide_false _ HA), (bool_decide_false _ HR), (bool_decide_true _ HM).
    destruct (Htyped a HM Hnil) as (mt & t & Hmt & Ht & Htypes).
    assert (mreltypes_of typemap getEntityInfo obj = Ok mt) as Hmt'.
    { by rewrite (mreltypes_of_class _ _ obj E). }
    assert (from_option Ok (mreltypes_of typemap getEntityInfo obj) m = Ok mt) as ->.
    { destruct m as [mt'|]; simpl; [|done]. rewrite <-Hmt'. symmetry. by apply Hm. }
    apply mapM_Ok_Forall2 in Hrecs.
    destruct (decode_children_restore ki rho mt a t _ _ Ht Hrecs) with (obj := obj) (st := st)
      as (obj1 & st1 & cs' & -> & Hcs' & Hc1 & Ha1 & Hr1 & Hm1 & Hs1 & Hst1); [|done|].
    { apply Forall_forall. intros o Ho. rewrite sorted_perm in Ho.
      destruct (HIH a o Ho) as [Hrt Hready]. split_and!; [done..|]. by apply Htypes. }
    assert (e_class obj1 = e_class E) as Hclass1 by congruence.
    assert (forall mt', Some mt = Some mt' ->
                        mreltypes_of typemap getEntityInfo obj1 = Ok mt') as Hmt1.
    { intros mt' [= <-]. by rewrite (mreltypes_of_class _ _ obj1 obj). }
    assert (forall b, b ∈ items.*1 -> getmrel obj1 b = []) as Hempty1.
    { intros b Hb. rewrite Hm1, decide_False by (by apply Hne). by apply Hempty'. }
    assert (forall b, getattr obj1 b = getattr obj b) as Hga1.
    { intros b. unfold getattr. by rewrite Ha1. }
    assert (forall b, getrel obj1 b = getrel obj b) as Hgr1.
    { intros b. unfold getrel. by rewrite Hr1. }
    destruct (IH obj1 (Some mt) st1 Hnd Hitems' Hclass1 Hmt1 Hempty1 Hst1)
      as (obj' & st' & -> & Hc & Hs & Hr' & Hga & Hgr & Hgm).
    exists obj', st'. split_and!; try done.
    + congruence.
    + intros b. rewrite Hga, Hmem, Hga1.
      destruct (decide (b = a)) as [->|Hba]; [|done].
      rewrite (bool_decide_false (a ∈ items.*1)) by done. simpl.
      by rewrite (bool_decide_false _ HA).
    + intros b. rewrite Hgr, Hmem, Hgr1.
      destruct (decide (b = a)) as [->|Hba]; [|done].
      rewrite (bool_decide_false (a ∈ items.*1)) by done. simpl.
      by rewrite (bool_decide_false _ HR).
    + intros b. specialize (Hgm b). rewrite Hmem.
      destruct (decide (b = a)) as [->|Hba].
      * rewrite (bool_decide_false (a ∈ items.*1)) in Hgm by done. simpl in Hgm.
        rewrite (bool_decide_true _ HM), Hgm, Hm1, decide_True by done.
        rewrite Hempty; [done|]. rewrite fmap_cons. by apply elem_of_cons; left.
      * destruct (_ && _); [done|]. by rewrite Hgm, Hm1, decide_False.
Qed.

Lemma entity2dict_rel_Ok obj ki d a o :
  encode obj ki = Ok d ->
  a ∈ InstRel (e_class obj) -> getrel obj a = Some o ->
  exists k, getUniqueKey o ki = Ok k.
Proof.
  rewrite entity2dict_eq. intros Henc Ha Ho.
  destruct (foldM (encode_attr _ _ _) _ _) as [d0|]; simpl in Henc; [|done].
  destruct (foldM (encode_rel _ _ _ _) _ _) as [d1|] eqn:Hrel; simpl in Henc; [|done].
  destruct (foldM_Ok_elem _ _ _ _ _ Hrel Ha) as (s & s' & Hs).
  unfold encode_rel in Hs. rewrite Ho in Hs.
  destruct (getUniqueKey o ki) as [k|]; [by eauto|done].
Qed.

(** Every entity makes the round trip. *)
Lemma round_trip_all ki rho obj : round_trip ki rho obj.
Proof.
  induction obj as [E IHE] using entity_children_ind.
  intros objtype st d [(Hwf & Hkeys & Htyped) Hchildren] Hclass Hst Henc.
  rewrite dict2entity_dict. unfold client_new. rewrite Hclass.
  pose proof (entity2dict_wf _ _ _ Henc) as Hnd.
  assert (forall a o, o ∈ getmrel E a ->
               round_trip ki rho o /\ entity_Forall (ready ki rho) o) as HIH.
  { intros a o Ho. split; [by eapply IHE|by eapply Hchildren]. }
  assert (forall a v, (a, v) ∈ d -> field ki E a = Some v) as Hitems.
  { intros a v Hav. rewrite <-(entity2dict_get _ _ _ _ _ _ _ _ _ _ _ Henc).
    by apply dict_get_elem. }
  assert (forall mt, @None (dict string) = Some mt ->
            mreltypes_of typemap getEntityInfo (Entity (e_class E) [] [] []) = Ok mt)
    as Hnone by done.
  destruct (decode_fields_restore ki rho E objtype (conj Hwf (conj Hkeys Htyped)) HIH
              d (Entity (e_class E) [] [] []) None st Hnd Hitems eq_refl Hnone
              (fun a _ => eq_refl) Hst)
    as (obj' & st' & Hdec & Hc & Hs & Hr & Hga & Hgr & Hgm).
  rewrite Hdec. exists obj', st'.
  split; [reflexivity|]. split; [|split; [exact Hs|exact Hr]].
  constructor; [exact Hc|..].
  - intros a. rewrite Hga. destruct (bool_decide (a ∈ d.*1)) eqn:Hin; simpl.
    + unfold attr_field. destruct (bool_decide (a ∈ InstAttr _)); done.
    + apply bool_decide_eq_false, dict_get_None in Hin.
      rewrite (entity2dict_get _ _ _ _ _ _ _ _ _ _ _ Henc) in Hin.
      destruct (decide (a ∈ InstAttr (e_class E))) as [Ha|Ha].
      * rewrite field_attr in Hin by done. unfold attr_field.
        rewrite (bool_decide_true _ Ha). simpl.
        destruct (negb _ && negb _); [|done].
        by destruct (encode_value _ _ _).
      * unfold attr_field. by rewrite (bool_decide_false _ Ha).
  - intros a. rewrite Hgr. destruct (bool_decide (a ∈ d.*1)) eqn:Hin; simpl; [done|].
    apply bool_decide_eq_false, dict_get_None in Hin.
    rewrite (entity2dict_get _ _ _ _ _ _ _ _ _ _ _ Henc) in Hin.
    case_bool_decide as Ha; [|done].
    rewrite field_rel in Hin by done.
    destruct (getrel E a) as [o|] eqn:Ho; [|done].
    destruct (entity2dict_rel_Ok _ _ _ _ _ Henc Ha Ho) as [k Hk].
    by rewrite Hk in Hin.
  - intros a. specialize (Hgm a).
    destruct (bool_decide (a ∈ d.*1)) eqn:Hin; simpl in Hgm.
    + destruct (bool_decide (a ∈ InstMRel _)); [done|]. rewrite Hgm. constructor.
    + rewrite Hgm. apply bool_decide_eq_false, dict_get_None in Hin.
      rewrite (entity2dict_get _ _ _ _ _ _ _ _ _ _ _ Henc) in Hin.
      case_bool_decide as Ha; [|constructor].
      rewrite field_mrel in Hin by done.
      destruct (getmrel E a) as [|o os] eqn:Hos; [constructor|]. exfalso.
      destruct (entity2dict_children_Ok _ _ _ _ _ _ _ _ _ _ _ Henc Ha) as [recs Hrecs].
      { by rewrite Hos. }
      rewrite Hos in Hrecs. rewrite Hrecs in Hin.
      by destruct (bool_decide (0 < length (o :: os))) eqn:Hlen.
Qed.

(** C1, as the code has it.  Decoding the record of an entity gives an
    entity of the same class, and creates nothing at the service.  The
    targets of its many to one relations are those of the entity.  Its
    attributes are those of the entity as the encoder converts them:
    [id] and the attributes that are [None] are absent, a value that the
    conversion leaves as it is (a boolean, an int, a byte string) is
    equal, and a timestamp is the string that renders it.  Its children
    are the children of the entity restored in the same way, in the
    order of their sort keys.  This holds when the classes are well
    formed, the state resolves the key of every relation target to that
    target, and the type map and the service know the type of the
    children of every collection. *)
Theorem dict2entity_entity2dict obj objtype ki st d :
  entity_Forall (ready ki (resolve st)) obj ->
  dict_get typemap objtype = Some (e_class obj) ->
  encode obj ki = Ok d ->
  exists obj' st',
    decode (VDict d) objtype st = (Ok obj', st')
    /\ image obj obj'
    /\ service st' = service st
    /\ (forall k, resolve st' k = resolve st k)
    /\ (forall a, a ∈ InstRel (e_class obj) -> getrel obj' a = getrel obj a)
    /\ (forall a, a ∈ InstAttr (e_class obj) -> a <> "id" ->
                  if is_None (getattr obj a) then getattr obj' a = VNone
                  else encode_value maxint builtin_str (getattr obj a)
                       = Ok (getattr obj' a))
    /\ (forall a t, a ∈ InstAttr (e_class obj) -> a <> "id" ->
                    getattr obj a = VDatetime t ->
                    exists s, render_datetime t = Ok s /\ getattr obj' a = VStr s)
    /\ getattr obj' "id" = VNone.
Proof.
  intros Hready Hclass Henc.
  destruct (round_trip_all ki (resolve st) obj objtype st d)
    as (obj' & st' & Hdec & Himg & Hs & Hr); try done.
  exists obj', st'. split_and!; try done.
  - intros a Ha. destruct Himg as [obj obj' _ _ Hrel _].
    by rewrite Hrel, (bool_decide_true _ Ha).
  - intros a Ha Hid. destruct Himg as [obj obj' _ Hattr _ _].
    rewrite Hattr. unfold attr_field.
    rewrite (bool_decide_true _ Ha), (bool_decide_false _ Hid). simpl.
    destruct (is_None (getattr obj a)) eqn:Hnone; [done|]. simpl.
    by destruct (entity2dict_value _ _ _ _ _ _ _ _ _ _ _ Henc Ha Hid Hnone) as [v ->].
  - intros a t Ha Hid Ht. destruct Himg as [obj obj' _ Hattr _ _].
    rewrite Hattr. unfold attr_field.
    rewrite (bool_decide_true _ Ha), (bool_decide_false _ Hid), Ht. simpl.
    destruct (entity2dict_value _ _ _ _ _ _ _ _ _ _ _ Henc Ha Hid) as [v Hv];
      [by rewrite Ht|].
    rewrite Ht in Hv. simpl in Hv.
    destruct (render_datetime t) as [s|]; simpl in Hv; [|done]. by exists s.
  - destruct Himg as [obj obj' _ Hattr _ _]. rewrite Hattr. unfold attr_field.
    rewrite (bool_decide_true ("id" = "id")) by done. simpl.
    by rewrite andb_false_r.
Qed.
End RoundTrip.

(** * The examples, evaluated *)

Lemma Datafile_wf : schema_wf Datafile.
Proof. apply (bool_decide_unpack _). vm_compute. reflexivity. Qed.

Lemma raw_dat_encoded : ex_entity2dict raw_dat tt = Ok raw_dat_record.
Proof. vm_compute. reflexivity. Qed.

Lemma entity2dict_omits_witness :
  dict_get raw_dat_record "id" = None
  /\ (forall a, a ∈ InstAttr Datafile -> getattr raw_dat a = VNone ->
                dict_get raw_dat_record a = None)
  /\ (forall a, a ∈ InstRel Datafile -> getrel raw_dat a = None ->
                dict_get raw_dat_record a = None)
  /\ (forall a, a ∈ InstMRel Datafile -> getmrel raw_dat a = [] ->
                dict_get raw_dat_record a = None).
Proof.
  apply (entity2dict_omits ex_maxint ex_str unit ex_getUniqueKey Z ex_sortkey Z.ltb
           raw_dat tt raw_dat_record).
  - apply (bool_decide_unpack _). vm_compute. reflexivity.
  - vm_compute. reflexivity.
Defined.

Lemma entity2dict_timestamp_witness :
  exists suffix,
    format_offset (-90) = Ok suffix /\ read_offset suffix = Some (-90)%Z
    /\ render_datetime modified = Ok (isoformat_naive modified +:+ suffix)
    /\ forall d, ex_entity2dict raw_dat tt = Ok d ->
                 dict_get d "datafileModTime"
                 = Some (VStr (isoformat_naive modified +:+ suffix)).
Proof.
  apply (entity2dict_timestamp ex_maxint ex_str unit ex_getUniqueKey Z ex_sortkey Z.ltb
           raw_dat tt "datafileModTime" modified).
  - apply (bool_decide_unpack _). vm_compute. reflexivity.
  - apply (bool_decide_unpack _). vm_compute. reflexivity.
  - discriminate.
  - reflexivity.
Defined.

(** C6 fails on the code: the modification time of the datafile
    [late_dat] carries a zone that knows its offset, 24 hours, and the
    encoder renders nothing for it: it raises the [ValueError] of
    [isoformat]. *)
Lemma entity2dict_timestamp_counterexample :
  getattr late_dat "datafileModTime" = VDatetime late
  /\ has_timezone late = true
  /\ utcoffset late = Some 1440%Z
  /\ ex_entity2dict late_dat tt = Raise (ValueError (UtcOffsetRange 1440))
  /\ ~ exists d, ex_entity2dict late_dat tt = Ok d.
Proof.
  split_and!; try (vm_compute; reflexivity).
  intros [d Hd]. vm_compute in Hd. discriminate.
Qed.

Lemma entity2dict_shape_witness : record_shape raw_dat_record = true.
Proof.
  apply (entity2dict_shape ex_maxint ex_str unit ex_getUniqueKey Z ex_sortkey Z.ltb
           raw_dat tt raw_dat_record).
  vm_compute. reflexivity.
Defined.

Lemma getmrel_single c attrs rels a l b :
  getmrel (Entity c attrs rels [(a, l)]) b = if decide (b = a) then l else [].
Proof. unfold getmrel. simpl. by destruct (decide (b = a)). Qed.

Lemma entity_Forall_leaf (P : entity -> Prop) c attrs rels :
  P (Entity c attrs rels []) -> entity_Forall P (Entity c attrs rels []).
Proof. intros HP. constructor; [done|]. by intros a o ?%elem_of_nil. Qed.

Lemma entity2dict_children_sorted_witness :
  exists d,
    ex_entity2dict nested tt = Ok d
    /\ (exists cs recs,
          dict_get d "datafiles" = Some (VList (VDict <$> recs))
          /\ cs ≡ₚ getmrel nested "datafiles"
          /\ StronglySorted (key_le ex_sortkey Z.ltb) cs
          /\ (forall c, filter (tied ex_sortkey Z.ltb c) cs
                        = filter (tied ex_sortkey Z.ltb c) (getmrel nested "datafiles"))
          /\ Forall2 (fun o r => ex_entity2dict o tt = Ok r) cs recs)
    /\ ex_entity2dict nested' tt = Ok d.
Proof.
  eexists. split; [vm_compute; reflexivity|].
  lazymatch goal with
  | |- _ /\ _ = Ok ?d =>
      destruct (entity2dict_children_sorted ex_maxint ex_str unit ex_getUniqueKey
                  Z ex_sortkey Z.ltb nested tt d "datafiles")
        as [Hsorted Hsame]
  end.
  - intros x y. rewrite Z.ltb_lt, Z.ltb_ge. lia.
  - intros x y z. rewrite !Z.ltb_ge. lia.
  - vm_compute. reflexivity.
  - apply (bool_decide_unpack _). vm_compute. reflexivity.
  - discriminate.
  - split; [exact Hsorted|]. apply Hsame.
    + constructor; [reflexivity..|]. intros b.
      unfold nested, nested'. rewrite !getmrel_single.
      destruct (decide (b = "datafiles")); [|by exists []].
      exists [plain_dat; raw_dat']. split; [apply Permutation_swap|].
      constructor; [apply same_graph_refl|]. constructor; [|constructor].
      constructor; [reflexivity..|]. intros b'.
      unfold raw_dat, raw_dat'. rewrite !getmrel_single.
      destruct (decide (b' = "parameters")); [|by exists []].
      exists [par_b; par_a]. split; [apply Permutation_swap|].
      constructor; [apply same_graph_refl|].
      constructor; [apply same_graph_refl|constructor].
    + intros x y _ Ha _. unfold ex_sortkey, getattr. by rewrite Ha.
    + constructor.
      * intros b x y. unfold nested. rewrite getmrel_single.
        destruct (decide (b = "datafiles")); [|by intros ?%elem_of_nil].
        rewrite !elem_of_cons, !elem_of_nil.
        intros [->|[->|[]]] [->|[->|[]]] [H1 H2];
          vm_compute in H1, H2; congruence.
      * intros b o. unfold nested. rewrite getmrel_single.
        destruct (decide (b = "datafiles")); [|by intros ?%elem_of_nil].
        rewrite !elem_of_cons, !elem_of_nil. intros [->|[->|[]]].
        -- apply entity_Forall_leaf. by intros b' x y ?%elem_of_nil.
        -- constructor.
           ++ intros b' x y. unfold raw_dat. rewrite getmrel_single.
              destruct (decide (b' = "parameters")); [|by intros ?%elem_of_nil].
              rewrite !elem_of_cons, !elem_of_nil.
              intros [->|[->|[]]] [->|[->|[]]] [H1 H2];
                vm_compute in H1, H2; congruence.
           ++ intros b' o. unfold raw_dat. rewrite getmrel_single.
              destruct (decide (b' = "parameters")); [|by intros ?%elem_of_nil].
              rewrite !elem_of_cons, !elem_of_nil.
              intros [->|[->|[]]]; apply entity_Forall_leaf;
                by intros b'' x y ?%elem_of_nil.
Defined.

(** C7 fails on the code: the datafiles [tie1] and [tie2] are the same
    entity graph, the one holds the parameters in the one order and the
    other in the other order, and their records differ, since the sort
    keeps the order of two parameters that have the same sort key. *)
Lemma entity2dict_children_sorted_counterexample :
  same_graph tie1 tie2
  /\ ex_sortkey par_x = ex_sortkey par_y
  /\ ex_entity2dict tie1 tt
     = Ok [("name", VStr "tie.dat");
           ("parameters", VList [VDict [("stringValue", VStr "x")];
                                 VDict [("stringValue", VStr "y")]])]
  /\ ex_entity2dict tie2 tt
     = Ok [("name", VStr "tie.dat");
           ("parameters", VList [VDict [("stringValue", VStr "y")];
                                 VDict [("stringValue", VStr "x")]])]
  /\ ex_entity2dict tie1 tt <> ex_entity2dict tie2 tt.
Proof.
  split_and!; try (vm_compute; reflexivity).
  - constructor; [reflexivity..|]. intros b.
    unfold tie1, tie2. rewrite !getmrel_single.
    destruct (decide (b = "parameters")); [|by exists []].
    exists [par_x; par_y]. split; [apply Permutation_swap|].
    constructor; [apply same_graph_refl|].
    constructor; [apply same_graph_refl|constructor].
  - intros H. vm_compute in H. discriminate.
Qed.

Lemma entity2dict_ignores_undeclared_witness :
  ex_entity2dict odd_dat tt = ex_entity2dict (without_field odd_dat "bogus") tt
  /\ (forall d, ex_entity2dict odd_dat tt = Ok d -> dict_get d "bogus" = None).
Proof.
  apply (entity2dict_ignores_undeclared ex_maxint ex_str unit ex_getUniqueKey
           Z ex_sortkey Z.ltb odd_dat tt "bogus").
  apply (bool_decide_unpack _). vm_compute. reflexivity.
Defined.

(** C9 fails on the code: the datafile [odd_dat] exposes the field
    [bogus], which its class does not declare, and it is encoded without
    an exception. *)
Lemma entity2dict_undeclared_counterexample :
  exposes_undeclared odd_dat "bogus"
  /\ ex_entity2dict odd_dat tt = Ok [("name", VStr "odd.dat")].
Proof.
  split.
  - apply (bool_decide_unpack _). vm_compute. reflexivity.
  - vm_compute. reflexivity.
Qed.

Lemma ex_writer_reachable :
  writer_reachable ex_maxint ex_str unit ex_getUniqueKey Z ex_sortkey Z.ltb "0.5.0"
                   ex_writer.
Proof.
  apply (reach_add _ _ _ _ _ _ _ _ "datafile" "Datafile_name-raw.dat" raw_dat tt
           writer_init).
  - apply reach_init.
  - vm_compute. reflexivity.
Qed.

Lemma startdata_flush_witness :
  outfile (startdata ex_writer) = outfile ex_writer ++ [Document (data ex_writer)]
  /\ data (startdata ex_writer) = []
  /\ (0 < length (data ex_writer) <-> 0 < staged_records (data ex_writer))
  /\ finalize (finalize ex_writer) = finalize ex_writer.
Proof.
  destruct (startdata_flush ex_maxint ex_str unit ex_getUniqueKey Z ex_sortkey Z.ltb
              "0.5.0" ex_writer) as (Hout & Hdata & Hstaged & _ & Hfinal).
  split; [exact Hout|]. split; [exact Hdata|]. split; [|exact Hfinal].
  apply Hstaged, ex_writer_reachable.
Defined.

(** C8 fails on the code: the call of [add] for the datafile
    [orphan_dat] raises, since its data set has no key, and leaves the
    type tag in the chunk without a record; [startdata] then writes the
    chunk, in which no record is staged. *)
Lemma startdata_flush_counterexample :
  ex_add "datafile" "Datafile_name-orphan.dat" orphan_dat tt writer_init
  = (Raise (ClientError "no key"), failed_writer)
  /\ data failed_writer = [("datafile", [])]
  /\ staged_records (data failed_writer) = 0
  /\ outfile (startdata failed_writer)
     = outfile failed_writer ++ [Document [("datafile", [])]].
Proof. split_and!; vm_compute; reflexivity. Qed.

Lemma dict2entity_undeclared_field_witness :
  ex_dict2entity (VDict [("name", VStr "raw.dat"); ("bogus", VInt 1)])
                 "datafile" ex_world
  = (Raise (ValueError (InvalidAttribute (VStr "bogus") "datafile")), ex_world).
Proof.
  destruct (dict2entity_undeclared_field ex_typemap ex_getEntityInfo
              [("name", VStr "raw.dat")] "bogus" (VInt 1) [] "datafile" Datafile
              ex_world) as (_ & _ & HOk & _).
  - vm_compute. reflexivity.
  - apply (bool_decide_unpack _). vm_compute. reflexivity.
  - eapply HOk. vm_compute. reflexivity.
Defined.

(** C2 fails on the code: the record has the field [bogus], which the
    class of a datafile does not declare, and decoding it raises the
    exception of the key of [datafileFormat], which nothing resolves,
    not the [ValueError] for the invalid attribute. *)
Lemma dict2entity_undeclared_counterexample :
  dict_get ex_typemap "datafile" = Some Datafile
  /\ ~ declared Datafile "bogus"
  /\ (ex_dict2entity (VDict [("datafileFormat", VStr "nokey"); ("bogus", VInt 1)])
                     "datafile" ex_world).1
     = Raise (UnresolvedReferenceError (VStr "nokey"))
  /\ Raise (UnresolvedReferenceError (VStr "nokey"))
     <> @Raise entity (ValueError (InvalidAttribute (VStr "bogus") "datafile")).
Proof.
  split_and!.
  - vm_compute. reflexivity.
  - apply (bool_decide_unpack _). vm_compute. reflexivity.
  - vm_compute. reflexivity.
  - discriminate.
Qed.

Lemma unknown_entity_type_witness :
  (forall key obj ki w,
      ex_add "keyword" key obj ki w
      = (Raise (ValueError (UnknownEntityType "keyword")), w))
  /\ (forall data, getobjs data = getobjs (dict_del data "keyword"))
  /\ (forall recs st,
        for_getobjs ex_typemap ex_getEntityInfo ex_body
                    (getobjs [("keyword", recs)]) st
        = ([], Ok (), st)).
Proof.
  apply (unknown_entity_type ex_maxint ex_str unit ex_getUniqueKey Z ex_sortkey Z.ltb
           ex_typemap ex_getEntityInfo ex_body "keyword").
  apply (bool_decide_unpack _). vm_compute. reflexivity.
Defined.

(** C4 fails on the code for the reader: the chunk has a record under
    the tag [keyword], which is not in [entitytypes], and the iteration
    over its records ends without an exception, having yielded
    nothing. *)
Lemma unknown_entity_type_counterexample :
  ("keyword" ∉ entitytypes)
  /\ for_getobjs ex_typemap ex_getEntityInfo ex_body
       (getobjs [("keyword", [("Keyword_name-neutron", VDict [("name", VStr "neutron")])])])
       ex_world
     = ([], Ok (), ex_world).
Proof.
  split.
  - apply (bool_decide_unpack _). vm_compute. reflexivity.
  - vm_compute. reflexivity.
Qed.

Lemma DatafileParameter_wf : schema_wf DatafileParameter.
Proof. apply (bool_decide_unpack _). vm_compute. reflexivity. Qed.

(** The parameters of the examples have no relation set: they are ready
    for the round trip in any state. *)
Lemma parameter_restorable rho attrs :
  entity_Forall
    (restorable unit ex_getUniqueKey ex_typemap ex_getEntityInfo tt rho)
    (Entity DatafileParameter attrs [] []).
Proof.
  constructor.
  - split_and!.
    + apply DatafileParameter_wf.
    + intros a o k _ Ho. discriminate Ho.
    + intros a Ha. by apply elem_of_nil in Ha.
  - intros a o Ho. by apply elem_of_nil in Ho.
Qed.

Lemma raw_dat_restorable :
  entity_Forall
    (restorable unit ex_getUniqueKey ex_typemap ex_getEntityInfo tt (resolve ex_world))
    raw_dat.
Proof.
  constructor.
  - split_and!.
    + apply Datafile_wf.
    + intros a o k _. unfold getrel. simpl.
      destruct (decide (a = "dataset")); [|done].
      intros [= <-]. vm_compute. by intros [= <-].
    + intros a _. unfold getmrel. simpl.
      destruct (decide (a = "parameters")) as [->|]; [|done]. intros _.
      exists [("parameters", "datafileParameter")], "datafileParameter".
      split_and!; [by vm_compute..|].
      intros o. simpl. rewrite !elem_of_cons, elem_of_nil.
      by intros [->|[->|[]]].
  - intros a o. unfold getmrel. simpl.
    destruct (decide (a = "parameters")); simpl; [|by intros ?%elem_of_nil].
    rewrite !elem_of_cons, elem_of_nil.
    intros [->|[->|[]]]; apply parameter_restorable.
Qed.

Lemma dict2entity_entity2dict_witness :
  exists obj' st',
    ex_dict2entity (VDict raw_dat_record) "datafile" ex_world = (Ok obj', st')
    /\ restored ex_maxint ex_str Z ex_sortkey Z.ltb raw_dat obj'
    /\ service st' = service ex_world
    /\ (forall k, resolve st' k = resolve ex_world k)
    /\ (forall a, a ∈ InstRel Datafile -> getrel obj' a = getrel raw_dat a)
    /\ (forall a, a ∈ InstAttr Datafile -> a <> "id" ->
                  if is_None (getattr raw_dat a) then getattr obj' a = VNone
                  else encode_value ex_maxint ex_str (getattr raw_dat a)
                       = Ok (getattr obj' a))
    /\ (forall a t, a ∈ InstAttr Datafile -> a <> "id" ->
                    getattr raw_dat a = VDatetime t ->
                    exists s, render_datetime t = Ok s /\ getattr obj' a = VStr s)
    /\ getattr obj' "id" = VNone.
Proof.
  apply (dict2entity_entity2dict ex_maxint ex_str unit ex_getUniqueKey Z ex_sortkey
           Z.ltb ex_typemap ex_getEntityInfo raw_dat "datafile" tt ex_world
           raw_dat_record).
  - apply raw_dat_restorable.
  - vm_compute. reflexivity.
  - vm_compute. reflexivity.
Defined.

(** C1 fails on the code: the datafile [plain_dat] has three
    attributes, all declared by its class, and no relation; the entity
    decoded from its record has the creation time as a string where the
    datafile has a timestamp, and it has no [id]. *)
Lemma dict2entity_entity2dict_counterexample :
  Forall (fun a => a ∈ InstAttr (e_class plain_dat)) (e_attrs plain_dat).*1
  /\ e_rels plain_dat = [] /\ e_mrels plain_dat = []
  /\ exists d obj' st',
      ex_entity2dict plain_dat tt = Ok d
      /\ ex_dict2entity (VDict d) "datafile" ex_world = (Ok obj', st')
      /\ getattr plain_dat "datafileCreateTime" = VDatetime created
      /\ getattr obj' "datafileCreateTime" = VStr "2014-01-02T03:04:05Z"
      /\ getattr obj' "datafileCreateTime" <> getattr plain_dat "datafileCreateTime"
      /\ getattr plain_dat "id" = VLong 8
      /\ getattr obj' "id" = VNone.
Proof.
  split_and!; [|done..|].
  - apply (bool_decide_unpack _). vm_compute. reflexivity.
  - eexists _, _, _. split_and!.
    + vm_compute. reflexivity.
    + vm_compute. reflexivity.
    + reflexivity.
    + reflexivity.
    + discriminate.
    + reflexivity.
    + reflexivity.
Qed.

(** * Further properties *)

(** ** What [add] stages *)

Lemma staged_set (c : chunk) tag key v tag' key' :
  staged (dict_set c tag (dict_set (default [] (dict_get c tag)) key v)) tag' key'
  = if decide (tag' = tag /\ key' = key) then Some v else staged c tag' key'.
Proof.
  unfold staged. rewrite dict_get_set.
  destruct (decide (tag' = tag)) as [->|Hne]; simpl.
  - rewrite dict_get_set. destruct (decide (key' = key)) as [->|Hk].
    + by rewrite decide_True.
    + rewrite decide_False by (by intros [_ ?]).
      by destruct (dict_get c tag).
  - by rewrite decide_False by (by intros [? _]).
Qed.

Lemma chunk_wf_set (c : chunk) tag recs :
  chunk_wf c -> tag ∈ entitytypes -> dict_wf recs -> chunk_wf (dict_set c tag recs).
Proof.
  intros [Hwf Hall] Htag Hrecs. split; [by apply dict_set_wf|].
  clear Hwf. induction c as [|[k v] c IH]; simpl.
  - constructor; [done|constructor].
  - apply Forall_cons in Hall as [Hkv Hall].
    destruct (decide (tag = k)) as [->|Hne].
    + by constructor.
    + constructor; [done|]. by apply IH.
Qed.

Lemma chunk_wf_get (c : chunk) tag recs :
  chunk_wf c -> dict_get c tag = Some recs -> dict_wf recs.
Proof.
  intros [_ Hall] Hget. apply dict_get_Some_elem in Hget.
  rewrite Forall_forall in Hall. by destruct (Hall _ Hget).
Qed.

Lemma chunk_wf_nil : chunk_wf [].
Proof. split; [apply NoDup_nil_2|constructor]. Qed.

Section WriterSessions.
Context (maxint : Z) (builtin_str : pyval -> string) (keyindex : Type)
        (getUniqueKey : entity -> keyindex -> result string)
        (sortkey_t : Type) (sortkey : entity -> sortkey_t)
        (sortkey_lt : sortkey_t -> sortkey_t -> bool) (version : string).

Local Abbreviation encode :=
  (entity2dict maxint builtin_str keyindex getUniqueKey sortkey_t sortkey sortkey_lt).
Local Abbreviation add' :=
  (add maxint builtin_str keyindex getUniqueKey sortkey_t sortkey sortkey_lt).
Local Abbreviation calls' :=
  (calls maxint builtin_str keyindex getUniqueKey sortkey_t sortkey sortkey_lt version).
Local Abbreviation call' :=
  (call maxint builtin_str keyindex getUniqueKey sortkey_t sortkey sortkey_lt version).

(** X1.  An [add] that returns has staged the record of the entity under
    its type tag and its key, in place of a record that was staged there
    before; every other staged record is as it was, and nothing is
    written to the output file. *)
Theorem add_staged tag key obj ki w w' :
  add' tag key obj ki w = (Ok (), w') ->
  outfile w' = outfile w
  /\ exists d,
      encode obj ki = Ok d
      /\ forall tag' key',
          staged (data w') tag' key'
          = if decide (tag' = tag /\ key' = key) then Some (VDict d)
            else staged (data w) tag' key'.
Proof.
  intros Hadd.
  destruct (add_Ok _ _ _ _ _ _ _ _ _ _ _ _ _ Hadd) as (_ & d & Hd & ->).
  split; [done|]. exists d. split; [done|].
  intros tag' key'. simpl. apply staged_set.
Qed.

(** X2.  When the entity cannot be encoded, [add] passes the exception
    on after it has made room for the type tag: no record is staged
    and nothing is written, but the tag is now in the chunk, and a
    chunk that was empty is written by the next [startdata] with that
    tag and no record. *)
Theorem add_encode_failure tag key obj ki w e :
  tag ∈ entitytypes ->
  encode obj ki = Raise e ->
  exists w',
    add' tag key obj ki w = (Raise e, w')
    /\ outfile w' = outfile w
    /\ (forall tag' key', staged (data w') tag' key' = staged (data w) tag' key')
    /\ dict_get (data w') tag = Some (default [] (dict_get (data w) tag))
    /\ (data w = [] ->
        startdata w' = Writer (outfile w ++ [Document [(tag, [])]]) []).
Proof.
  intros Htag Henc. unfold add. rewrite bool_decide_true by done. rewrite Henc.
  eexists. split; [reflexivity|]. simpl. unfold dict_has.
  destruct (dict_get (data w) tag) as [recs|] eqn:Hget.
  - rewrite bool_decide_true by (by eexists). repeat split; try done.
    intros Hnil. rewrite Hnil in Hget. done.
  - rewrite bool_decide_false by (by intros [? ?]).
    split; [done|]. split; [|split].
    + intros tag' key'. unfold staged. rewrite dict_get_set.
      destruct (decide (tag' = tag)) as [->|Hne]; [|done].
      by rewrite Hget.
    + by rewrite dict_get_set_eq.
    + intros Hnil. rewrite Hnil. reflexivity.
Qed.

Lemma call_wf c w :
  Forall output_wf (outfile w) -> chunk_wf (data w) ->
  Forall output_wf (outfile (call' c w).2) /\ chunk_wf (data (call' c w).2).
Proof.
  intros Hout Hdata.
  assert (Hstart : Forall output_wf (outfile (startdata w))
                   /\ chunk_wf (data (startdata w))).
  { unfold startdata. destruct (data w) as [|p c'] eqn:Hc; simpl.
    - split; [done|apply chunk_wf_nil].
    - split; [|apply chunk_wf_nil].
      apply Forall_app. split; [done|]. constructor; [|constructor].
      split; [done|]. exact Hdata. }
  destruct c as [date service apiversion| |tag key obj ki|]; simpl; try done.
  - split; [|done]. apply Forall_app. split; [done|]. by repeat constructor.
  - unfold add. case_bool_decide as Htag; [|done].
    set (data1 := if dict_has (data w) tag then data w else dict_set (data w) tag []).
    assert (Hdata1 : chunk_wf data1).
    { unfold data1. destruct (dict_has (data w) tag); [done|].
      apply chunk_wf_set; [done..|apply NoDup_nil_2]. }
    destruct (encode obj ki) as [d|e]; simpl; [|done].
    split; [done|]. apply chunk_wf_set; [done..|].
    apply dict_set_wf. destruct (dict_get data1 tag) as [recs|] eqn:Hget; simpl.
    + by eapply chunk_wf_get.
    + apply NoDup_nil_2.
Qed.

(** X3.  Whatever methods of a new writer are called, and whether or
    not a call of [add] raises, every chunk written to the output file
    has a type tag, its type tags are pairwise distinct and all in
    [entitytypes], and the keys under a tag are pairwise distinct; the
    same holds of the chunk that is being staged. *)
Theorem calls_output_wf cs :
  Forall output_wf (outfile (calls' cs writer_init))
  /\ chunk_wf (data (calls' cs writer_init)).
Proof.
  unfold calls.
  assert (H : forall w, Forall output_wf (outfile w) -> chunk_wf (data w) ->
                Forall output_wf (outfile (foldl (fun w c => (call' c w).2) w cs))
                /\ chunk_wf (data (foldl (fun w c => (call' c w).2) w cs))).
  { induction cs as [|c cs IH]; intros w Hout Hdata; simpl; [done|].
    destruct (call_wf c w Hout Hdata) as [Hout' Hdata']. by apply IH. }
  apply H; [constructor|apply chunk_wf_nil].
Qed.
End WriterSessions.

(** ** The records that [getobjs] visits *)

Lemma bind_nil_all {A B} (f : A -> list B) (l : list A) :
  (forall x, x ∈ l -> f x = []) -> l ≫= f = [].
Proof.
  induction l as [|x l IH]; intros Hf; [done|].
  rewrite bind_cons, Hf by left. simpl. apply IH. intros y Hy. apply Hf. by right.
Qed.

Lemma getobjs_names_perm (names : list string) (c : chunk) :
  NoDup names -> dict_wf c -> Forall (fun p => p.1 ∈ names) c ->
  (name ← names;
   match dict_get c name with
   | Some recs => (fun kd => Item name kd.1 kd.2) <$> recs
   | None => []
   end) ≡ₚ chunk_items c.
Proof.
  revert names. induction c as [|[t recs] c IH]; intros names Hnd Hwf Hall.
  - rewrite bind_nil_all; [done|]. by intros.
  - apply Forall_cons in Hall as [Ht Hall]. simpl in Ht.
    unfold dict_wf in Hwf. rewrite fmap_cons in Hwf. simpl in Hwf.
    apply NoDup_cons in Hwf as [Htc Hwf].
    apply elem_of_Permutation in Ht as [names' Hperm].
    rewrite Hperm in Hnd. apply NoDup_cons in Hnd as [Htn Hnd].
    rewrite Hperm. unfold chunk_items. rewrite !bind_cons. simpl.
    rewrite decide_True by done. apply Permutation_app_head.
    etrans; [|apply (IH names' Hnd Hwf)].
    + apply reflexive_eq. apply Forall_bind_ext. apply Forall_forall.
      intros n Hn. rewrite decide_False; [done|]. by intros ->.
    + rewrite Forall_forall in Hall |- *. intros p Hp.
      specialize (Hall p Hp). rewrite Hperm in Hall.
      apply elem_of_cons in Hall as [Heq|Hin]; [|done].
      exfalso. apply Htc. rewrite <- Heq. by apply list_elem_of_fmap_2.
Qed.

Lemma chunk_items_NoDup (c : chunk) :
  dict_wf c -> Forall (fun p => dict_wf p.2) c ->
  NoDup ((fun it => (i_name it, i_key it)) <$> chunk_items c).
Proof.
  induction c as [|[t recs] c IH]; intros Hwf Hall; [apply NoDup_nil_2|].
  apply Forall_cons in Hall as [Hrecs Hall]. simpl in Hrecs.
  unfold dict_wf in Hwf. rewrite fmap_cons in Hwf. simpl in Hwf.
  apply NoDup_cons in Hwf as [Htc Hwf].
  unfold chunk_items. rewrite bind_cons, fmap_app. simpl. apply NoDup_app.
  split; [|split].
  - rewrite <- list_fmap_compose.
    replace (((fun it => (i_name it, i_key it)) ∘ (fun kd => Item t kd.1 kd.2)) <$> recs)
      with ((fun k => (t, k)) <$> recs.*1) by (by rewrite <- list_fmap_compose).
    apply NoDup_fmap_2; [|done]. by intros k1 k2 [= ->].
  - intros [n k] H1 H2.
    apply list_elem_of_fmap in H1 as (it1 & [= -> ->] & Hit1).
    apply list_elem_of_fmap in Hit1 as (kd & -> & _). simpl in H2.
    apply list_elem_of_fmap in H2 as (it2 & [= Hn Hk] & Hit2).
    apply list_elem_of_bind in Hit2 as ([t2 recs2] & Hit2 & Hp).
    apply list_elem_of_fmap in Hit2 as (kd2 & -> & _). simpl in Hn.
    apply Htc. rewrite Hn. by apply (list_elem_of_fmap_2 fst) in Hp.
  - by apply IH.
Qed.

(** X4.  [getobjs] visits every record of a chunk whose type tags are
    all in [entitytypes], and it visits none of them twice. *)
Theorem getobjs_each_record_once (c : chunk) :
  chunk_wf c ->
  getobjs c ≡ₚ chunk_items c
  /\ NoDup ((fun it => (i_name it, i_key it)) <$> getobjs c).
Proof.
  intros [Hwf Hall].
  assert (Hperm : getobjs c ≡ₚ chunk_items c).
  { apply getobjs_names_perm; [apply entitytypes_NoDup|done|].
    eapply Forall_impl; [exact Hall|]. by intros p [? _]. }
  split; [done|]. rewrite Hperm. apply chunk_items_NoDup; [done|].
  eapply Forall_impl; [exact Hall|]. by intros p [_ ?].
Qed.

(** ** How a loop over [getobjs] ends *)

Section ReaderLoop.
Context (typemap : dict schema)
        (getEntityInfo : string -> result (list field_info))
        (body : string -> entity -> world -> world).

Local Abbreviation decode := (dict2entity typemap getEntityInfo).
Local Abbreviation run := (for_getobjs typemap getEntityInfo body).

End ReaderLoop.

(** ** From the writer to the reader *)

Section DumpRestore.
Context (maxint : Z) (builtin_str : pyval -> string) (keyindex : Type)
        (getUniqueKey : entity -> keyindex -> result string)
        (sortkey_t : Type) (sortkey : entity -> sortkey_t)
        (sortkey_lt : sortkey_t -> sortkey_t -> bool)
        (typemap : dict schema)
        (getEntityInfo : string -> result (list field_info))
        (body : string -> entity -> world -> world).

Local Abbreviation add' :=
  (add maxint builtin_str keyindex getUniqueKey sortkey_t sortkey sortkey_lt).
Local Abbreviation run := (for_getobjs typemap getEntityInfo body).
Local Abbreviation image := (restored maxint builtin_str sortkey_t sortkey sortkey_lt).
Local Abbreviation ready := (restorable keyindex getUniqueKey typemap getEntityInfo).

Lemma getobjs_single tag key d :
  tag ∈ entitytypes -> getobjs [(tag, [(key, d)])] = [Item tag key d].
Proof.
  intros Htag. apply Permutation_singleton_r.
  apply (getobjs_names_perm entitytypes [(tag, [(key, d)])]).
  - apply entitytypes_NoDup.
  - apply NoDup_singleton.
  - by constructor.
Qed.

(** X6.  An entity that a new writer stages and writes is read back
    from the chunk: the chunk that [startdata] writes after the [add]
    has returned is one from which [getobjs] yields, under the same
    key, exactly one entity, and that is the entity that the encoder
    and the decoder restore, provided that the type map has the class
    of the entity under the tag and that its keys and the types of its
    children can be resolved. *)
Theorem dump_restore tag key obj ki st w :
  add' tag key obj ki writer_init = (Ok (), w) ->
  entity_Forall (ready ki (resolve st)) obj ->
  dict_get typemap tag = Some (e_class obj) ->
  exists c obj' st',
    outfile (startdata w) = [Document c]
    /\ data (startdata w) = []
    /\ run (getobjs c) st = ([(key, obj')], Ok (), body key obj' st')
    /\ image obj obj'
    /\ service st' = service st.
Proof.
  intros Hadd Hready Htype.
  destruct (add_Ok _ _ _ _ _ _ _ _ _ _ _ _ _ Hadd) as (Htag & d & Hd & ->).
  destruct (round_trip_all maxint builtin_str keyindex getUniqueKey sortkey_t
              sortkey sortkey_lt typemap getEntityInfo ki (resolve st) obj
              tag st d Hready Htype (fun k => eq_refl) Hd)
    as (obj' & st' & Hdec & Himg & Hserv & _).
  exists [(tag, [(key, VDict d)])], obj', st'.
  split; [done|]. split; [done|]. split; [|done].
  rewrite getobjs_single by done. cbn [for_getobjs i_dict i_name i_key].
  by rewrite Hdec.
Qed.
End DumpRestore.

(** ** What the decoder sets *)

Lemma searchUniqueKey_spec key st :
  (forall k, resolve (searchUniqueKey key st).2 k = resolve st k)
  /\ (searchUniqueKey key st).1
     = match str_key key ≫= resolve st with
       | Some o => Ok o
       | None => Raise (UnresolvedReferenceError key)
       end.
Proof.
  unfold searchUniqueKey, resolve. destruct (str_key key) as [k|]; simpl; [|done].
  destruct (objindex st !! k) as [o|] eqn:Hidx; simpl; [done|].
  destruct (service st !! k) as [o|] eqn:Hserv; simpl; [|done].
  split; [|done]. intros k'. destruct (decide (k' = k)) as [->|Hne].
  - by rewrite lookup_insert_eq, Hidx, Hserv.
  - by rewrite lookup_insert_ne.
Qed.

Section DecoderLookup.
Context (typemap : dict schema)
        (getEntityInfo : string -> result (list field_info)).

Local Abbreviation decode := (dict2entity typemap getEntityInfo).
Local Abbreviation new := (client_new typemap).
Local Abbreviation fields := (decode_fields typemap getEntityInfo).
Local Abbreviation mreltypes := (mreltypes_of typemap getEntityInfo).

(** The children that a loop over a list of records appends *)
Lemma decode_children_spec dec mt a l :
  forall obj st obj' st',
    decode_children dec mt a l obj st = (Ok obj', st') ->
    e_attrs obj' = e_attrs obj /\ e_rels obj' = e_rels obj
    /\ exists cs,
        (forall b, getmrel obj' b
                   = if decide (b = a) then getmrel obj a ++ cs else getmrel obj b)
        /\ Forall2 (fun rd o => exists t st1 st2,
                       dict_get mt a = Some t /\ dec rd t st1 = (Ok o, st2)) l cs.
Proof.
  induction l as [|rd l IH]; intros obj st obj' st'.
  - intros [= <- <-]. split; [done|]. split; [done|]. exists []. split; [|constructor].
    intros b. destruct (decide (b = a)) as [->|_]; [|done]. by rewrite app_nil_r.
  - rewrite decode_children_cons. destruct (dict_get mt a) as [t|] eqn:Ht; [|done].
    destruct (dec rd t st) as [[robj|e] st1] eqn:Hrd; [|done].
    intros Hl. destruct (IH _ _ _ _ Hl) as (Hattrs & Hrels & cs & Hm & Hcs).
    split; [done|]. split; [done|]. exists (robj :: cs). split.
    + intros b. rewrite Hm, !getmrel_appendmrel.
      destruct (decide (b = a)) as [->|Hne].
      * rewrite decide_True by done. by rewrite <- app_assoc.
      * done.
    + constructor; [|done]. by exists t, st, st1.
Qed.

Lemma decode_children_nonlist_spec mt a obj v obj' :
  decode_children_nonlist typemap getEntityInfo mt a obj v = Ok obj' ->
  e_attrs obj' = e_attrs obj /\ e_rels obj' = e_rels obj
  /\ forall b, b <> a -> getmrel obj' b = getmrel obj b.
Proof.
  unfold decode_children_nonlist. destruct (py_iter v) as [rds|]; simpl; [|done].
  revert obj. induction rds as [|rd rds IH]; intros obj; simpl.
  - by intros [= <-].
  - destruct (dict_get mt a) as [t|]; simpl; [|done].
    destruct (dict2entity_nondict _ _ rd t) as [robj|]; simpl; [|done].
    intros Hl. destruct (IH _ Hl) as (-> & -> & Hm). split; [done|]. split; [done|].
    intros b Hb. rewrite Hm by done. rewrite getmrel_appendmrel.
    by rewrite decide_False.
Qed.

Lemma getattr_attrs obj obj' a : e_attrs obj' = e_attrs obj -> getattr obj' a = getattr obj a.
Proof. unfold getattr. by intros ->. Qed.

Lemma getrel_rels obj obj' a : e_rels obj' = e_rels obj -> getrel obj' a = getrel obj a.
Proof. unfold getrel. by intros ->. Qed.

Lemma dict_wf_cons {A} (k : string) (v : A) (d : dict A) :
  dict_wf ((k, v) :: d) -> dict_get d k = None /\ dict_wf d.
Proof.
  unfold dict_wf. rewrite fmap_cons. simpl. intros [Hk Hd]%NoDup_cons.
  split; [by apply dict_get_None|done].
Qed.

(** One step of the loop of [dict2entity] that does not raise: the
    entity and the state that the rest of the loop starts from *)
Lemma decode_fields_step dec objtype a v items obj m st obj' st' :
  fields dec objtype ((a, v) :: items) obj m st = (Ok obj', st') ->
  exists obj1 m1 st1,
    fields dec objtype items obj1 m1 st1 = (Ok obj', st')
    /\ e_class obj1 = e_class obj
    /\ (if bool_decide (a ∈ InstAttr (e_class obj)) then
          obj1 = setattr obj a v /\ st1 = st /\ m1 = m
        else if bool_decide (a ∈ InstRel (e_class obj)) then
          exists robj, searchUniqueKey v st = (Ok robj, st1)
                       /\ obj1 = setrel obj a robj /\ m1 = m
        else
          a ∈ InstMRel (e_class obj)
          /\ exists mt, from_option Ok (mreltypes obj) m = Ok mt /\ m1 = Some mt
             /\ match v with
                | VList l => decode_children dec mt a l obj st = (Ok obj1, st1)
                | _ => decode_children_nonlist typemap getEntityInfo mt a obj v = Ok obj1
                       /\ st1 = st
                end).
Proof.
  rewrite decode_fields_cons.
  destruct (bool_decide (a ∈ InstAttr (e_class obj))).
  { intros H. by exists (setattr obj a v), m, st. }
  destruct (bool_decide (a ∈ InstRel (e_class obj))).
  { destruct (searchUniqueKey v st) as [[robj|e] st1] eqn:Hs; [|done].
    intros H. exists (setrel obj a robj), m, st1. split; [done|]. split; [done|].
    by exists robj. }
  case_bool_decide as Hm; [|done].
  destruct (from_option Ok (mreltypes obj) m) as [mt|e] eqn:Hmt; [|done].
  destruct (match v with VList l => _ | _ => _ end) as [[obj1|e] st1] eqn:Hc; [|done].
  intros H. exists obj1, (Some mt), st1. split; [done|].
  split.
  - destruct v; try (injection Hc as Hc _; by eapply decode_children_nonlist_class).
    by eapply decode_children_class.
  - split; [done|]. exists mt. split; [done|]. split; [done|].
    destruct v; try (by injection Hc as Hc <-). done.
Qed.

Lemma decode_fields_attrs dec objtype items :
  forall obj m st obj' st',
    dict_wf items ->
    fields dec objtype items obj m st = (Ok obj', st') ->
    forall a, getattr obj' a
              = if bool_decide (a ∈ InstAttr (e_class obj))
                then default (getattr obj a) (dict_get items a)
                else getattr obj a.
Proof.
  induction items as [|[k v] items IH]; intros obj m st obj' st' Hwf Hd a.
  - injection Hd as <- _. simpl. by destruct (bool_decide _).
  - apply dict_wf_cons in Hwf as [Hk Hwf].
    destruct (decode_fields_step _ _ _ _ _ _ _ _ _ _ Hd)
      as (obj1 & m1 & st1 & Hrest & Hclass & Hstep).
    rewrite (IH _ _ _ _ _ Hwf Hrest a), Hclass. cbn [dict_get].
    destruct (bool_decide (k ∈ InstAttr (e_class obj))) eqn:Hka.
    { destruct Hstep as (-> & _ & _). rewrite getattr_setattr.
      destruct (decide (a = k)) as [->|Hne].
      - rewrite Hk. simpl. by rewrite Hka.
      - done. }
    assert (Hattrs : e_attrs obj1 = e_attrs obj).
    { destruct (bool_decide (k ∈ InstRel (e_class obj))).
      - by destruct Hstep as (robj & _ & -> & _).
      - destruct Hstep as (_ & mt & _ & _ & Hc).
        destruct v;
          lazymatch type of Hc with
          | _ /\ _ =>
              destruct Hc as [Hc _];
              by destruct (decode_children_nonlist_spec _ _ _ _ _ Hc) as (? & _)
          | _ => by destruct (decode_children_spec _ _ _ _ _ _ _ _ Hc) as (? & _)
          end. }
    rewrite (getattr_attrs _ _ a Hattrs).
    destruct (bool_decide (a ∈ InstAttr (e_class obj))) eqn:Ha; [|done].
    destruct (decide (a = k)) as [->|Hne]; [|done].
    by rewrite Ha in Hka.
Qed.

(** X7.  In the entity decoded from a dict, the attributes that the
    class declares have the values that the dict gives them, unchanged,
    and [None] where the dict has none; nothing else is set as an
    attribute. *)
Theorem dict2entity_attributes items objtype st obj st' :
  dict_wf items ->
  decode (VDict items) objtype st = (Ok obj, st') ->
  forall a, getattr obj a
            = if bool_decide (a ∈ InstAttr (e_class obj))
              then default VNone (dict_get items a) else VNone.
Proof.
  intros Hwf. rewrite dict2entity_dict.
  destruct (new objtype) as [obj0|] eqn:Hnew; [|done].
  apply client_new_class in Hnew as [_ Hobj0]. intros Hd a.
  pose proof (decode_fields_class _ _ _ _ _ _ _ _ _ _ Hd) as Hclass.
  rewrite (decode_fields_attrs _ _ _ _ _ _ _ _ Hwf Hd a), Hclass.
  rewrite Hobj0. unfold getattr. simpl. by destruct (bool_decide _).
Qed.

(** *** The key index and the service resolve the keys as before *)

Local Abbreviation keeps_resolve dec :=
  (fun rd : pyval => forall t st k, resolve (dec rd t st).2 k = resolve st k).

Lemma decode_children_resolve dec mt a l :
  Forall (keeps_resolve dec) l ->
  forall obj st k, resolve (decode_children dec mt a l obj st).2 k = resolve st k.
Proof.
  induction 1 as [|rd l Hrd _ IH]; intros obj st k; [done|].
  rewrite decode_children_cons. destruct (dict_get mt a) as [t|]; [|done].
  specialize (Hrd t st k). destruct (dec rd t st) as [[robj|] st1]; simpl in Hrd.
  - by rewrite IH.
  - done.
Qed.

Lemma decode_fields_resolve dec objtype items :
  Forall (fun kv => match kv.2 with
                    | VList l => Forall (keeps_resolve dec) l
                    | _ => True
                    end) items ->
  forall obj m st k, resolve (fields dec objtype items obj m st).2 k = resolve st k.
Proof.
  induction 1 as [|[attr v] items Hv _ IH]; intros obj m st k; [done|].
  rewrite decode_fields_cons.
  destruct (bool_decide (attr ∈ InstAttr (e_class obj))); [apply IH|].
  destruct (bool_decide (attr ∈ InstRel (e_class obj))).
  { destruct (searchUniqueKey_spec v st) as [Hs _]. specialize (Hs k).
    destruct (searchUniqueKey v st) as [[robj|] st1]; simpl in Hs; [|done].
    by rewrite IH. }
  destruct (bool_decide (attr ∈ InstMRel (e_class obj))); [|done].
  destruct (from_option Ok _ m) as [mt|]; [|done].
  assert (resolve (match v with
                   | VList l => decode_children dec mt attr l obj st
                   | _ => (decode_children_nonlist typemap getEntityInfo mt attr obj v, st)
                   end).2 k = resolve st k) as Hs.
  { destruct v; try done. simpl in Hv. by apply decode_children_resolve. }
  destruct (match v with VList l => _ | _ => _ end) as [[obj1|] st1];
    simpl in Hs; [|done].
  by rewrite IH.
Qed.

Lemma dict2entity_resolve_nested d :
  keeps_resolve decode d
  /\ match d with
     | VList l => Forall (keeps_resolve decode) l
     | VDict items =>
         Forall (fun kv => match kv.2 with
                           | VList l => Forall (keeps_resolve decode) l
                           | _ => True
                           end) items
     | _ => True
     end.
Proof.
  induction d as [v Hv|l IH|items IH] using pyval_nested_ind.
  - split; [|by destruct v]. intros t st k. by destruct v.
  - split; [done|]. eapply Forall_impl; [exact IH|]. by intros rd [? _].
  - assert (Hitems : Forall (fun kv => match kv.2 with
                                       | VList l => Forall (keeps_resolve decode) l
                                       | _ => True
                                       end) items).
    { eapply Forall_impl; [exact IH|]. intros [k v] [_ Hl]. simpl in *.
      by destruct v. }
    split; [|done]. intros t st k. rewrite dict2entity_dict.
    destruct (new t) as [obj|]; [|done].
    by apply decode_fields_resolve.
Qed.

Lemma decode_fields_rels objtype items :
  forall obj m st obj' st',
    dict_wf items ->
    Forall (fun kv => match kv.2 with
                      | VList l => Forall (keeps_resolve decode) l
                      | _ => True
                      end) items ->
    fields decode objtype items obj m st = (Ok obj', st') ->
    forall a, getrel obj' a
              = if bool_decide ((a ∉ InstAttr (e_class obj)) /\ a ∈ InstRel (e_class obj))
                then match dict_get items a with
                     | Some v => str_key v ≫= resolve st
                     | None => getrel obj a
                     end
                else getrel obj a.
Proof.
  induction items as [|[k v] items IH]; intros obj m st obj' st' Hwf Hkeep Hd a.
  - injection Hd as <- _. simpl. by destruct (bool_decide _).
  - apply dict_wf_cons in Hwf as [Hk Hwf].
    apply Forall_cons in Hkeep as [Hv Hkeep]. simpl in Hv.
    destruct (decode_fields_step _ _ _ _ _ _ _ _ _ _ Hd)
      as (obj1 & m1 & st1 & Hrest & Hclass & Hstep).
    rewrite (IH _ _ _ _ _ Hwf Hkeep Hrest a), Hclass. cbn [dict_get].
    destruct (bool_decide (k ∈ InstAttr (e_class obj))) eqn:Hka.
    { destruct Hstep as (-> & -> & _).
      replace (getrel (setattr obj k v) a) with (getrel obj a) by done.
      destruct (decide (a = k)) as [->|Hne]; [|done].
      apply bool_decide_eq_true in Hka.
      rewrite bool_decide_false by (by intros [? _]). done. }
    apply bool_decide_eq_false in Hka.
    destruct (bool_decide (k ∈ InstRel (e_class obj))) eqn:Hkr.
    { destruct Hstep as (robj & Hs & -> & _).
      destruct (searchUniqueKey_spec v st) as [Hres Hval]. rewrite Hs in Hres, Hval.
      simpl in Hres, Hval. apply bool_decide_eq_true in Hkr.
      rewrite getrel_setrel.
      destruct (decide (a = k)) as [->|Hne].
      - rewrite bool_decide_true by done. rewrite Hk.
        destruct (str_key v ≫= resolve st) as [o|]; [|done]. by injection Hval as ->.
      - destruct (bool_decide _); [|done].
        destruct (dict_get items a) as [v'|]; [|done].
        destruct (str_key v') as [k'|]; simpl; [apply Hres|done]. }
    destruct Hstep as (Hkm & mt & _ & _ & Hc).
    assert (Hobj1 : e_rels obj1 = e_rels obj /\ forall k', resolve st1 k' = resolve st k').
    { destruct v;
        lazymatch type of Hc with
        | _ /\ _ =>
            destruct Hc as [Hc ->];
            by destruct (decode_children_nonlist_spec _ _ _ _ _ Hc) as (_ & ? & _)
        | _ =>
            split;
            [by destruct (decode_children_spec _ _ _ _ _ _ _ _ Hc) as (_ & ? & _)|];
            intros k';
            pose proof (decode_children_resolve decode mt k _ Hv obj st k') as Hr;
            by rewrite Hc in Hr
        end. }
    destruct Hobj1 as [Hrels Hres]. rewrite (getrel_rels _ _ a Hrels).
    apply bool_decide_eq_false in Hkr.
    destruct (decide (a = k)) as [->|Hne].
    + rewrite bool_decide_false by (by intros [_ ?]). done.
    + destruct (bool_decide _); [|done].
      destruct (dict_get items a) as [v'|]; [|done].
      destruct (str_key v') as [k'|]; simpl; [apply Hres|done].
Qed.

(** X8.  In the entity decoded from a dict, a many to one relation that
    the class declares refers to the entity that the key given by the
    dict resolves to, and to nothing where the dict has no key for it;
    the decoding leaves the service as it is, and every key resolves
    afterwards as it did before. *)
Theorem dict2entity_relations items objtype st obj st' :
  dict_wf items ->
  decode (VDict items) objtype st = (Ok obj, st') ->
  service st' = service st
  /\ (forall k, resolve st' k = resolve st k)
  /\ forall a, getrel obj a
               = if bool_decide ((a ∉ InstAttr (e_class obj))
                                 /\ a ∈ InstRel (e_class obj))
                 then v ← dict_get items a; k ← str_key v; resolve st k
                 else None.
Proof.
  intros Hwf Hd. split; [|split].
  - pose proof (dict2entity_service typemap getEntityInfo (VDict items) objtype st) as H.
    by rewrite Hd in H.
  - intros k. destruct (dict2entity_resolve_nested (VDict items)) as [H _].
    specialize (H objtype st k). by rewrite Hd in H.
  - revert Hd. rewrite dict2entity_dict.
    destruct (new objtype) as [obj0|] eqn:Hnew; [|done].
    apply client_new_class in Hnew as [_ Hobj0]. intros Hd a.
    pose proof (decode_fields_class _ _ _ _ _ _ _ _ _ _ Hd) as Hclass.
    destruct (dict2entity_resolve_nested (VDict items)) as [_ Hkeep].
    rewrite (decode_fields_rels _ _ _ _ _ _ _ Hwf Hkeep Hd a), Hclass.
    rewrite Hobj0. unfold getrel. simpl.
    destruct (bool_decide _); [|done]. by destruct (dict_get items a).
Qed.

(** *** The children *)

Lemma getmrel_mrels obj obj' a : e_mrels obj' = e_mrels obj -> getmrel obj' a = getmrel obj a.
Proof. unfold getmrel. by intros ->. Qed.

Lemma decode_fields_mrels dec objtype items :
  forall obj m st obj' st',
    dict_wf items ->
    (forall mt, m = Some mt -> mreltypes obj = Ok mt) ->
    fields dec objtype items obj m st = (Ok obj', st') ->
    forall a,
      match (if bool_decide ((a ∉ InstAttr (e_class obj)) /\ (a ∉ InstRel (e_class obj))
                             /\ a ∈ InstMRel (e_class obj))
             then dict_get items a else None) with
      | Some (VList l) =>
          exists mt cs,
            mreltypes obj = Ok mt
            /\ getmrel obj' a = getmrel obj a ++ cs
            /\ Forall2 (fun rd o => exists t st1 st2,
                           dict_get mt a = Some t /\ dec rd t st1 = (Ok o, st2)) l cs
      | Some _ => True
      | None => getmrel obj' a = getmrel obj a
      end.
Proof.
  induction items as [|[k v] items IH]; intros obj m st obj' st' Hwf Hm Hd a.
  - injection Hd as <- _. simpl. by destruct (bool_decide _).
  - apply dict_wf_cons in Hwf as [Hk Hwf].
    destruct (decode_fields_step _ _ _ _ _ _ _ _ _ _ Hd)
      as (obj1 & m1 & st1 & Hrest & Hclass & Hstep).
    pose proof (mreltypes_of_class typemap getEntityInfo _ _ Hclass) as Hmt1.
    assert (Hcase :
      (k ∈ InstAttr (e_class obj) \/ k ∈ InstRel (e_class obj))
      /\ e_mrels obj1 = e_mrels obj
      /\ (forall mt, m1 = Some mt -> mreltypes obj = Ok mt)
      \/ (k ∉ InstAttr (e_class obj)) /\ (k ∉ InstRel (e_class obj))
         /\ k ∈ InstMRel (e_class obj)
         /\ exists mt, mreltypes obj = Ok mt /\ m1 = Some mt
            /\ (forall b, b <> k -> getmrel obj1 b = getmrel obj b)
            /\ match v with
               | VList l =>
                   exists cs,
                     getmrel obj1 k = getmrel obj k ++ cs
                     /\ Forall2 (fun rd o => exists t st1 st2,
                                    dict_get mt k = Some t
                                    /\ dec rd t st1 = (Ok o, st2)) l cs
               | _ => True
               end).
    { destruct (bool_decide (k ∈ InstAttr (e_class obj))) eqn:Hka.
      { apply bool_decide_eq_true in Hka. destruct Hstep as (-> & _ & ->).
        left. by eauto. }
      apply bool_decide_eq_false in Hka.
      destruct (bool_decide (k ∈ InstRel (e_class obj))) eqn:Hkr.
      { apply bool_decide_eq_true in Hkr. destruct Hstep as (robj & _ & -> & ->).
        left. by eauto. }
      apply bool_decide_eq_false in Hkr.
      destruct Hstep as (Hkm & mt & Hmt & -> & Hc). right.
      split; [done|]. split; [done|]. split; [done|]. exists mt.
      split; [destruct m as [mt'|]; simpl in Hmt; [injection Hmt as ->; by apply Hm|done]|].
      split; [done|].
      destruct v;
        lazymatch type of Hc with
        | _ /\ _ =>
            destruct Hc as [Hc _]; split; [|done];
            by destruct (decode_children_nonlist_spec _ _ _ _ _ Hc) as (_ & _ & ?)
        | _ =>
            destruct (decode_children_spec _ _ _ _ _ _ _ _ Hc)
              as (_ & _ & cs & Hcs & HF);
            split;
            [intros b Hb; by rewrite Hcs, decide_False
            |exists cs; split; [by rewrite Hcs, decide_True|done]]
        end. }
    specialize (IH obj1 m1 st1 obj' st' Hwf).
    rewrite Hclass, Hmt1 in IH. cbn [dict_get].
    destruct Hcase as [(Hk1 & Hmrels & Hm1)|(Hka & Hkr & Hkm & mt & Hmt & -> & Hother & Hv)].
    + specialize (IH Hm1 Hrest a). rewrite (getmrel_mrels _ _ a Hmrels) in IH.
      destruct (decide (a = k)) as [->|Hne]; [|done].
      rewrite bool_decide_false in IH |- * by (intros (? & ? & _); by destruct Hk1).
      done.
    + assert (Hm1 : forall mt', Some mt = Some mt' -> mreltypes obj = Ok mt').
      { by intros mt' [= <-]. }
      specialize (IH Hm1 Hrest a).
      destruct (decide (a = k)) as [->|Hne].
      * rewrite bool_decide_true in IH |- * by done. rewrite Hk in IH.
        destruct v; try done. destruct Hv as (cs & Hcs & HF).
        exists mt, cs. split; [done|]. split; [|done]. by rewrite IH.
      * by rewrite (Hother a Hne) in IH.
Qed.

(** X9.  In the entity decoded from a dict, the collection of a one to
    many relation that the class declares holds one child for each
    record of the list that the dict gives for it, in the order of the
    list, each decoded from its record as an entity of the type that
    the service reports for the relation; a collection for which the
    dict has no list is empty. *)
Theorem dict2entity_children items objtype st obj st' a :
  dict_wf items ->
  decode (VDict items) objtype st = (Ok obj, st') ->
  match (if bool_decide ((a ∉ InstAttr (e_class obj)) /\ (a ∉ InstRel (e_class obj))
                         /\ a ∈ InstMRel (e_class obj))
         then dict_get items a else None) with
  | Some (VList l) =>
      exists mt,
        mreltypes obj = Ok mt
        /\ Forall2 (fun rd o => exists t st1 st2,
                       dict_get mt a = Some t
                       /\ decode rd t st1 = (Ok o, st2)
                       /\ dict_get typemap t = Some (e_class o))
                   l (getmrel obj a)
  | Some _ => True
  | None => getmrel obj a = []
  end.
Proof.
  intros Hwf. rewrite dict2entity_dict.
  destruct (new objtype) as [obj0|] eqn:Hnew; [|done].
  apply client_new_class in Hnew as [_ Hobj0]. intros Hd.
  pose proof (decode_fields_class _ _ _ _ _ _ _ _ _ _ Hd) as Hclass.
  pose proof (decode_fields_mrels _ _ _ _ _ _ _ _ Hwf (fun mt (H : None = Some mt) =>
                match H with end) Hd a) as H.
  rewrite <- Hclass in H.
  rewrite (mreltypes_of_class typemap getEntityInfo obj0 obj) in H by done.
  assert (Hnil : getmrel obj0 a = []) by (by rewrite Hobj0).
  rewrite Hnil in H.
  destruct (if bool_decide _ then _ else _) as [v|]; [|done].
  destruct v; try done. destruct H as (mt & cs & Hmt & -> & HF).
  exists mt. split; [done|]. simpl. eapply Forall2_impl; [exact HF|].
  intros rd o (t & st1 & st2 & Ht & Hdec). exists t, st1, st2.
  split; [done|]. split; [done|]. by eapply dict2entity_class.
Qed.

(** *** Records that are not dicts *)

(** X10.  A record that is not a dict is decoded without an exception
    only when it is an empty string or an empty list: the result is
    then a new entity with nothing set, and the state is as before.
    Every other value, [None] and a number among them, makes
    [dict2entity] raise. *)
Theorem dict2entity_not_a_dict d objtype st obj st' :
  (forall items, d <> VDict items) ->
  dict2entity typemap getEntityInfo d objtype st = (Ok obj, st')
  <-> (d = VStr "" \/ d = VUnicode [] \/ d = VList [])
      /\ client_new typemap objtype = Ok obj /\ st' = st.
Proof.
  intros Hd. split.
  - intros Hdec.
    assert (Hnd : dict2entity_nondict typemap getEntityInfo d objtype = Ok obj
                  /\ st' = st).
    { destruct d as [| | | | | | | | |items];
        [injection Hdec as H1 H2; by split..|by destruct (Hd items)]. }
    destruct Hnd as [Hnd ->]. split; [|split; [by eapply dict2entity_nondict_Ok|done]].
    unfold dict2entity_nondict in Hnd.
    destruct (new objtype) as [obj0|]; simpl in Hnd; [|done].
    destruct (py_iter d) as [attrs|] eqn:Hiter; simpl in Hnd; [|done].
    destruct attrs as [|x attrs].
    + destruct d as [| | | | | |s|u|l|items]; try done.
      * destruct s; [by left|done].
      * destruct u; [by right; left|done].
      * injection Hiter as ->. by right; right.
      * by destruct (Hd items).
    + simpl in Hnd.
      destruct (decode_field_nondict_Raise typemap getEntityInfo obj0 objtype x) as [e He].
      by rewrite He in Hnd.
  - intros (Hcase & Hnew & ->).
    destruct Hcase as [ -> | [ -> | -> ] ]; cbn [dict2entity]; unfold dict2entity_nondict;
      by rewrite Hnew.
Qed.

(** *** The types of the children that cannot be found *)

End DecoderLookup.

(** ** The type names of the children *)

Lemma insttypemap_fold (l : list (string * schema)) (m : dict string) b :
  dict_get (foldl (fun m tc => dict_set m (BeanName tc.2) tc.1) m l) b
  = match last (filter (fun tc => BeanName tc.2 = b) l) with
    | Some tc => Some tc.1
    | None => dict_get m b
    end.
Proof.
  revert m. induction l as [|tc l IH]; intros m; [done|].
  cbn [foldl]. rewrite IH, filter_cons.
  destruct (decide (BeanName tc.2 = b)) as [<-|Hne].
  - rewrite last_cons. destruct (last (filter _ l)); [done|].
    by rewrite dict_get_set_eq.
  - destruct (last (filter _ l)); [done|]. by rewrite dict_get_set_ne.
Qed.

(** X11.  The map from bean names to type names that the reader builds
    from the type map of the client gives, for a bean name, the type
    name of the last entry of the type map whose class has that bean
    name, and nothing for a bean name that no class of the type map
    has. *)
Theorem insttypemap_lookup (typemap : list (string * schema)) b :
  dict_get (insttypemap typemap) b
  = fst <$> last (filter (fun tc => BeanName tc.2 = b) typemap).
Proof.
  unfold insttypemap. rewrite insttypemap_fold. by destruct (last _).
Qed.

Section MRelTypes.
Context (typemap : dict schema)
        (getEntityInfo : string -> result (list field_info)).

Local Abbreviation many a := (fun f => f_relType f = "MANY" /\ f_name f = a).

Lemma mreltypes_fold (info : list field_info) (m mt : dict string) :
  foldM (fun m f =>
           if decide (f_relType f = "MANY") then
             match dict_get (insttypemap typemap) (f_type f) with
             | Some t => Ok (dict_set m (f_name f) t)
             | None => Raise (KeyError (f_type f))
             end
           else Ok m) m info = Ok mt ->
  Forall (fun f => f_relType f = "MANY" ->
                   is_Some (dict_get (insttypemap typemap) (f_type f))) info
  /\ forall a,
      dict_get mt a
      = match last (filter (many a) info) with
        | Some f => dict_get (insttypemap typemap) (f_type f)
        | None => dict_get m a
        end.
Proof.
  revert m. induction info as [|f info IH]; intros m.
  - intros [= <-]. split; [constructor|done].
  - cbn [foldM]. destruct (decide (f_relType f = "MANY")) as [Hmany|Hone].
    + destruct (dict_get (insttypemap typemap) (f_type f)) as [t|] eqn:Ht; [|done].
      intros H. destruct (IH _ H) as [Hall Hget]. split.
      * constructor; [by rewrite Ht|done].
      * intros a. rewrite Hget, filter_cons.
        destruct (decide (many a f)) as [[_ <-]|Hne].
        -- rewrite last_cons. destruct (last (filter _ info)); [done|].
           by rewrite dict_get_set_eq.
        -- destruct (last (filter _ info)); [done|].
           rewrite dict_get_set_ne; [done|]. intros ->. by apply Hne.
    + intros H. destruct (IH _ H) as [Hall Hget]. split.
      * by constructor.
      * intros a. rewrite Hget, filter_cons.
        rewrite decide_False; [done|]. by intros [? _].
Qed.

(** X12.  The types of the children that [dict2entity] computes for an
    entity are, for each name, the type name that the reader has for
    the type of the last field with that name that the service reports
    as a one to many relation; they are computed only when the reader
    has a type name for the type of every such field. *)
Theorem mreltypes_of_lookup obj mt :
  mreltypes_of typemap getEntityInfo obj = Ok mt ->
  exists info,
    getEntityInfo (BeanName (e_class obj)) = Ok info
    /\ Forall (fun f => f_relType f = "MANY" ->
                        is_Some (dict_get (insttypemap typemap) (f_type f))) info
    /\ forall a,
        dict_get mt a
        = (f ← last (filter (many a) info);
           dict_get (insttypemap typemap) (f_type f)).
Proof.
  unfold mreltypes_of.
  destruct (getEntityInfo (BeanName (e_class obj))) as [info|]; simpl; [|done].
  intros H. exists info. split; [done|].
  destruct (mreltypes_fold _ _ _ H) as [Hall Hget]. split; [done|].
  intros a. rewrite Hget. by destruct (last _).
Qed.
End MRelTypes.

(** ** What the encoder keeps of a value *)

Lemma text_encode_ascii u :
  is_ascii u = true -> N_of_ascii <$> list_ascii_of_string (encode_ascii u) = u.
Proof.
  unfold encode_ascii, is_ascii. rewrite list_ascii_of_string_of_list_ascii.
  induction u as [|c u IH]; cbn [map forallb]; [done|].
  intros [Hc Hu]%andb_prop. rewrite fmap_cons, (IH Hu). f_equal.
  apply N_ascii_embedding. apply N.ltb_lt in Hc. lia.
Qed.

Section EncoderValues.
Context (maxint : Z) (builtin_str : pyval -> string) (keyindex : Type)
        (getUniqueKey : entity -> keyindex -> result string)
        (sortkey_t : Type) (sortkey : entity -> sortkey_t)
        (sortkey_lt : sortkey_t -> sortkey_t -> bool).

Local Abbreviation encode :=
  (entity2dict maxint builtin_str keyindex getUniqueKey sortkey_t sortkey sortkey_lt).

Lemma entity2dict_attr obj ki d a :
  schema_wf (e_class obj) -> encode obj ki = Ok d ->
  a ∈ InstAttr (e_class obj) -> a <> "id" -> is_None (getattr obj a) = false ->
  exists v,
    encode_value maxint builtin_str (getattr obj a) = Ok v /\ dict_get d a = Some v.
Proof.
  intros Hwf Hd Ha Hid Hv.
  destruct (entity2dict_value _ _ _ _ _ _ _ _ _ _ _ Hd Ha Hid Hv) as [v Hval].
  exists v. split; [done|].
  rewrite (entity2dict_get _ _ _ _ _ _ _ _ _ _ _ Hd).
  rewrite field_attr by done. by rewrite (bool_decide_false _ Hid), Hv, Hval.
Qed.

(** X13.  The record does not depend on the [id] of the entity: giving
    the entity another [id] changes neither the record nor the
    exception. *)
Theorem entity2dict_ignores_id obj ki v :
  encode (setattr obj "id" v) ki = encode obj ki.
Proof.
  rewrite !entity2dict_eq.
  replace (e_class (setattr obj "id" v)) with (e_class obj) by done.
  rewrite (foldM_ext_elem (encode_attr maxint builtin_str (setattr obj "id" v))
                          (encode_attr maxint builtin_str obj)).
  2: { intros s a _. unfold encode_attr.
       destruct (decide (a = "id")) as [->|Hne]; [done|].
       by rewrite getattr_setattr, decide_False. }
  done.
Qed.

(** X14.  An integer attribute is stored in the record with its value,
    whether the entity holds it as an [int] or as a [long]; it is
    stored as an [int] whenever the value fits into one. *)
Theorem entity2dict_integer obj ki d a z :
  schema_wf (e_class obj) -> encode obj ki = Ok d ->
  a ∈ InstAttr (e_class obj) -> a <> "id" ->
  int_value (getattr obj a) = Some z ->
  exists v,
    dict_get d a = Some v /\ int_value v = Some z
    /\ ((- maxint - 1 <= z <= maxint)%Z -> v = VInt z).
Proof.
  intros Hwf Hd Ha Hid Hz.
  destruct (entity2dict_attr obj ki d a) as (v & Hv & Hget);
    [done..|by destruct (getattr obj a)|].
  exists v. split; [done|]. clear Hget.
  destruct (getattr obj a) as [| |z'|z'| | | | | |]; try done;
    injection Hz as ->; injection Hv as <-; simpl; [done|].
  - destruct ((- maxint - 1 <=? z)%Z && (z <=? maxint)%Z) eqn:Hfit; simpl.
    + done.
    + split; [done|]. intros [H1 H2].
      apply Z.leb_le in H1, H2. by rewrite H1, H2 in Hfit.
Qed.

(** X15.  A string attribute is stored in the record with its
    characters: a byte string as it is, and a unicode string as the
    byte string of its characters when they are all ASCII and as it is
    otherwise. *)
Theorem entity2dict_text obj ki d a u :
  schema_wf (e_class obj) -> encode obj ki = Ok d ->
  a ∈ InstAttr (e_class obj) -> a <> "id" ->
  text (getattr obj a) = Some u ->
  exists v,
    dict_get d a = Some v /\ text v = Some u
    /\ (is_ascii u = true -> exists s, v = VStr s)
    /\ (is_ascii u = false -> v = getattr obj a).
Proof.
  intros Hwf Hd Ha Hid Hu.
  destruct (entity2dict_attr obj ki d a) as (v & Hv & Hget);
    [done..|by destruct (getattr obj a)|].
  exists v. split; [done|]. clear Hget.
  - destruct (getattr obj a) as [| | | | | |s|u'| |]; try done;
      injection Hu as <-; injection Hv as <-; simpl.
    + split; [done|]. split; [by eauto|done].
    + destruct (is_ascii u') eqn:Hascii; simpl.
      * split; [by rewrite text_encode_ascii|]. split; [by eauto|done].
      * done.
Qed.
End EncoderValues.

(** ** The classes of [icat/entities.py] *)

(** X25.  Every class statement of [icat/entities.py] defines a class
    of its own: its base class is defined before it, and no name is
    defined twice.  In every class that has a bean name, no name is at
    once an attribute and a relation, or a many to one and a one to
    many relation, and [id] is not a relation, so that the order of
    the tests in [dict2entity] does not matter for them. *)
Theorem entities_py_wf :
  (define_classes entities_py).*1 = c_name <$> entities_py
  /\ Forall schema_wf entity_classes.
Proof.
  split.
  - vm_compute. reflexivity.
  - apply (bool_decide_unpack _). vm_compute. reflexivity.
Qed.

(** ** Chunked transfer encoding *)

(** *** Byte strings *)

Lemma str_app_cons (x : ascii) (a b : string) : String x a +:+ b = String x (a +:+ b).
Proof. reflexivity. Qed.

Lemma str_app_nil_l (b : string) : EmptyString +:+ b = b.
Proof. reflexivity. Qed.

Lemma str_app_assoc (a b c : string) : (a +:+ b) +:+ c = a +:+ b +:+ c.
Proof.
  induction a as [|x a IH]; [done|]. rewrite !str_app_cons. by rewrite IH.
Qed.

Lemma str_app_nil_r (s : string) : s +:+ EmptyString = s.
Proof. induction s as [|x s IH]; [done|]. rewrite str_app_cons. by rewrite IH. Qed.

Lemma str_length_app (a b : string) :
  String.length (a +:+ b) = String.length a + String.length b.
Proof.
  induction a as [|x a IH]; [done|]. rewrite str_app_cons. simpl. by rewrite IH.
Qed.

Lemma str_take_drop n s : str_take n s +:+ str_drop n s = s.
Proof.
  revert s. induction n as [|n IH]; intros [|c s]; simpl; try done.
  rewrite str_app_cons. by rewrite IH.
Qed.

Lemma str_take_app (a b : string) : str_take (String.length a) (a +:+ b) = a.
Proof.
  induction a as [|x a IH]; [by destruct b|]. rewrite str_app_cons. simpl.
  by rewrite IH.
Qed.

Lemma str_drop_app (a b : string) : str_drop (String.length a) (a +:+ b) = b.
Proof. induction a as [|x a IH]; [done|]. rewrite str_app_cons. simpl. apply IH. Qed.

Lemma str_take_length n s : String.length (str_take n s) = min n (String.length s).
Proof.
  revert s. induction n as [|n IH]; intros [|c s]; simpl; try done.
  by rewrite IH.
Qed.

Lemma str_join_app (l1 l2 : list string) :
  str_join (l1 ++ l2) = str_join l1 +:+ str_join l2.
Proof.
  induction l1 as [|x l1 IH]; [done|].
  change (x +:+ str_join (l1 ++ l2) = (x +:+ str_join l1) +:+ str_join l2).
  by rewrite str_app_assoc, IH.
Qed.

Lemma str_length_pos (s : string) : 0 < String.length s <-> s <> EmptyString.
Proof. destruct s; simpl; split; (done || lia). Qed.

(** *** The iterators *)

Lemma fileiterator_eq f chunksize :
  fileiterator f chunksize
  = match (file_read f chunksize).1 with
    | EmptyString => []
    | chunk => chunk :: fileiterator (file_read f chunksize).2 chunksize
    end.
Proof.
  funelim (fileiterator f chunksize);
    match goal with E : file_read _ _ = _ |- _ => by rewrite E end.
Qed.

Lemma str_take_nil n s : 0 < n -> str_take n s = EmptyString -> s = EmptyString.
Proof. destruct n; [lia|]. by destruct s. Qed.

Lemma fileiterator_pos f chunksize :
  (0 < chunksize)%Z ->
  fileiterator f chunksize
  = if decide (f = EmptyString) then []
    else str_take (Z.to_nat chunksize) f
         :: fileiterator (str_drop (Z.to_nat chunksize) f) chunksize.
Proof.
  intros Hpos. rewrite fileiterator_eq. unfold file_read.
  rewrite (proj2 (Z.ltb_ge chunksize 0)) by lia. simpl.
  destruct (decide (f = EmptyString)) as [->|Hne].
  - by destruct (Z.to_nat chunksize).
  - destruct (str_take (Z.to_nat chunksize) f) eqn:Htake; [|done].
    apply str_take_nil in Htake; [done|lia].
Qed.

Lemma fileiterator_pos_chunks f chunksize :
  (0 < chunksize)%Z ->
  str_join (fileiterator f chunksize) = f
  /\ Forall (fun c => c <> EmptyString) (fileiterator f chunksize).
Proof.
  intros Hpos. remember (String.length f) as n eqn:Hn. revert f Hn.
  induction (lt_wf n) as [n _ IH]. intros f ->.
  rewrite (fileiterator_pos f) by done.
  destruct (decide (f = EmptyString)) as [->|Hne]; [by repeat constructor|].
  set (k := Z.to_nat chunksize). assert (0 < k) by lia.
  assert (Hf : 0 < String.length f) by (by apply str_length_pos).
  pose proof (str_take_drop_length k f) as Hlen.
  pose proof (str_take_length k f) as Htake.
  destruct (IH (String.length (str_drop k f)) ltac:(lia) _ eq_refl) as (Hjoin & Hall).
  split.
  - change (str_take k f +:+ str_join (fileiterator (str_drop k f) chunksize) = f).
    rewrite Hjoin. apply str_take_drop.
  - constructor; [|done]. apply str_length_pos. lia.
Qed.

(** X16.  Read with a positive chunk size, the chunks of a file make
    up the content of the file; none of them is empty or longer than
    the chunk size, and all of them but the last have exactly that
    size. *)
Theorem fileiterator_chunks f chunksize :
  (0 < chunksize)%Z ->
  let chunks := fileiterator f chunksize in
  str_join chunks = f
  /\ Forall (fun c => 0 < String.length c <= Z.to_nat chunksize) chunks
  /\ Forall (fun c => String.length c = Z.to_nat chunksize)
            (take (pred (length chunks)) chunks).
Proof.
  intros Hpos. cbv zeta.
  remember (String.length f) as n eqn:Hn. revert f Hn.
  induction (lt_wf n) as [n _ IH]. intros f ->.
  rewrite (fileiterator_pos f) by done.
  destruct (decide (f = EmptyString)) as [->|Hne]; [by repeat constructor|].
  set (k := Z.to_nat chunksize). assert (0 < k) by lia.
  assert (Hf : 0 < String.length f) by (by apply str_length_pos).
  pose proof (str_take_drop_length k f) as Hlen.
  pose proof (str_take_length k f) as Htake.
  destruct (IH (String.length (str_drop k f)) ltac:(lia) _ eq_refl)
    as (Hjoin & Hall & Hfull).
  split; [|split].
  - simpl. rewrite Hjoin. apply str_take_drop.
  - constructor; [lia|done].
  - simpl. destruct (fileiterator (str_drop k f) chunksize) as [|c rest] eqn:Hrest;
      [constructor|].
    simpl. constructor; [|done].
    rewrite (fileiterator_pos (str_drop k f)) in Hrest by done.
    destruct (decide (str_drop k f = EmptyString)) as [Hd|Hdrop].
    { by rewrite decide_True in Hrest by done. }
    apply str_length_pos in Hdrop. lia.
Qed.

(** X17.  With the chunk size 0 a file yields no chunk at all, whatever
    its content; with a negative chunk size it yields its content in a
    single chunk, as a string does. *)
Theorem fileiterator_degenerate f chunksize :
  (chunksize <= 0)%Z ->
  fileiterator f chunksize
  = if decide (chunksize = 0%Z) then [] else stringiterator f.
Proof.
  intros Hle. rewrite fileiterator_eq. unfold file_read.
  destruct (decide (chunksize = 0%Z)) as [->|Hne]; [done|].
  rewrite (proj2 (Z.ltb_lt chunksize 0)) by lia. simpl.
  destruct f as [|c f]; [done|].
  rewrite fileiterator_eq. unfold file_read.
  by rewrite (proj2 (Z.ltb_lt chunksize 0)) by lia.
Qed.

(** *** Reading the frames back *)

Lemma hex_digits_eq n :
  hex_digits n
  = if decide (n < 16)%N then String (hex_digit n) EmptyString
    else hex_digits (n / 16) +:+ String (hex_digit (n mod 16)) EmptyString.
Proof.
  rewrite hex_digits_equation_1. unfold hex_digits_clause_1.
  by destruct (decide (n < 16)%N).
Qed.

Lemma hex_value_digit d : (d < 16)%N -> hex_value (hex_digit d) = Some d.
Proof.
  intros Hd.
  assert (Hall : Forall (fun z => hex_value (hex_digit (Z.to_N z)) = Some (Z.to_N z))
                        (seqZ 0 16)).
  { apply (bool_decide_unpack _). vm_compute. reflexivity. }
  rewrite Forall_forall in Hall. specialize (Hall (Z.of_N d)).
  rewrite N2Z.id in Hall. apply Hall, elem_of_seqZ. lia.
Qed.

Lemma read_hex_from_digits n :
  forall rest, read_hex_from 0 (hex_digits n +:+ rest) = read_hex_from n rest.
Proof.
  induction (N.lt_wf_0 n) as [n _ IH]. intros rest.
  rewrite hex_digits_eq. destruct (decide (n < 16)%N) as [Hlt|Hge].
  - rewrite str_app_cons, str_app_nil_l. cbn [read_hex_from].
    rewrite hex_value_digit by done. f_equal; lia.
  - rewrite str_app_assoc, str_app_cons, str_app_nil_l.
    rewrite IH by (apply N.div_lt; lia). cbn [read_hex_from].
    rewrite hex_value_digit by (apply N.mod_lt; lia).
    pose proof (N.div_mod n 16). f_equal; lia.
Qed.

Lemma hex_digits_head n :
  exists c s, hex_digits n = String c s /\ is_Some (hex_value c).
Proof.
  induction (N.lt_wf_0 n) as [n _ IH].
  rewrite hex_digits_eq. destruct (decide (n < 16)%N) as [Hlt|Hge].
  - eexists _, _. split; [done|]. by rewrite hex_value_digit.
  - destruct (IH (n / 16)%N) as (c & s & -> & Hc); [apply N.div_lt; lia|].
    rewrite str_app_cons. by eexists _, _.
Qed.

Lemma read_chunk_size_frame n rest :
  read_chunk_size (hex_digits n +:+ crlf +:+ rest) = Some (n, crlf +:+ rest).
Proof.
  unfold read_chunk_size.
  destruct (hex_digits_head n) as (c & s & Heq & [d Hd]).
  pose proof (read_hex_from_digits n (crlf +:+ rest)) as Hread.
  rewrite Heq in Hread |- *. rewrite str_app_cons in Hread |- *. rewrite Hd.
  by rewrite Hread.
Qed.

Lemma read_crlf_app rest : read_crlf (crlf +:+ rest) = Some rest.
Proof. reflexivity. Qed.

Lemma dechunk_last fuel rest :
  dechunk (S fuel) (last_chunk +:+ rest) = Some (EmptyString, rest).
Proof. reflexivity. Qed.

Lemma chunk_frame_nil : chunk_frame EmptyString = last_chunk.
Proof. reflexivity. Qed.

(** The frames of chunks none of which is empty, followed by the last
    chunk, carry the chunks. *)
Lemma dechunk_frames chunks :
  Forall (fun c => c <> EmptyString) chunks ->
  forall fuel rest,
    length chunks < fuel ->
    dechunk fuel (str_join (chunk_frame <$> chunks) +:+ last_chunk +:+ rest)
    = Some (str_join chunks, rest).
Proof.
  induction 1 as [|c chunks Hc _ IH]; intros fuel rest Hfuel.
  - destruct fuel as [|fuel]; [lia|]. apply dechunk_last.
  - destruct fuel as [|fuel]; [simpl in Hfuel; lia|].
    rewrite fmap_cons.
    change (str_join (chunk_frame c :: (chunk_frame <$> chunks)))
      with (chunk_frame c +:+ str_join (chunk_frame <$> chunks)).
    unfold chunk_frame at 1. rewrite !str_app_assoc.
    cbn [dechunk]. rewrite read_chunk_size_frame. cbn [mbind option_bind fst snd].
    rewrite read_crlf_app. cbn [mbind option_bind].
    apply str_length_pos in Hc.
    rewrite decide_False by lia. rewrite Nat2N.id.
    rewrite decide_True by (rewrite str_length_app; lia).
    rewrite str_drop_app, str_take_app, read_crlf_app. cbn [mbind option_bind].
    rewrite IH by (simpl in Hfuel; lia). done.
Qed.

Lemma bodyiter_content b s :
  body_content b = Some s ->
  exists chunks,
    bodyiter b = Returns chunks
    /\ str_join chunks = s
    /\ Forall (fun c => c <> EmptyString) chunks.
Proof.
  assert (Hstr : forall s, str_join (stringiterator s) = s
                           /\ Forall (fun c => c <> EmptyString) (stringiterator s)).
  { intros s'. unfold stringiterator. case_bool_decide as Hlen.
    - split; [apply str_app_nil_r|]. constructor; [|done]. by apply str_length_pos.
    - split; [|done]. destruct s'; [done|]. simpl in Hlen. lia. }
  destruct b as [s'|u|f|chunks|]; simpl; try done.
  - intros [= <-]. exists (stringiterator s'). by destruct (Hstr s').
  - destruct (is_ascii u); [|done]. intros [= <-].
    exists (stringiterator (encode_ascii u)). by destruct (Hstr (encode_ascii u)).
  - intros [= <-]. exists (fileiterator f 8192).
    by destruct (fileiterator_pos_chunks f 8192 eq_refl) as (Hjoin & Hall).
Qed.

Lemma length_str_join chunks :
  Forall (fun c => c <> EmptyString) chunks ->
  length chunks <= String.length (str_join chunks).
Proof.
  induction 1 as [|c chunks Hc _ IH]; [done|].
  change (str_join (c :: chunks)) with (c +:+ str_join chunks).
  rewrite str_length_app. apply str_length_pos in Hc. simpl. lia.
Qed.

(** *** The body that is sent *)

(** X18.  The body of a request that is a string or a file reaches the
    connection whole.  Sent as it is, the pieces that are sent make up
    the content, and none of them is empty.  Sent chunked, the frames
    that are sent are read back by the receiver as exactly the content,
    with nothing of the stream left over. *)
Theorem send_body_content b s conn :
  body_content b = Some s ->
  (exists pieces,
      send_body (Some b) false conn = (Returns (), conn ++ (Send <$> pieces))
      /\ str_join pieces = s
      /\ Forall (fun c => c <> EmptyString) pieces)
  /\ (exists frames,
        send_body (Some b) true conn = (Returns (), conn ++ (Send <$> frames))
        /\ forall fuel rest,
            String.length s < fuel ->
            dechunk fuel (str_join frames +:+ rest) = Some (s, rest)).
Proof.
  intros Hb. destruct (bodyiter_content b s Hb) as (chunks & Hiter & Hjoin & Hne).
  unfold send_body. rewrite Hiter. split.
  - by exists chunks.
  - exists ((chunk_frame <$> chunks) ++ [last_chunk]). split.
    + by rewrite fmap_app, <- list_fmap_compose.
    + intros fuel rest Hfuel. rewrite str_join_app.
      change (str_join [last_chunk]) with (last_chunk +:+ EmptyString).
      rewrite !str_app_assoc, str_app_nil_l.
      rewrite <- Hjoin. apply dechunk_frames; [done|].
      pose proof (length_str_join chunks Hne) as Hlen. rewrite Hjoin in Hlen. lia.
Qed.

(** X19.  An empty chunk of an iterable body is sent as the frame that
    ends a chunked body: the receiver reads the chunks before it as
    the whole body, and the frames of the chunks after it, with the
    frame that was meant to end the body, are left over in the
    stream. *)
Theorem send_body_empty_chunk cs1 cs2 conn :
  Forall (fun c => c <> EmptyString) cs1 ->
  exists frames,
    send_body (Some (BodyIter (cs1 ++ EmptyString :: cs2))) true conn
    = (Returns (), conn ++ (Send <$> frames))
    /\ forall fuel,
        length cs1 < fuel ->
        dechunk fuel (str_join frames)
        = Some (str_join cs1, str_join (chunk_frame <$> cs2) +:+ last_chunk).
Proof.
  intros Hne.
  exists ((chunk_frame <$> cs1 ++ EmptyString :: cs2) ++ [last_chunk]). split.
  - unfold send_body. cbn [bodyiter]. by rewrite (fmap_app Send), <- list_fmap_compose.
  - intros fuel Hfuel. rewrite fmap_app, fmap_cons, chunk_frame_nil.
    rewrite !str_join_app.
    change (str_join (last_chunk :: (chunk_frame <$> cs2)))
      with (last_chunk +:+ str_join (chunk_frame <$> cs2)).
    change (str_join [last_chunk]) with (last_chunk +:+ EmptyString).
    rewrite !str_app_assoc, str_app_nil_r.
    by apply dechunk_frames.
Qed.

(** *** The request *)

Lemma lower_names_fold (l : list string) (m : dict string) name :
  dict_get (foldl (fun m k => dict_set m (lower k) k) m l) name
  = match last (filter (fun k => lower k = name) l) with
    | Some k => Some k
    | None => dict_get m name
    end.
Proof.
  revert m. induction l as [|k l IH]; intros m; [done|].
  cbn [foldl]. rewrite IH, filter_cons.
  destruct (decide (lower k = name)) as [<-|Hne].
  - rewrite last_cons. destruct (last (filter _ l)); [done|].
    by rewrite dict_get_set_eq.
  - destruct (last (filter _ l)); [done|]. by rewrite dict_get_set_ne.
Qed.

Lemma last_filter_keys (headers : list (string * string)) name :
  last (filter (fun k => lower k = name) headers.*1)
  = fst <$> last (filter (fun kv => lower kv.1 = name) headers).
Proof.
  induction headers as [|[k v] headers IH]; [done|].
  rewrite fmap_cons, !filter_cons. simpl.
  destruct (decide (lower k = name)); [|done].
  rewrite !last_cons, IH. by destruct (last (filter _ headers)).
Qed.

Lemma header_names_get (headers : list (string * string)) name :
  dict_get (header_names headers) name
  = fst <$> last (filter (fun kv => lower kv.1 = name) headers).
Proof.
  unfold header_names. rewrite lower_names_fold, last_filter_keys.
  by destruct (last _).
Qed.

Lemma header_names_has (headers : list (string * string)) name :
  dict_has (header_names headers) name
  = bool_decide (Exists (fun kv => lower kv.1 = name) headers).
Proof.
  unfold dict_has. rewrite header_names_get. apply bool_decide_ext.
  rewrite fmap_is_Some. rewrite last_is_Some.
  split.
  - intros Hne. destruct (filter _ headers) as [|kv l] eqn:Hf; [done|].
    assert (Hin : kv ∈ filter (fun kv => lower kv.1 = name) headers)
      by (rewrite Hf; left).
    apply list_elem_of_filter in Hin as [Hkv Hin].
    apply Exists_exists. by exists kv.
  - intros (kv & Hin & Hkv)%Exists_exists Hnil.
    assert (Hf : kv ∈ filter (fun kv => lower kv.1 = name) headers)
      by (by apply list_elem_of_filter).
    rewrite Hnil in Hf. by apply elem_of_nil in Hf.
Qed.

(** X20.  [_send_request] sends the body chunked exactly when the last
    of the headers whose name is [Transfer-Encoding], in whatever case,
    has the value [chunked]; it sends the body as it is when there is
    no such header.  Any other value of that header ends the call with
    an exception, a [NameError], after the request line has been put
    and before any header is.  The host and the accepted encodings are
    left to the caller exactly when a header of that name is given. *)
Theorem send_request_transfer_encoding method url body (headers : list (string * string))
    conn :
  dict_wf headers ->
  let named name := bool_decide (Exists (fun kv => lower kv.1 = name) headers) in
  let start :=
    conn ++ [PutRequest method url (named "host") (named "accept-encoding")] in
  let sent := start ++ ((fun kv => PutHeader kv.1 kv.2) <$> headers) ++ [EndHeaders] in
  _send_request method url body headers conn
  = match last (filter (fun kv => lower kv.1 = "transfer-encoding") headers) with
    | None => send_body body false sent
    | Some kv =>
        if decide (kv.2 = "chunked") then send_body body true sent
        else (Raises (NameError "HTTPException"), start)
    end.
Proof.
  intros Hwf. cbv zeta. unfold _send_request. cbv zeta.
  rewrite !header_names_has, header_names_get.
  destruct (last (filter _ headers)) as [[k v]|] eqn:Hlast; simpl; [|done].
  assert (Hin : (k, v) ∈ headers).
  { apply last_Some_elem_of in Hlast. by apply list_elem_of_filter in Hlast as [_ ?]. }
  rewrite (dict_get_elem _ _ _ Hwf Hin).
  by destruct (decide (v = "chunked")).
Qed.

Lemma put_headers_app conn conn' :
  put_headers (conn ++ conn') = put_headers conn ++ put_headers conn'.
Proof. apply omap_app. Qed.

Lemma put_headers_puts (headers : list (string * string)) :
  put_headers ((fun kv => PutHeader kv.1 kv.2) <$> headers) = headers.
Proof.
  induction headers as [|[hdr value] headers IH]; [done|].
  unfold put_headers in *. simpl. f_equal. exact IH.
Qed.

Lemma put_headers_sends (sends : list string) : put_headers (Send <$> sends) = [].
Proof. by induction sends as [|chunk sends IH]. Qed.

(** X21.  The calls of [putheader] that [_send_request] makes are
    those for the headers that it is given, one for each header and in
    their order, so none for a [Content-Length] of its own making.  It
    makes them all whenever it returns, and whenever it gets as far as
    to end the headers; where it raises before, it has made none. *)
Theorem send_request_headers method url body headers conn r conn' :
  _send_request method url body headers conn = (r, conn') ->
  exists evs,
    conn' = conn ++ evs
    /\ (put_headers evs = headers \/ put_headers evs = [])
    /\ (r = Returns () -> put_headers evs = headers)
    /\ (EndHeaders ∈ evs -> put_headers evs = headers)
    /\ (EndHeaders ∉ evs -> put_headers evs = []).
Proof.
  unfold _send_request. cbv zeta.
  set (start := PutRequest _ _ _ _).
  set (puts := (fun kv => PutHeader kv.1 kv.2) <$> headers).
  assert (Hsent : forall sends : list string,
             put_headers ([start] ++ puts ++ [EndHeaders] ++ (Send <$> sends))
             = headers).
  { intros sends. rewrite !put_headers_app. unfold puts.
    rewrite put_headers_puts, put_headers_sends. simpl. by rewrite app_nil_r. }
  assert (Hend : forall sends : list string,
             EndHeaders ∈ [start] ++ puts ++ [EndHeaders] ++ (Send <$> sends)).
  { intros sends. rewrite !elem_of_app. right; right; left.
    by apply list_elem_of_singleton. }
  assert (Hbody : forall chunked r conn',
             send_body body chunked ((conn ++ [start]) ++ puts ++ [EndHeaders])
             = (r, conn') ->
             exists sends : list string,
               conn' = conn ++ [start] ++ puts ++ [EndHeaders] ++ (Send <$> sends)).
  { intros chunked r0 conn0. unfold send_body. destruct body as [b|].
    - destruct (bodyiter b) as [chunks|e].
      + destruct chunked; intros [= <- <-].
        * exists ((chunk_frame <$> chunks) ++ [last_chunk]).
          rewrite fmap_app, <- list_fmap_compose. by rewrite <- !app_assoc.
        * exists chunks. by rewrite <- !app_assoc.
      + intros [= <- <-]. exists []. simpl. by rewrite <- !app_assoc.
    - intros [= <- <-]. exists []. simpl. by rewrite <- !app_assoc. }
  assert (Hdone : forall chunked,
             send_body body chunked ((conn ++ [start]) ++ puts ++ [EndHeaders])
             = (r, conn') ->
             exists evs,
               conn' = conn ++ evs
               /\ (put_headers evs = headers \/ put_headers evs = [])
               /\ (r = Returns () -> put_headers evs = headers)
               /\ (EndHeaders ∈ evs -> put_headers evs = headers)
               /\ (EndHeaders ∉ evs -> put_headers evs = [])).
  { intros chunked [sends ->]%Hbody.
    exists ([start] ++ puts ++ [EndHeaders] ++ (Send <$> sends)).
    split; [done|]. split; [left; apply Hsent|].
    split; [intros _; apply Hsent|]. split; [intros _; apply Hsent|].
    intros Hno. destruct Hno. apply Hend. }
  assert (Hraise : forall e,
             (Raises e, conn ++ [start]) = (r, conn') ->
             exists evs,
               conn' = conn ++ evs
               /\ (put_headers evs = headers \/ put_headers evs = [])
               /\ (r = Returns () -> put_headers evs = headers)
               /\ (EndHeaders ∈ evs -> put_headers evs = headers)
               /\ (EndHeaders ∉ evs -> put_headers evs = [])).
  { intros e [= <- <-]. exists [start]. split; [done|]. split; [by right|].
    split; [done|]. split; [|done].
    by intros ?%list_elem_of_singleton. }
  destruct (dict_get (header_names headers) "transfer-encoding") as [k|].
  - destruct (dict_get headers k) as [v|].
    + destruct (decide (v = "chunked")); [apply Hdone|apply Hraise].
    + apply Hraise.
  - apply Hdone.
Qed.

(** *** The headers that the handler adds *)

Lemma ascii_upper_idem c : ascii_upper (ascii_upper c) = ascii_upper c.
Proof. destruct c as [[] [] [] [] [] [] [] []]; reflexivity. Qed.

Lemma ascii_lower_idem c : ascii_lower (ascii_lower c) = ascii_lower c.
Proof. destruct c as [[] [] [] [] [] [] [] []]; reflexivity. Qed.

Lemma lower_idem s : lower (lower s) = lower s.
Proof.
  induction s as [|c s IH]; [done|]. simpl. by rewrite ascii_lower_idem, IH.
Qed.

Lemma capitalize_idem s : capitalize (capitalize s) = capitalize s.
Proof.
  destruct s as [|c s]; [done|]. simpl. by rewrite ascii_upper_idem, lower_idem.
Qed.

Lemma has_header_add r key val name :
  has_header (add_unredirected_header r key val) name
  = bool_decide (name = capitalize key) || has_header r name.
Proof.
  unfold has_header, add_unredirected_header, dict_has. simpl.
  rewrite dict_get_set.
  destruct (decide (name = capitalize key)) as [->|Hne].
  - rewrite (bool_decide_true (capitalize key = capitalize key)) by done.
    rewrite (bool_decide_true (is_Some (Some val))) by (by eexists).
    by rewrite orb_true_r.
  - by rewrite (bool_decide_false _ Hne).
Qed.

Lemma has_header_false r name :
  has_header r name = false -> dict_get (r_unredirected_hdrs r) name = None.
Proof.
  unfold has_header, dict_has. intros [_ H]%orb_false_elim.
  apply bool_decide_eq_false in H.
  destruct (dict_get (r_unredirected_hdrs r) name); [|done].
  exfalso. apply H. by eexists.
Qed.

(** The loop over the default headers changes nothing of a header that
    the request has. *)
Lemma add_default_headers_keeps addheaders :
  forall r name,
    has_header r name = true ->
    r_headers (add_default_headers addheaders r) = r_headers r
    /\ r_data (add_default_headers addheaders r) = r_data r
    /\ dict_get (r_unredirected_hdrs (add_default_headers addheaders r)) name
       = dict_get (r_unredirected_hdrs r) name
    /\ has_header (add_default_headers addheaders r) name = true.
Proof.
  induction addheaders as [|[n v] l IH]; intros r name Hhas; [done|].
  cbn [add_default_headers foldl]. cbn [fst snd].
  destruct (has_header r (capitalize n)) eqn:Hn.
  - by apply IH.
  - assert (Hne : name <> capitalize n) by (intros ->; by rewrite Hhas in Hn).
    destruct (IH (add_unredirected_header r (capitalize n) v) name)
      as (Hh & Hd & Hget & Hhas').
    { rewrite has_header_add, Hhas. apply orb_true_r. }
    unfold add_default_headers in *. rewrite Hh, Hd, Hget, Hhas'.
    split; [done|]. split; [done|]. split; [|done].
    simpl. rewrite capitalize_idem. by rewrite dict_get_set_ne.
Qed.

Lemma add_default_headers_fields addheaders :
  forall r,
    r_headers (add_default_headers addheaders r) = r_headers r
    /\ r_data (add_default_headers addheaders r) = r_data r.
Proof.
  induction addheaders as [|[n v] l IH]; intros r; [done|].
  cbn [add_default_headers foldl]. cbn [fst snd].
  destruct (has_header r (capitalize n)); [apply IH|].
  destruct (IH (add_unredirected_header r (capitalize n) v)) as [Hh Hd].
  unfold add_default_headers in *. by rewrite Hh, Hd.
Qed.

(** X22.  [do_request_] returns exactly for a request that has a host,
    that has a [Content-type] header if it has data, and that does not
    go through a proxy; whether it returns depends neither on the other
    headers nor on the default headers of the opener. *)
Theorem do_request_returns addheaders r :
  (do_request_ addheaders r).1 = Returns ()
  <-> (exists host, r_host r = Some host /\ host <> EmptyString)
      /\ (is_Some (r_data r) -> has_header r "Content-type" = true)
      /\ r_has_proxy r = false.
Proof.
  unfold do_request_.
  destruct (r_host r) as [[|c host]|].
  2: { destruct (r_data r) as [data|].
       - destruct (has_header r "Content-type") eqn:Hct; simpl.
         + assert (Hproxy : forall r1, r_has_proxy r1 = r_has_proxy r ->
                     (if r_has_proxy r1
                      then (Raises (NameError "splittype"), r1)
                      else (Returns (),
                            add_default_headers addheaders
                              (if has_header r1 "Host" then r1
                               else add_unredirected_header r1 "Host" (String c host)))).1
                     = Returns ()
                     <-> r_has_proxy r = false).
           { intros r1 ->. by destruct (r_has_proxy r). }
           destruct (has_header r "Content-length"); simpl.
           * rewrite Hproxy by done. split; [by eauto|]. by intros (_ & _ & ?).
           * destruct (string_length data); rewrite Hproxy by done;
               (split; [by eauto|]; by intros (_ & _ & ?)).
         + split; [done|]. intros (_ & H & _). by specialize (H ltac:(eauto)).
       - destruct (bool_decide _); destruct (r_has_proxy r) eqn:Hp; simpl;
           rewrite ?Hp; simpl; split; try done; try (by intros (_ & _ & ?));
           intros _; (split; [by eauto|]); split; try done; by intros [? ?]. }
  - split; [done|]. by intros ((h & [= <-] & ?) & _).
  - split; [done|]. by intros ((h & ? & _) & _).
Qed.

(** X23.  A request that [do_request_] returns keeps its data and the
    headers that its caller gave it.  For data without a
    [Content-length] header it has got the means to frame the body: a
    [Content-length] with the length in decimal digits when the data
    is a string, and [Transfer-encoding: chunked] otherwise, never
    both; a [Content-length] that was given is left alone.  Without
    data a request whose method expects a body has got a
    [Content-length] of 0, whatever it had before. *)
Theorem do_request_framing addheaders r r' :
  do_request_ addheaders r = (Returns (), r') ->
  r_headers r' = r_headers r /\ r_data r' = r_data r
  /\ has_header r' "Host" = true
  /\ match r_data r with
     | Some data =>
         if has_header r "Content-length" then
           dict_get (r_unredirected_hdrs r') "Content-length"
           = dict_get (r_unredirected_hdrs r) "Content-length"
         else
           match string_length data with
           | Some n =>
               dict_get (r_unredirected_hdrs r') "Content-length"
               = Some (decimal (N.of_nat n))
           | None =>
               dict_get (r_unredirected_hdrs r') "Transfer-encoding" = Some "chunked"
           end
     | None =>
         if bool_decide (upper (r_method r) ∈ _METHODS_EXPECTING_BODY) then
           dict_get (r_unredirected_hdrs r') "Content-length" = Some "0"
         else True
     end.
Proof.
  unfold do_request_.
  destruct (r_host r) as [[|c host]|]; [done| |done].
  set (finish r1 :=
         add_default_headers addheaders
           (if has_header r1 "Host" then r1
            else add_unredirected_header r1 "Host" (String c host))).
  assert (Hfinish : forall r1,
             r_headers (finish r1) = r_headers r1 /\ r_data (finish r1) = r_data r1
             /\ has_header (finish r1) "Host" = true
             /\ forall name, has_header r1 name = true ->
                  dict_get (r_unredirected_hdrs (finish r1)) name
                  = dict_get (r_unredirected_hdrs r1) name).
  { intros r1. unfold finish.
    destruct (has_header r1 "Host") eqn:Hhost.
    - destruct (add_default_headers_keeps addheaders r1 "Host" Hhost)
        as (Hh & Hd & _ & Hhas).
      split; [done|]. split; [done|]. split; [done|]. intros name Hname.
      by destruct (add_default_headers_keeps addheaders r1 name Hname) as (_ & _ & ? & _).
    - set (r2 := add_unredirected_header r1 "Host" (String c host)).
      assert (Hhost2 : has_header r2 "Host" = true) by (by unfold r2; rewrite has_header_add).
      destruct (add_default_headers_keeps addheaders r2 "Host" Hhost2)
        as (Hh & Hd & _ & Hhas).
      split; [done|]. split; [done|]. split; [done|]. intros name Hname.
      assert (Hname2 : has_header r2 name = true).
      { unfold r2. rewrite has_header_add, Hname. apply orb_true_r. }
      destruct (add_default_headers_keeps addheaders r2 name Hname2) as (_ & _ & -> & _).
      unfold r2. simpl. rewrite dict_get_set_ne; [done|].
      intros Heq. rewrite Heq in Hname.
      change (has_header r1 "Host" = true) in Hname. congruence. }
  assert (Hadd : forall key val,
             has_header (add_unredirected_header r key val) (capitalize key) = true
             /\ dict_get (r_unredirected_hdrs (add_unredirected_header r key val))
                         (capitalize key) = Some val).
  { intros key val. split.
    - rewrite has_header_add. by rewrite bool_decide_true.
    - simpl. by rewrite dict_get_set_eq. }
  destruct (r_data r) as [data|] eqn:Hdata.
  - destruct (has_header r "Content-type"); simpl; [|done].
    destruct (has_header r "Content-length") eqn:Hcl; simpl.
    + destruct (r_has_proxy r); [done|]. intros [= <-]. fold (finish r).
      destruct (Hfinish r) as (Hh & Hd & Hhost & Hkeep).
      split; [done|]. split; [congruence|]. split; [done|]. by apply Hkeep.
    + destruct (string_length data) as [n|].
      * set (r1 := add_unredirected_header r "Content-length" (decimal (N.of_nat n))).
        change (r_has_proxy r1) with (r_has_proxy r).
        destruct (r_has_proxy r); [done|]. intros [= <-]. fold (finish r1).
        destruct (Hfinish r1) as (Hh & Hd & Hhost & Hkeep).
        split; [done|]. split; [simpl in Hd; congruence|]. split; [done|].
        destruct (Hadd "Content-length" (decimal (N.of_nat n))) as [H1 H2].
        rewrite (Hkeep "Content-length" H1). exact H2.
      * set (r1 := add_unredirected_header r "Transfer-Encoding" "chunked").
        change (r_has_proxy r1) with (r_has_proxy r).
        destruct (r_has_proxy r); [done|]. intros [= <-]. fold (finish r1).
        destruct (Hfinish r1) as (Hh & Hd & Hhost & Hkeep).
        split; [done|]. split; [simpl in Hd; congruence|]. split; [done|].
        destruct (Hadd "Transfer-Encoding" "chunked") as [H1 H2].
        rewrite (Hkeep "Transfer-encoding" H1). exact H2.
  - destruct (bool_decide (upper (r_method r) ∈ _METHODS_EXPECTING_BODY)).
    + set (r1 := add_unredirected_header r "Content-length" "0").
      change (r_has_proxy r1) with (r_has_proxy r).
      destruct (r_has_proxy r); [done|]. intros [= <-]. fold (finish r1).
      destruct (Hfinish r1) as (Hh & Hd & Hhost & Hkeep).
      split; [done|]. split; [simpl in Hd; congruence|]. split; [done|].
      destruct (Hadd "Content-length" "0") as [H1 H2].
      rewrite (Hkeep "Content-length" H1). exact H2.
    + destruct (r_has_proxy r); [done|]. intros [= <-]. fold (finish r).
      destruct (Hfinish r) as (Hh & Hd & Hhost & Hkeep).
      split; [done|]. split; [congruence|]. by split.
Qed.

(** ** The fields that a record has *)

Section EncoderFields.
Context (maxint : Z) (builtin_str : pyval -> string) (keyindex : Type)
        (getUniqueKey : entity -> keyindex -> result string)
        (sortkey_t : Type) (sortkey : entity -> sortkey_t)
        (sortkey_lt : sortkey_t -> sortkey_t -> bool).

Local Abbreviation encode :=
  (entity2dict maxint builtin_str keyindex getUniqueKey sortkey_t sortkey sortkey_lt).

(** X26.  The record of an entity has a field exactly for the names
    that the class declares and that have a value: the attributes
    other than [id] that are not [None], the many to one relations
    that are set, and the one to many relations whose collection is
    not empty.  Nothing that the entity holds under a declared name is
    left out of the record. *)
Theorem entity2dict_fields obj ki d a :
  schema_wf (e_class obj) -> encode obj ki = Ok d ->
  is_Some (dict_get d a)
  <-> (a ∈ InstAttr (e_class obj) /\ a <> "id" /\ getattr obj a <> VNone)
      \/ (a ∈ InstRel (e_class obj) /\ is_Some (getrel obj a))
      \/ (a ∈ InstMRel (e_class obj) /\ getmrel obj a <> []).
Proof.
  intros Hwf Hd. rewrite (entity2dict_get _ _ _ _ _ _ _ _ _ _ a Hd). split.
  - intros [v Hv].
    destruct (field_cases _ _ _ _ _ _ _ _ _ _ _ Hwf Hv)
      as [(Ha & _ & _ & Hattr)|[(_ & Hr & _ & o & k & Ho & _)|(_ & _ & Hm & Hne & _)]].
    + left. unfold attr_field in Hattr.
      rewrite (bool_decide_true _ Ha) in Hattr. simpl in Hattr.
      destruct (decide (a = "id")) as [->|Hid].
      { by rewrite bool_decide_true in Hattr by done. }
      split; [done|]. split; [done|]. intros Hnone. rewrite Hnone in Hattr.
      simpl in Hattr. by rewrite andb_false_r in Hattr.
    + right; left. split; [done|]. by rewrite Ho.
    + right; right. done.
  - intros [(Ha & Hid & Hv)|[(Hr & [o Ho])|(Hm & Hne)]].
    + rewrite field_attr by done. rewrite (bool_decide_false _ Hid).
      assert (is_None (getattr obj a) = false) as Hnone
        by (by destruct (getattr obj a)).
      rewrite Hnone. simpl.
      by destruct (entity2dict_value _ _ _ _ _ _ _ _ _ _ _ Hd Ha Hid Hnone) as [v ->].
    + rewrite field_rel by done. rewrite Ho.
      destruct (entity2dict_rel_Ok _ _ _ _ _ _ _ _ _ _ _ _ Hd Hr Ho) as [k ->]. done.
    + rewrite field_mrel by done.
      destruct (entity2dict_children_Ok _ _ _ _ _ _ _ _ _ _ _ Hd Hm Hne) as [recs ->].
      rewrite bool_decide_true; [done|]. destruct (getmrel obj a); [done|simpl; lia].
Qed.
End EncoderFields.

(** ** The further properties at the examples *)

Lemma add_staged_witness :
  outfile ex_writer = outfile writer_init
  /\ exists d,
      ex_entity2dict raw_dat tt = Ok d
      /\ forall tag' key',
          staged (data ex_writer) tag' key'
          = if decide (tag' = "datafile" /\ key' = "Datafile_name-raw.dat")
            then Some (VDict d)
            else staged (data writer_init) tag' key'.
Proof.
  apply (add_staged ex_maxint ex_str unit ex_getUniqueKey Z ex_sortkey Z.ltb
           "datafile" "Datafile_name-raw.dat" raw_dat tt writer_init ex_writer).
  vm_compute. reflexivity.
Defined.

Lemma add_encode_failure_witness :
  exists w',
    ex_add "datafile" "Datafile_name-orphan.dat" orphan_dat tt writer_init
    = (Raise (ClientError "no key"), w')
    /\ outfile w' = outfile writer_init
    /\ (forall tag' key',
          staged (data w') tag' key' = staged (data writer_init) tag' key')
    /\ dict_get (data w') "datafile"
       = Some (default [] (dict_get (data writer_init) "datafile"))
    /\ (data writer_init = [] ->
        startdata w'
        = Writer (outfile writer_init ++ [Document [("datafile", [])]]) []).
Proof.
  apply (add_encode_failure ex_maxint ex_str unit ex_getUniqueKey Z ex_sortkey Z.ltb
           "datafile" "Datafile_name-orphan.dat" orphan_dat tt writer_init
           (ClientError "no key")).
  - apply (bool_decide_unpack _). vm_compute. reflexivity.
  - vm_compute. reflexivity.
Defined.

Lemma getobjs_each_record_once_witness :
  getobjs (data ex_writer) ≡ₚ chunk_items (data ex_writer)
  /\ NoDup ((fun it => (i_name it, i_key it)) <$> getobjs (data ex_writer)).
Proof.
  apply (getobjs_each_record_once (data ex_writer)).
  unfold chunk_wf, dict_wf. apply (bool_decide_unpack _). vm_compute. reflexivity.
Defined.

Lemma dump_restore_witness :
  exists c obj' st',
    outfile (startdata ex_writer) = [Document c]
    /\ data (startdata ex_writer) = []
    /\ for_getobjs ex_typemap ex_getEntityInfo ex_body (getobjs c) ex_world
       = ([("Datafile_name-raw.dat", obj')], Ok (),
          ex_body "Datafile_name-raw.dat" obj' st')
    /\ restored ex_maxint ex_str Z ex_sortkey Z.ltb raw_dat obj'
    /\ service st' = service ex_world.
Proof.
  apply (dump_restore ex_maxint ex_str unit ex_getUniqueKey Z ex_sortkey Z.ltb
           ex_typemap ex_getEntityInfo ex_body
           "datafile" "Datafile_name-raw.dat" raw_dat tt ex_world ex_writer).
  - vm_compute. reflexivity.
  - apply raw_dat_restorable.
  - vm_compute. reflexivity.
Defined.

Lemma dict2entity_attributes_witness :
  exists obj st',
    ex_dict2entity (VDict short_record) "datafile" ex_world = (Ok obj, st')
    /\ forall a, getattr obj a
                 = if bool_decide (a ∈ InstAttr (e_class obj))
                   then default VNone (dict_get short_record a) else VNone.
Proof.
  eexists _, _. split; [vm_compute; reflexivity|].
  eapply (dict2entity_attributes ex_typemap ex_getEntityInfo short_record "datafile"
            ex_world).
  - unfold dict_wf. apply (bool_decide_unpack _). vm_compute. reflexivity.
  - vm_compute. reflexivity.
Defined.

Lemma dict2entity_relations_witness :
  exists obj st',
    ex_dict2entity (VDict short_record) "datafile" ex_world = (Ok obj, st')
    /\ service st' = service ex_world
    /\ (forall k, resolve st' k = resolve ex_world k)
    /\ forall a, getrel obj a
                 = if bool_decide ((a ∉ InstAttr (e_class obj))
                                   /\ a ∈ InstRel (e_class obj))
                   then v ← dict_get short_record a; k ← str_key v; resolve ex_world k
                   else None.
Proof.
  eexists _, _. split; [vm_compute; reflexivity|].
  apply (dict2entity_relations ex_typemap ex_getEntityInfo short_record "datafile"
           ex_world).
  - unfold dict_wf. apply (bool_decide_unpack _). vm_compute. reflexivity.
  - vm_compute. reflexivity.
Defined.

Lemma dict2entity_children_witness :
  exists obj st',
    ex_dict2entity (VDict raw_dat_record) "datafile" ex_world = (Ok obj, st')
    /\ match (if bool_decide (("parameters" ∉ InstAttr (e_class obj))
                              /\ ("parameters" ∉ InstRel (e_class obj))
                              /\ "parameters" ∈ InstMRel (e_class obj))
              then dict_get raw_dat_record "parameters" else None) with
       | Some (VList l) =>
           exists mt,
             mreltypes_of ex_typemap ex_getEntityInfo obj = Ok mt
             /\ Forall2 (fun rd o => exists t st1 st2,
                            dict_get mt "parameters" = Some t
                            /\ ex_dict2entity rd t st1 = (Ok o, st2)
                            /\ dict_get ex_typemap t = Some (e_class o))
                        l (getmrel obj "parameters")
       | Some _ => True
       | None => getmrel obj "parameters" = []
       end.
Proof.
  eexists _, _. split; [vm_compute; reflexivity|].
  eapply (dict2entity_children ex_typemap ex_getEntityInfo raw_dat_record "datafile"
            ex_world _ _ "parameters").
  - unfold dict_wf. apply (bool_decide_unpack _). vm_compute. reflexivity.
  - vm_compute. reflexivity.
Defined.

Lemma dict2entity_not_a_dict_witness :
  ex_dict2entity (VStr "") "datafile" ex_world = (Ok (Entity Datafile [] [] []), ex_world)
  <-> (VStr "" = VStr "" \/ VStr "" = VUnicode [] \/ VStr "" = VList [])
      /\ client_new ex_typemap "datafile" = Ok (Entity Datafile [] [] [])
      /\ ex_world = ex_world.
Proof.
  apply (dict2entity_not_a_dict ex_typemap ex_getEntityInfo (VStr "") "datafile"
           ex_world (Entity Datafile [] [] []) ex_world).
  discriminate.
Defined.

Lemma mreltypes_of_lookup_witness :
  exists info,
    ex_getEntityInfo (BeanName (e_class raw_dat)) = Ok info
    /\ Forall (fun f => f_relType f = "MANY" ->
                        is_Some (dict_get (insttypemap ex_typemap) (f_type f))) info
    /\ forall a,
        dict_get [("parameters", "datafileParameter")] a
        = (f ← last (filter (fun f => f_relType f = "MANY" /\ f_name f = a) info);
           dict_get (insttypemap ex_typemap) (f_type f)).
Proof.
  apply (mreltypes_of_lookup ex_typemap ex_getEntityInfo raw_dat
           [("parameters", "datafileParameter")]).
  vm_compute. reflexivity.
Defined.

Lemma entity2dict_integer_witness :
  exists v,
    dict_get raw_dat_record "fileSize" = Some v /\ int_value v = Some 12%Z
    /\ ((- ex_maxint - 1 <= 12 <= ex_maxint)%Z -> v = VInt 12).
Proof.
  apply (entity2dict_integer ex_maxint ex_str unit ex_getUniqueKey Z ex_sortkey Z.ltb
           raw_dat tt raw_dat_record "fileSize" 12%Z).
  - apply (bool_decide_unpack _). vm_compute. reflexivity.
  - vm_compute. reflexivity.
  - apply (bool_decide_unpack _). vm_compute. reflexivity.
  - discriminate.
  - reflexivity.
Defined.

Lemma entity2dict_text_witness :
  exists v,
    dict_get raw_dat_record "name" = Some v
    /\ text v = text (VStr "raw.dat")
    /\ (is_ascii (default [] (text (VStr "raw.dat"))) = true -> exists s, v = VStr s)
    /\ (is_ascii (default [] (text (VStr "raw.dat"))) = false
        -> v = getattr raw_dat "name").
Proof.
  apply (entity2dict_text ex_maxint ex_str unit ex_getUniqueKey Z ex_sortkey Z.ltb
           raw_dat tt raw_dat_record "name").
  - apply (bool_decide_unpack _). vm_compute. reflexivity.
  - vm_compute. reflexivity.
  - apply (bool_decide_unpack _). vm_compute. reflexivity.
  - discriminate.
  - reflexivity.
Defined.

Lemma fileiterator_chunks_witness :
  let chunks := fileiterator "hello world" 4 in
  str_join chunks = "hello world"
  /\ Forall (fun c => 0 < String.length c <= Z.to_nat 4) chunks
  /\ Forall (fun c => String.length c = Z.to_nat 4)
            (take (pred (length chunks)) chunks).
Proof.
  apply (fileiterator_chunks "hello world" 4). lia.
Defined.

Lemma fileiterator_degenerate_witness :
  fileiterator "hello world" 0 = if decide (0 = 0)%Z then [] else stringiterator "hello world".
Proof.
  apply (fileiterator_degenerate "hello world" 0). lia.
Defined.

Lemma send_body_content_witness :
  (exists pieces,
      send_body (Some (BodyFile "hello world")) false [] = (Returns (), [] ++ (Send <$> pieces))
      /\ str_join pieces = "hello world"
      /\ Forall (fun c => c <> EmptyString) pieces)
  /\ (exists frames,
        send_body (Some (BodyFile "hello world")) true []
        = (Returns (), [] ++ (Send <$> frames))
        /\ forall fuel rest,
            String.length "hello world" < fuel ->
            dechunk fuel (str_join frames +:+ rest) = Some ("hello world", rest)).
Proof.
  apply (send_body_content (BodyFile "hello world") "hello world" []). reflexivity.
Defined.

Lemma send_body_empty_chunk_witness :
  exists frames,
    send_body (Some (BodyIter (["ab"] ++ EmptyString :: ["cd"]))) true []
    = (Returns (), [] ++ (Send <$> frames))
    /\ forall fuel,
        length ["ab"] < fuel ->
        dechunk fuel (str_join frames)
        = Some (str_join ["ab"], str_join (chunk_frame <$> ["cd"]) +:+ last_chunk).
Proof.
  apply (send_body_empty_chunk ["ab"] ["cd"] []).
  apply (bool_decide_unpack _). vm_compute. reflexivity.
Defined.

Lemma send_request_transfer_encoding_witness :
  let named name := bool_decide (Exists (fun kv => lower kv.1 = name) ex_headers) in
  let start := [] ++ [PutRequest "POST" "/icat" (named "host") (named "accept-encoding")] in
  let sent :=
    start ++ ((fun kv => PutHeader kv.1 kv.2) <$> ex_headers) ++ [EndHeaders] in
  _send_request "POST" "/icat" (Some (BodyStr "hello")) ex_headers []
  = match last (filter (fun kv => lower kv.1 = "transfer-encoding") ex_headers) with
    | None => send_body (Some (BodyStr "hello")) false sent
    | Some kv =>
        if decide (kv.2 = "chunked") then send_body (Some (BodyStr "hello")) true sent
        else (Raises (NameError "HTTPException"), start)
    end.
Proof.
  apply (send_request_transfer_encoding "POST" "/icat" (Some (BodyStr "hello"))
           ex_headers []).
  unfold dict_wf. apply (bool_decide_unpack _). vm_compute. reflexivity.
Defined.

Lemma send_request_headers_witness :
  exists evs,
    [PutRequest "POST" "/icat" false false;
     PutHeader "Content-Type" "text/plain";
     PutHeader "Transfer-Encoding" "chunked";
     EndHeaders;
     Send (chunk_frame "hello");
     Send last_chunk] = [] ++ evs
    /\ (put_headers evs = ex_headers \/ put_headers evs = [])
    /\ (Returns () = Returns () -> put_headers evs = ex_headers)
    /\ (EndHeaders ∈ evs -> put_headers evs = ex_headers)
    /\ (EndHeaders ∉ evs -> put_headers evs = []).
Proof.
  apply (send_request_headers "POST" "/icat" (Some (BodyStr "hello")) ex_headers []
           (Returns ())).
  vm_compute. reflexivity.
Defined.

Lemma do_request_framing_witness :
  exists r',
    do_request_ [("User-agent", "Python-urllib/2.7")] ex_request = (Returns (), r')
    /\ r_headers r' = r_headers ex_request /\ r_data r' = r_data ex_request
    /\ has_header r' "Host" = true
    /\ dict_get (r_unredirected_hdrs r') "Transfer-encoding" = Some "chunked".
Proof.
  eexists. split; [vm_compute; reflexivity|].
  apply (do_request_framing [("User-agent", "Python-urllib/2.7")] ex_request).
  vm_compute. reflexivity.
Defined.


Lemma entity2dict_fields_witness :
  is_Some (dict_get raw_dat_record "doi")
  <-> ("doi" ∈ InstAttr (e_class raw_dat) /\ "doi" <> "id"
       /\ getattr raw_dat "doi" <> VNone)
      \/ ("doi" ∈ InstRel (e_class raw_dat) /\ is_Some (getrel raw_dat "doi"))
      \/ ("doi" ∈ InstMRel (e_class raw_dat) /\ getmrel raw_dat "doi" <> []).
Proof.
  apply (entity2dict_fields ex_maxint ex_str unit ex_getUniqueKey Z ex_sortkey Z.ltb
           raw_dat tt raw_dat_record "doi").
  - apply (bool_decide_unpack _). vm_compute. reflexivity.
  - vm_compute. reflexivity.
Defined.
